(** * Ripple: dependency-graph engine, impact calculator and risk scorer

    A shallow embedding of the TypeScript sources
    [src/core/graph.ts], [src/analyzers/test-mapper.ts],
    [src/analyzers/impact-calculator.ts], [src/analyzers/risk-scorer.ts]
    and of the [Ripple] facade of [src/index.ts].

    Conventions of the embedding.
    - A JS [Map<string, V>] is an insertion-ordered association list with
      unique keys, a JS [Set<string>] an insertion-ordered duplicate-free
      list: iteration order decides the order in which the depth-first
      traversal discovers files, so it is kept.
    - JS numbers that count things are [nat]; the other numbers are the
      rationals ([Q]) that the IEEE doubles stand for. The arithmetic of
      the risk scorer and of the hooks is that of doubles: every
      operation is followed by [Double.round], the rounding to the nearest
      double, ties to even (sums of small integers, which doubles hold
      exactly, are left as they are). The coverage percentages of the
      test mapper and the averages of the graph statistics are exact
      rationals. Numbers are finite: [NaN], the infinities and overflow,
      which needs a number near [Number.MAX_VALUE] in the configuration
      or in the input, are left out.
    - [throw new Error(...)] is a value of the sum type [result], and so
      is a [TypeError] that the runtime throws.
    - [async] functions run to completion one after the other (the program
      is single-threaded and awaits every call), so promises are left out.
    - What the program asks of its host (file system, Node's [path]
      module, [glob], [minimatch], the TypeScript front end) is a record
      of functions, [Host]. *)

From Stdlib Require Import List String Ascii Bool Arith ZArith QArith Qround Qminmax Lia.
From Stdlib Require Import DecimalString Lqa Qpower.
From Stdlib Require Floats Uint63.
Import ListNotations.

Local Open Scope string_scope.
Local Open Scope list_scope.

(** String concatenation, written as in a template literal's pieces. *)
Infix "+++" := String.append (at level 60, right associativity) : string_scope.

Set Implicit Arguments.

(** ** JS strings *)

Module Js.

(** [s.startsWith(p)] *)
Definition startsWith (p s : string) : bool := String.prefix p s.

(** [s.endsWith(p)] *)
Definition endsWith (p s : string) : bool :=
  (String.length p <=? String.length s)%nat &&
  String.eqb (substring (String.length s - String.length p) (String.length p) s) p.

(** [s.slice(0, -n)] *)
Definition dropRight (n : nat) (s : string) : string :=
  substring 0 (String.length s - n) s.

(** [s.slice(n)] *)
Definition dropLeft (n : nat) (s : string) : string :=
  substring n (String.length s - n) s.

(** [s.includes(p)] *)
Definition includes (p s : string) : bool :=
  match index 0 p s with Some _ => true | None => false end.

(** [s.replace(/^p/, '')] for a literal prefix [p]. *)
Definition stripPrefix (p s : string) : string :=
  if startsWith p s then dropLeft (String.length p) s else s.

(** [s.replace(/(p1|p2|...)$/, '')]: the regular expression is anchored at
    the end, so the match found first is the one that starts leftmost, that
    is the longest alternative that is a suffix. *)
Definition stripOneSuffix (ps : list string) (s : string) : string :=
  let hits := filter (fun p => endsWith p s) ps in
  let longest :=
    fold_left (fun best p =>
                 if (String.length best <? String.length p)%nat then p else best)
              hits "" in
  match hits with
  | [] => s
  | _ => dropRight (String.length longest) s
  end.

(** Decimal rendering of a count, as in a template literal. *)
Definition showNat (n : nat) : string := NilZero.string_of_uint (Nat.to_uint n).

(** Decimal rendering of an integer, as in a template literal. *)
Definition showZ (z : Z) : string := NilZero.string_of_int (Z.to_int z).

End Js.

(** ** JS [Set<string>]: insertion-ordered, duplicate-free *)

Module JsSet.

Definition t := list string.

Definition empty : t := [].

Definition has (x : string) (s : t) : bool := existsb (String.eqb x) s.

Definition add (x : string) (s : t) : t := if has x s then s else s ++ [x].

Definition delete (x : string) (s : t) : t :=
  filter (fun y => negb (String.eqb x y)) s.

(** [new Set(xs)] and [[...new Set(xs)]]: first occurrences, in order. *)
Definition ofList (xs : list string) : t := fold_left (fun s x => add x s) xs empty.

End JsSet.

(** ** JS [Map<string, V>]: insertion-ordered association list *)

Module JsMap.
Section WithValue.
Variable V : Type.

Definition t := list (string * V).

Definition empty : t := [].

Fixpoint get (k : string) (m : t) : option V :=
  match m with
  | [] => None
  | (k', v) :: rest => if String.eqb k' k then Some v else get k rest
  end.

Definition has (k : string) (m : t) : bool :=
  match get k m with Some _ => true | None => false end.

(** [m.set(k, v)]: an existing key keeps its place. *)
Fixpoint set (k : string) (v : V) (m : t) : t :=
  match m with
  | [] => [(k, v)]
  | (k', v') :: rest =>
      if String.eqb k' k then (k, v) :: rest else (k', v') :: set k v rest
  end.

Fixpoint delete (k : string) (m : t) : t :=
  match m with
  | [] => []
  | (k', v') :: rest =>
      if String.eqb k' k then rest else (k', v') :: delete k rest
  end.

(** [new Map(entries)] *)
Definition ofList (entries : list (string * V)) : t :=
  fold_left (fun m kv => set (fst kv) (snd kv) m) entries empty.

End WithValue.
Arguments empty {V}.
End JsMap.

(** ** Data model ([src/types.ts], as the sources under [src/] use it) *)

Record FileLocation := mkLoc {
  loc_filePath : string;
  loc_line : nat;
  loc_column : nat
}.

Inductive SymbolKind :=
| KFunction | KClass | KVariable | KType | KInterface | KEnum | KMethod | KProperty.

Record Symbol := mkSymbol {
  sym_name : string;
  sym_kind : SymbolKind;
  sym_location : FileLocation
}.

Record ImportSpecifier := mkSpec {
  imported : string;
  local : string;
  isDefault : bool;
  isNamespace : bool
}.

Record ImportInfo := mkImport {
  imp_source : string;
  imp_specifiers : list ImportSpecifier;
  imp_location : FileLocation
}.

Record ExportInfo := mkExport {
  exp_name : string;
  exp_kind : SymbolKind;
  exp_location : FileLocation;
  exp_isDefault : bool
}.

Record GraphNode := mkNode {
  node_filePath : string;
  symbols : list Symbol;
  imports : list ImportInfo;
  exports : list ExportInfo;
  lastModified : Q
}.

Record DependencyGraph := mkGraph {
  nodes : JsMap.t GraphNode;
  edges : JsMap.t JsSet.t;
  reverseEdges : JsMap.t JsSet.t
}.

Inductive RiskLevel := Low | Medium | High | Critical.

(** The enum's string values, as [generateSummary] compares them. *)
Definition RiskLevel_string (l : RiskLevel) : string :=
  match l with
  | Low => "LOW" | Medium => "MEDIUM" | High => "HIGH" | Critical => "CRITICAL"
  end.

Record RiskThresholds := mkThresholds {
  th_low : Q;
  th_medium : Q;
  th_high : Q
}.

Record RippleConfig := mkConfig {
  includePaths : list string;
  excludePaths : list string;
  testPatterns : list string;
  criticalPathPatterns : list string;
  riskThresholds : RiskThresholds;
  cacheEnabled : bool;
  cachePath : string
}.

Record CoverageMetric := mkMetric {
  total : nat;
  covered : nat;
  percentage : Q
}.

Record CoverageInfo := mkCoverage {
  cov_lines : CoverageMetric;
  cov_branches : CoverageMetric
}.

Record TestMapping := mkMapping {
  sourceFile : string;
  testFiles : list string;
  coverage : option CoverageInfo
}.

(** One file's entry of [CoverageData]: hit counts keyed by line, branch and
    function. *)
Record FileCoverage := mkFileCoverage {
  raw_lines : list (string * Z);
  raw_branches : list (string * Z);
  raw_functions : list (string * Z)
}.

(** The cache file [graph.json]. *)
Record CacheSnapshot := mkSnapshot {
  snap_version : Z;
  snap_nodes : list (string * GraphNode);
  snap_edges : list (string * list string);
  snap_reverseEdges : list (string * list string)
}.

(** ** The host: what the program calls outside its own sources *)

Record Host := mkHost {
  (** [fs.existsSync] *)
  fs_exists : string -> bool;
  (** [fs.statSync(p).isFile()] *)
  fs_isFile : string -> bool;
  (** [path.resolve(...segments)] *)
  path_resolve : list string -> string;
  (** [path.join(...segments)] *)
  path_join : list string -> string;
  path_dirname : string -> string;
  path_basename : string -> string;
  (** [path.parse(p).name] and [path.parse(p).dir] *)
  path_name : string -> string;
  path_dir : string -> string;
  (** [path.relative(from, to)] *)
  path_relative : string -> string -> string;
  (** [glob(pattern, {cwd, absolute: true, ignore})] *)
  glob : string -> string -> list string -> list string;
  minimatch : string -> string -> bool;
  (** [parser.toGraphNode(parser.parseFile(file))], as the parser answers
      when it is asked; [None] when it throws, which is when [fs.statSync]
      finds no file. The symbols, imports and exports of the node are those
      of the file in the parser's [ts.Program], which [build] makes anew
      from the discovered files and [updateIncremental] reuses. *)
  parseNode : string -> option GraphNode;
  (** [parser.getContextSnippet(file, line)] *)
  getContextSnippet : string -> nat -> string;
  (** [loadCoverageData] under a root directory: the first coverage report
      that exists and parses, normalised; [None] when there is none. The
      map holds the own entries of the normalised object, whose prototype
      is [Object.prototype] (no entry of a report is named [__proto__]). *)
  readCoverage : string -> option (JsMap.t FileCoverage);
  (** [JSON.parse(fs.readFileSync(cacheFile))]; [None] when the file is
      missing or anything throws. *)
  readCache : string -> option CacheSnapshot;
  (** [fs.statSync(p).mtimeMs]; [None] when it throws. *)
  mtimeMs : string -> option Q
}.

(** ** Graph engine ([src/core/graph.ts]) *)

Module DependencyGraphBuilder.

Record t := mkBuilder {
  rootDir : string;
  config : RippleConfig;
  graph : DependencyGraph;
  fileToNodeMap : JsMap.t GraphNode
}.

Definition withGraph (b : t) (g : DependencyGraph) : t :=
  mkBuilder (rootDir b) (config b) g (fileToNodeMap b).

Section WithHost.
Variable H : Host.

Definition possibleExtensions : list string := [".ts"; ".tsx"; ".js"; ".jsx"; ""].

(** First element of [xs] accepted by [ok], the way the probing loops
    return from inside. *)
Definition firstThat (ok : string -> bool) (xs : list string) : option string :=
  find ok xs.

Definition resolveImport (root importSource fromFile : string) : option string :=
  let fromDir := path_dirname H fromFile in
  let relative :=
    if Js.startsWith "." importSource then
      let baseImport :=
        if Js.endsWith ".js" importSource then Js.dropRight 3 importSource
        else if Js.endsWith ".jsx" importSource then Js.dropRight 4 importSource
        else importSource in
      let possiblePaths := [baseImport; baseImport +++ "/index"] in
      firstThat (fun p => fs_exists H p && fs_isFile H p)
        (flat_map (fun basePath =>
                     map (fun ext => path_resolve H [fromDir; basePath +++ ext])
                         possibleExtensions)
                  possiblePaths)
    else None in
  match relative with
  | Some p => Some p
  | None =>
      let srcPath := path_resolve H [root; "src"; importSource] in
      match firstThat (fs_exists H) (map (fun ext => srcPath +++ ext) possibleExtensions) with
      | Some p => Some p
      | None =>
          firstThat (fs_exists H)
            (map (fun ext => path_resolve H [srcPath; "index" +++ ext]) possibleExtensions)
      end
  end.

(** [if (!m.has(k)) m.set(k, new Set()); m.get(k)!.add(x)] *)
Definition addTo (k x : string) (m : JsMap.t JsSet.t) : JsMap.t JsSet.t :=
  let m1 := if JsMap.has k m then m else JsMap.set k JsSet.empty m in
  match JsMap.get k m1 with
  | Some s => JsMap.set k (JsSet.add x s) m1
  | None => m1
  end.

(** The body of the inner loop of [buildEdges] for one import of
    [filePath]. A resolved path that is the empty string is falsy. *)
Definition addImportEdge (root : string) (filePath : string)
           (g : DependencyGraph) (importInfo : ImportInfo) : DependencyGraph :=
  match resolveImport root (imp_source importInfo) filePath with
  | Some resolvedPath =>
      if negb (String.eqb resolvedPath "") && JsMap.has resolvedPath (nodes g) then
        mkGraph (nodes g)
                (addTo filePath resolvedPath (edges g))
                (addTo resolvedPath filePath (reverseEdges g))
      else g
  | None => g
  end.

Definition buildEdges (root : string) (g : DependencyGraph) : DependencyGraph :=
  let cleared := mkGraph (nodes g) JsMap.empty JsMap.empty in
  fold_left
    (fun acc entry =>
       fold_left (addImportEdge root (fst entry)) (imports (snd entry)) acc)
    (nodes g) cleared.

(** [m.get(k)?.delete(x)] *)
Definition deleteFrom (k x : string) (m : JsMap.t JsSet.t) : JsMap.t JsSet.t :=
  match JsMap.get k m with
  | Some s => JsMap.set k (JsSet.delete x s) m
  | None => m
  end.

Definition removeEdgesForFile (filePath : string) (g : DependencyGraph) : DependencyGraph :=
  let g1 :=
    match JsMap.get filePath (edges g) with
    | Some deps =>
        mkGraph (nodes g)
                (JsMap.delete filePath (edges g))
                (fold_left (fun rev dep => deleteFrom dep filePath rev) deps (reverseEdges g))
    | None => g
    end in
  match JsMap.get filePath (reverseEdges g1) with
  | Some dependents =>
      mkGraph (nodes g1)
              (fold_left (fun fwd dependent => deleteFrom dependent filePath fwd)
                         dependents (edges g1))
              (JsMap.delete filePath (reverseEdges g1))
  | None => g1
  end.

Definition discoverFiles (b : t) : list string :=
  JsSet.ofList
    (flat_map (fun pattern => glob H pattern (rootDir b) (excludePaths (config b)))
              (includePaths (config b))).

(** The parse-and-store step shared by [build] and [updateIncremental];
    [onError] is what the [catch] block does. *)
Definition storeNode (file : string) (b : t) (onError : t -> t) : t :=
  match parseNode H file with
  | Some node =>
      mkBuilder (rootDir b) (config b)
                (mkGraph (JsMap.set file node (nodes (graph b)))
                         (edges (graph b)) (reverseEdges (graph b)))
                (JsMap.set file node (fileToNodeMap b))
  | None => onError b
  end.

(** [build]: [this.parser.initialize(files)] makes the program of the
    discovered files, from which [parseNode] then answers; writing the
    cache file changes no state of the builder. *)
Definition build (b : t) : t :=
  let files := discoverFiles b in
  let b1 := fold_left (fun acc file => storeNode file acc (fun x => x)) files b in
  withGraph b1 (buildEdges (rootDir b1) (graph b1)).

Definition dropNode (file : string) (b : t) : t :=
  mkBuilder (rootDir b) (config b)
            (mkGraph (JsMap.delete file (nodes (graph b)))
                     (edges (graph b)) (reverseEdges (graph b)))
            (JsMap.delete file (fileToNodeMap b)).

Definition updateIncremental (changedFiles : list string) (b : t) : t :=
  let b1 :=
    fold_left
      (fun acc file =>
         let acc1 := withGraph acc (removeEdgesForFile file (graph acc)) in
         storeNode file acc1 (dropNode file))
      changedFiles b in
  withGraph b1 (buildEdges (rootDir b1) (graph b1)).

(** [loadCache]: the graph is replaced as soon as the version tag is
    accepted, before the time stamps are compared. *)
Definition loadCache (b : t) : bool * t :=
  let cacheFile := path_resolve H [rootDir b; cachePath (config b); "graph.json"] in
  match readCache H cacheFile with
  | None => (false, b)
  | Some cacheData =>
      if negb (snap_version cacheData =? 1)%Z then (false, b)
      else
        let loaded :=
          mkGraph (JsMap.ofList (snap_nodes cacheData))
                  (JsMap.ofList (map (fun kv => (fst kv, JsSet.ofList (snd kv)))
                                     (snap_edges cacheData)))
                  (JsMap.ofList (map (fun kv => (fst kv, JsSet.ofList (snd kv)))
                                     (snap_reverseEdges cacheData))) in
        let fresh :=
          forallb
            (fun entry =>
               match mtimeMs H (fst entry) with
               | Some mtime => Qle_bool mtime (lastModified (snd entry))
               | None => false
               end)
            (nodes loaded) in
        (fresh, withGraph b loaded)
  end.

End WithHost.

(** [Array.from(m.get(k) || [])] *)
Definition lookupList (k : string) (m : JsMap.t JsSet.t) : list string :=
  match JsMap.get k m with Some s => s | None => [] end.

Definition getDirectDependents (b : t) (filePath : string) : list string :=
  lookupList filePath (reverseEdges (graph b)).

Definition getDirectDependencies (b : t) (filePath : string) : list string :=
  lookupList filePath (edges (graph b)).

Definition getNode (b : t) (filePath : string) : option GraphNode :=
  JsMap.get filePath (nodes (graph b)).

(** The two variables the closure [traverse] shares with its caller. *)
Record Walk := mkWalk {
  visited : JsSet.t;
  result : list string
}.

(** The closure [traverse] of [getTransitiveDependents] and of
    [getTransitiveDependencies], over the adjacency map [adj] it reads.
    [fuel] makes the recursion structural: every call is made with
    [fuel = maxDepth + 1 - depth] (see [getTransitive]), so it is [0]
    exactly when the guard [depth > maxDepth] fires, and the function
    returns what the source returns. *)
Fixpoint traverse (adj : JsMap.t JsSet.t) (maxDepth : Z) (fuel : nat)
         (current : string) (depth : Z) (w : Walk) : Walk :=
  match fuel with
  | O => w
  | S fuel' =>
      if (depth >? maxDepth)%Z || JsSet.has current (visited w) then w
      else
        let w1 := mkWalk (JsSet.add current (visited w)) (result w) in
        match JsMap.get current adj with
        | Some dependents =>
            fold_left
              (fun acc dep =>
                 if negb (JsSet.has dep (visited acc)) then
                   traverse adj maxDepth fuel' dep (depth + 1)%Z
                            (mkWalk (visited acc) (result acc ++ [dep]))
                 else acc)
              dependents w1
        | None => w1
        end
  end.

Definition getTransitive (adj : JsMap.t JsSet.t) (filePath : string) (maxDepth : Z)
  : list string :=
  result (traverse adj maxDepth (Z.to_nat (maxDepth + 1)) filePath 0%Z
                   (mkWalk JsSet.empty [])).

Definition defaultMaxDepth : Z := 10%Z.

Definition getTransitiveDependents (b : t) (filePath : string) (maxDepth : Z)
  : list string :=
  getTransitive (reverseEdges (graph b)) filePath maxDepth.

Definition getTransitiveDependencies (b : t) (filePath : string) (maxDepth : Z)
  : list string :=
  getTransitive (edges (graph b)) filePath maxDepth.

End DependencyGraphBuilder.

(** ** Test mapper ([src/analyzers/test-mapper.ts]) *)

Module TestMapper.

Record t := mkMapper {
  rootDir : string;
  config : RippleConfig;
  knownTests : JsSet.t;                         (* [this.testFiles] *)
  coverageData : option (JsMap.t FileCoverage)
}.

Definition isTestFile (m : t) (filePath : string) : bool :=
  JsSet.has filePath (knownTests m).

(** [entries.filter((v) => v > 0).length] *)
Definition countHit (entries : list Z) : nat :=
  List.length (filter (fun v => (v >? 0)%Z) entries).

(** [total > 0 ? (covered / total) * 100 : 0] *)
Definition percent (coveredCount totalCount : nat) : Q :=
  if (0 <? totalCount)%nat
  then ((inject_Z (Z.of_nat coveredCount) / inject_Z (Z.of_nat totalCount)) * 100)%Q
  else 0%Q.

Definition calculateCoverageInfo (data : FileCoverage) : CoverageInfo :=
  let lineEntries := map snd (raw_lines data) in
  let branchEntries := map snd (raw_branches data) in
  let linesTotal := List.length lineEntries in
  let linesCovered := countHit lineEntries in
  let branchesTotal := List.length branchEntries in
  let branchesCovered := countHit branchEntries in
  mkCoverage
    (mkMetric linesTotal linesCovered (percent linesCovered linesTotal))
    (mkMetric branchesTotal branchesCovered (percent branchesCovered branchesTotal)).

Section WithHost.
Variable H : Host.

Definition discoverTestFiles (m : t) : JsSet.t :=
  fold_left
    (fun acc pattern =>
       fold_left (fun acc' f => JsSet.add f acc')
                 (glob H pattern (rootDir m) ["node_modules/**"]) acc)
    (testPatterns (config m)) JsSet.empty.

Definition initialize (m : t) : t :=
  mkMapper (rootDir m) (config m) (discoverTestFiles m)
           (match readCoverage H (rootDir m) with
            | Some data => Some data
            | None => coverageData m
            end).

Definition findByNamingConvention (m : t) (source : string) : list string :=
  let baseName := path_name H source in
  let dir := path_dir H source in
  let patterns :=
    [baseName +++ ".test"; baseName +++ ".spec"; baseName +++ "-test"; baseName +++ "_test"] in
  let extensions := [".ts"; ".tsx"; ".js"; ".jsx"] in
  flat_map
    (fun pattern =>
       flat_map
         (fun ext =>
            filter (fun p => JsSet.has p (knownTests m))
                   [path_join H [dir; pattern +++ ext];
                    path_join H [dir; "__tests__"; pattern +++ ext];
                    path_join H [dir; "tests"; pattern +++ ext]])
         extensions)
    patterns.

Definition findByImportAnalysis (m : t) (b : DependencyGraphBuilder.t)
           (source : string) : list string :=
  filter (fun dep => JsSet.has dep (knownTests m))
         (DependencyGraphBuilder.getDirectDependents b source).

Definition findColocatedTests (m : t) (source : string) : list string :=
  let baseName := path_name H source in
  let parentTestsDir := path_join H [path_dirname H (path_dir H source); "__tests__"] in
  filter
    (fun testFile =>
       Js.startsWith parentTestsDir testFile &&
       String.eqb
         (Js.stripOneSuffix ["_test"; "_spec"]
            (Js.stripOneSuffix ["-test"; "-spec"]
               (Js.stripOneSuffix [".test"; ".spec"] (path_name H testFile))))
         baseName)
    (knownTests m).

(** The members that the plain object [this.coverageData] inherits from
    [Object.prototype]. Indexing the object with one of these names gives
    a function (the prototype itself for [__proto__]), which is truthy and
    has no [lines]. *)
Definition objectPrototypeMembers : list string :=
  ["constructor"; "__defineGetter__"; "__defineSetter__"; "hasOwnProperty";
   "__lookupGetter__"; "__lookupSetter__"; "isPrototypeOf"; "propertyIsEnumerable";
   "toString"; "valueOf"; "__proto__"; "toLocaleString"].

(** [this.coverageData[p]] is truthy: [p] is an entry or an inherited
    member. *)
Definition truthyAt (data : JsMap.t FileCoverage) (p : string) : bool :=
  JsMap.has p data || JsSet.has p objectPrototypeMembers.

(** [getCoverageForFile] throws: the first form of the path at which
    [this.coverageData[p]] is truthy is not an entry but an inherited
    member, so that [calculateCoverageInfo] calls
    [Object.values(undefined)], a [TypeError]. *)
Definition getCoverageForFile_throws (m : t) (filePath : string) : bool :=
  match coverageData m with
  | None => false
  | Some data =>
      let possiblePaths :=
        [filePath; path_relative H (rootDir m) filePath; path_resolve H [filePath]] in
      match find (truthyAt data) possiblePaths with
      | Some p => negb (JsMap.has p data)
      | None => false
      end
  end.

(** [getCoverageForFile], when it returns: [null] when no form of the path
    is an entry, else the coverage of the first form that is one. *)
Definition getCoverageForFile (m : t) (filePath : string) : option CoverageInfo :=
  match coverageData m with
  | None => None
  | Some data =>
      let possiblePaths :=
        [filePath; path_relative H (rootDir m) filePath; path_resolve H [filePath]] in
      match find (fun p => JsMap.has p data) possiblePaths with
      | Some p => option_map calculateCoverageInfo (JsMap.get p data)
      | None => None
      end
  end.

Definition getTestsForFile (m : t) (b : DependencyGraphBuilder.t) (source : string)
  : TestMapping :=
  let found :=
    findByNamingConvention m source
    ++ findByImportAnalysis m b source
    ++ findColocatedTests m source in
  mkMapping source (JsSet.ofList found) (getCoverageForFile m source).

End WithHost.

End TestMapper.

(** ** Risk scorer ([src/analyzers/risk-scorer.ts]) *)

Record Caller := mkCaller {
  location : FileLocation;
  symbol : Symbol;
  context : string;
  caller_isTestFile : bool;
  caller_isCriticalPath : bool
}.

Record RiskFactor := mkFactor {
  name : string;
  weight : Q;
  description : string;
  value : Q
}.

Record RiskScore := mkScore {
  score_value : Q;
  level : RiskLevel;
  factors : list RiskFactor
}.

(** [n] as a JS number. *)
Definition num (n : nat) : Q := inject_Z (Z.of_nat n).

(** [Math.round]: the nearest integer, halves towards plus infinity. *)
Definition Math_round (x : Q) : Z := Qfloor (x + (1 # 2)).

(** ** IEEE 754 binary64 rounding

    A JS number is a double; the result of [+], [-], [*] and [/] is the
    exact result rounded to the nearest double, ties to the one with an
    even significand. *)

Module Double.

(** [floor(log2 q)] for a positive [q]: the difference of the binary
    lengths of numerator and denominator, or one less. *)
Definition ilog2 (q : Q) : Z :=
  let k := (Z.log2 (Qnum q) - Z.log2 (Zpos (Qden q)))%Z in
  if Qle_bool (2 ^ k) q then k else (k - 1)%Z.

(** The nearest integer, a tie going to the even one. *)
Definition nearestEven (q : Q) : Z :=
  let f := Qfloor q in
  match (q - inject_Z f ?= 1 # 2)%Q with
  | Lt => f
  | Gt => (f + 1)%Z
  | Eq => if Z.even f then f else (f + 1)%Z
  end.

(** The exponent of the unit in the last place of the doubles around a
    positive [q]: 52 below the exponent of [q], and never below that of the
    subnormal numbers. *)
Definition ulpExponent (q : Q) : Z := Z.max (-1074) (ilog2 q - 52).

Definition roundPositive (q : Q) : Q :=
  inject_Z (nearestEven (q / 2 ^ ulpExponent q)) * 2 ^ ulpExponent q.

(** The double nearest to [x], ties to even (no overflow: the numbers of
    the program stay far below [2^1024]). *)
Definition round (x : Q) : Q :=
  match (x ?= 0)%Q with
  | Eq => 0
  | Gt => roundPositive x
  | Lt => - roundPositive (- x)
  end.

(** The doubles of the machine, with which [round] is compared: the
    rational that a finite double stands for, and the double of an
    integer. *)
Definition ofFloat (f : PrimFloat.float) : Q :=
  match FloatOps.Prim2SF f with
  | SpecFloat.S754_finite negative m e =>
      (if negative then - inject_Z (Zpos m) else inject_Z (Zpos m)) * 2 ^ e
  | _ => 0
  end.

Definition toFloat (n : Z) : PrimFloat.float := PrimFloat.of_uint63 (Uint63.of_Z n).

End Double.

Module RiskScorer.

Record RiskInput := mkInput {
  directCallers : list Caller;
  transitiveCallers : list Caller;
  untestedCallers : list Caller;
  affectedTests : list TestMapping;
  filePath : string
}.

Record RiskWeights := mkWeights {
  callerCount : Q;
  untestedRatio : Q;
  criticalPath : Q;
  testCoverage : Q;
  transitiveDepth : Q
}.

(** The literals [0.25], [0.30], [0.25], [0.15] and [0.05] are the doubles
    nearest to these decimals. *)
Definition DEFAULT_WEIGHTS : RiskWeights :=
  mkWeights (Double.round (25 # 100)) (Double.round (30 # 100))
            (Double.round (25 # 100)) (Double.round (15 # 100))
            (Double.round (5 # 100)).

Record t := mkScorer {
  config : RippleConfig;
  weights : RiskWeights
}.

Section WithHost.
Variable H : Host.
Variable self : t.

Local Open Scope Q_scope.

Definition calculateCallerFactor (input : RiskInput) : RiskFactor :=
  let nDirect := List.length (directCallers input) in
  let nTransitive := List.length (transitiveCallers input) in
  let totalCallers := (nDirect + nTransitive)%nat in
  let v :=
    if (totalCallers =? 0)%nat then 0
    else if (totalCallers <=? 5)%nat then
      Double.round (2 + Double.round (Double.round (num totalCallers / 5) * 2))
    else if (totalCallers <=? 15)%nat then
      Double.round
        (4 + Double.round
               (Double.round (Double.round (num totalCallers - 5) / 10) * 2))
    else if (totalCallers <=? 30)%nat then
      Double.round
        (6 + Double.round
               (Double.round (Double.round (num totalCallers - 15) / 15) * 2))
    else
      Double.round
        (8 + Qmin 2 (Double.round (Double.round (num totalCallers - 30) / 50))) in
  mkFactor "Caller Count" (callerCount (weights self))
           (Js.showNat totalCallers +++ " total callers (" +++ Js.showNat nDirect
            +++ " direct, " +++ Js.showNat nTransitive +++ " transitive)")
           v.

Definition calculateUntestedFactor (input : RiskInput) : RiskFactor :=
  let totalCallers :=
    (List.length (directCallers input) + List.length (transitiveCallers input))%nat in
  let untestedCount := List.length (untestedCallers input) in
  if (totalCallers =? 0)%nat then
    mkFactor "Untested Callers" (untestedRatio (weights self))
             "No callers to evaluate" 0
  else
    let ratio := Double.round (num untestedCount / num totalCallers) in
    mkFactor "Untested Callers" (untestedRatio (weights self))
             (Js.showNat untestedCount +++ "/" +++ Js.showNat totalCallers
              +++ " callers lack test coverage ("
              +++ Js.showZ (Math_round (Double.round (ratio * 100)))
              +++ "%)")
             (Double.round (ratio * 10)).

Definition isInCriticalPath (file : string) : bool :=
  existsb (fun pattern => minimatch H file pattern)
          (criticalPathPatterns (config self)).

Definition calculateCriticalPathFactor (input : RiskInput) : RiskFactor :=
  let allCallers := directCallers input ++ transitiveCallers input in
  let criticalPathCallers := filter caller_isCriticalPath allCallers in
  let nCritical := List.length criticalPathCallers in
  let fileInCriticalPath := isInCriticalPath (filePath input) in
  let v0 := if fileInCriticalPath then 0 + 5 else 0 in
  let v := if (0 <? nCritical)%nat then v0 + num (Nat.min 5 nCritical) else v0 in
  let criticalPaths :=
    (if fileInCriticalPath then ["Target file in critical path"] else [])
    ++ (if (0 <? nCritical)%nat
        then [Js.showNat nCritical +++ " callers in critical paths"] else []) in
  mkFactor "Critical Path" (criticalPath (weights self))
           (match criticalPaths with
            | [] => "No critical path involvement"
            | _ => String.concat "; " criticalPaths
            end)
           v.

Definition calculateTestCoverageFactor (input : RiskInput) : RiskFactor :=
  let targetTests :=
    find (fun t => String.eqb (sourceFile t) (filePath input)) (affectedTests input) in
  match targetTests with
  | None =>
      mkFactor "Test Coverage" (testCoverage (weights self)) "No test mapping found" 8
  | Some targetTests =>
      if (List.length (testFiles targetTests) =? 0)%nat then
        mkFactor "Test Coverage" (testCoverage (weights self))
                 "No test files found for this file" 10
      else
        match coverage targetTests with
        | None =>
            mkFactor "Test Coverage" (testCoverage (weights self))
                     (Js.showNat (List.length (testFiles targetTests))
                      +++ " test file(s) found (no coverage data)")
                     3
        | Some cov =>
            let avgCoverage :=
              Double.round
                (Double.round (percentage (cov_lines cov) + percentage (cov_branches cov))
                 / 2) in
            mkFactor "Test Coverage" (testCoverage (weights self))
                     (Js.showZ (Math_round (percentage (cov_lines cov)))
                      +++ "% line coverage, "
                      +++ Js.showZ (Math_round (percentage (cov_branches cov)))
                      +++ "% branch coverage")
                     (Double.round (10 - Double.round (avgCoverage / 10)))
        end
  end.

Definition calculateTransitiveFactor (input : RiskInput) : RiskFactor :=
  let transitiveCount := List.length (transitiveCallers input) in
  let v :=
    if (transitiveCount =? 0)%nat then 0
    else if (transitiveCount <=? 5)%nat then 2
    else if (transitiveCount <=? 15)%nat then 4
    else if (transitiveCount <=? 30)%nat then 6
    else 8 in
  mkFactor "Transitive Impact" (transitiveDepth (weights self))
           (Js.showNat transitiveCount +++ " transitive dependencies")
           v.

(** [score >= threshold] *)
Definition geq (score threshold : Q) : bool := Qle_bool threshold score.

Definition determineRiskLevel (score : Q) : RiskLevel :=
  if geq score (th_high (riskThresholds (config self))) then Critical
  else if geq score (th_medium (riskThresholds (config self))) then High
  else if geq score (th_low (riskThresholds (config self))) then Medium
  else Low.

Definition collectFactors (input : RiskInput) : list RiskFactor :=
  [calculateCallerFactor input;
   calculateUntestedFactor input;
   calculateCriticalPathFactor input;
   calculateTestCoverageFactor input;
   calculateTransitiveFactor input].

Definition weightedSum (fs : list RiskFactor) : Q :=
  fold_left
    (fun sum factor => Double.round (sum + Double.round (value factor * weight factor)))
    fs 0.

(** [Math.min(10, Math.max(0, weightedSum))] *)
Definition normalize (x : Q) : Q := Qmin 10 (Qmax 0 x).

Definition calculateRisk (input : RiskInput) : RiskScore :=
  let fs := collectFactors input in
  let normalizedValue := normalize (weightedSum fs) in
  let lvl := determineRiskLevel normalizedValue in
  mkScore
    (Double.round (inject_Z (Math_round (Double.round (normalizedValue * 10))) / 10))
    lvl fs.

End WithHost.

End RiskScorer.

(** ** Impact calculator ([src/analyzers/impact-calculator.ts]) *)

(** A call either returns or throws an [Error] with a message. *)
Inductive result (A : Type) :=
| Ok (a : A)
| Throw (message : string).
Arguments Ok {A} a.
Arguments Throw {A} message.

Record ImpactSummary := mkSummary {
  totalCallers : nat;
  testedCallers : Z;
  sum_untestedCallers : nat;
  criticalPathCallers : nat;
  filesAffected : nat;
  recommendation : string
}.

Record ImpactAnalysis := mkAnalysis {
  target : Symbol;
  directCallers : list Caller;
  transitiveCallers : list Caller;
  affectedTests : list TestMapping;
  untestedCallers : list Caller;
  riskScore : RiskScore;
  summary : ImpactSummary
}.

Record ImpactOptions := mkOptions {
  includeTransitive : option bool;
  maxDepth : option Z
}.

Definition noOptions : ImpactOptions := mkOptions None None.

(** The message of the error thrown for a file without a node (NotFound). *)
Definition NotFound (filePath : string) : string :=
  "File not found in dependency graph: " +++ filePath.

(** The message of the [TypeError] of [Object.values(undefined)]. *)
Definition CannotConvert : string := "Cannot convert undefined or null to object".

(** The message of the error thrown for a missing symbol (SymbolNotFound). *)
Definition SymbolNotFound (symbolName filePath : string) : string :=
  "Symbol '" +++ symbolName +++ "' not found in " +++ filePath.

Record QuickRisk := mkQuick {
  riskLevel : string;
  quick_callerCount : nat;
  hasTests : bool
}.

Module ImpactCalculator.

Record t := mkCalculator {
  rootDir : string;
  config : RippleConfig;
  riskScorer : RiskScorer.t
}.

(** The constructor: the scorer gets the calculator's configuration and the
    default weights. *)
Definition create (root : string) (cfg : RippleConfig) : t :=
  mkCalculator root cfg (RiskScorer.mkScorer cfg RiskScorer.DEFAULT_WEIGHTS).

Section WithHost.
Variable H : Host.
Variable self : t.
(** The graph builder and the test mapper the calculator was given. *)
Variable graphBuilder : DependencyGraphBuilder.t.
Variable testMapper : TestMapper.t.

Definition isCriticalPath (file : string) : bool :=
  let relativePath := path_relative H (rootDir self) file in
  existsb (fun pattern => minimatch H relativePath pattern || minimatch H file pattern)
          (criticalPathPatterns (config self)).

(** The import source with its relative prefix and [.js]/[.jsx]
    extension stripped. *)
Definition normalizeImportSource (source : string) : string :=
  let s := Js.stripPrefix "../" (Js.stripPrefix "./" source) in
  if Js.endsWith ".js" s then Js.dropRight 3 s
  else if Js.endsWith ".jsx" s then Js.dropRight 4 s
  else s.

(** The three heuristics of [pathsToCallers]. *)
Definition matchesSourceFile (importSource source : string) : bool :=
  let sourceBasename :=
    Js.stripOneSuffix [".ts"; ".tsx"; ".js"; ".jsx"] (path_basename H source) in
  String.eqb importSource sourceBasename
  || Js.endsWith ("/" +++ sourceBasename) importSource
  || Js.includes importSource source.

(** [symbolName || path.basename(sourceFile)]: an absent or empty name is
    falsy. *)
Definition callerSymbolName (source : string) (symbolName : option string) : string :=
  match symbolName with
  | Some s => if String.eqb s "" then path_basename H source else s
  | None => path_basename H source
  end.

Definition pathsToCallers (paths : list string) (source : string)
           (symbolName : option string) : list Caller :=
  flat_map
    (fun depPath =>
       match DependencyGraphBuilder.getNode graphBuilder depPath with
       | None => []
       | Some node =>
           flat_map
             (fun imp =>
                if matchesSourceFile (normalizeImportSource (imp_source imp)) source then
                  [mkCaller (imp_location imp)
                            (mkSymbol (callerSymbolName source symbolName) KVariable
                                      (imp_location imp))
                            (getContextSnippet H depPath (loc_line (imp_location imp)))
                            (TestMapper.isTestFile testMapper depPath)
                            (isCriticalPath depPath)]
                else [])
             (imports node)
       end)
    paths.

(** [array.includes(p)] *)
Definition includes (p : string) (xs : list string) : bool :=
  existsb (String.eqb p) xs.

Definition isUntested (caller : Caller) : bool :=
  (List.length
     (testFiles (TestMapper.getTestsForFile H testMapper graphBuilder
                                            (loc_filePath (location caller))))
   =? 0)%nat.

Definition recommendationFor (l : RiskLevel) : string :=
  match l with
  | Critical =>
      "HIGH RISK: This change affects critical paths and has low test coverage. Consider adding tests before proceeding."
  | High =>
      "CAUTION: This change has significant impact. Review all affected files carefully."
  | Medium =>
      "MODERATE RISK: Some callers lack test coverage. Consider reviewing the untested paths."
  | Low =>
      "LOW RISK: This change has limited impact and good test coverage. Safe to proceed."
  end.

Definition generateSummary (direct transitive untested : list Caller)
           (score : RiskScore) : ImpactSummary :=
  let total := (List.length direct + List.length transitive)%nat in
  mkSummary
    total
    (Z.of_nat total - Z.of_nat (List.length untested))%Z
    (List.length untested)
    (List.length (filter caller_isCriticalPath (direct ++ transitive)))
    (List.length
       (JsSet.ofList (map (fun c => loc_filePath (location c)) direct
                      ++ map (fun c => loc_filePath (location c)) transitive)))
    (recommendationFor (level score)).

(** The tail shared by the two analyses once the callers and the
    affected tests are known: untested callers, risk score, summary. *)
Definition finish (tgt : Symbol) (direct transitive : list Caller)
           (tests : list TestMapping) (file : string) : ImpactAnalysis :=
  let allCallers := direct ++ transitive in
  let untested := filter isUntested allCallers in
  let score :=
    RiskScorer.calculateRisk H (riskScorer self)
      (RiskScorer.mkInput direct transitive untested tests file) in
  mkAnalysis tgt direct transitive tests untested score
             (generateSummary direct transitive untested score).

Definition optIncludeTransitive (options : ImpactOptions) : bool :=
  match includeTransitive options with Some b => b | None => true end.

Definition optMaxDepth (options : ImpactOptions) : Z :=
  match maxDepth options with
  | Some d => d
  | None => DependencyGraphBuilder.defaultMaxDepth
  end.

Definition analyzeFileImpact (file : string) (options : ImpactOptions)
  : result ImpactAnalysis :=
  match DependencyGraphBuilder.getNode graphBuilder file with
  | None => Throw (NotFound file)
  | Some node =>
      let fileSymbol := mkSymbol (path_basename H file) KVariable (mkLoc file 1 1) in
      let directDependentPaths :=
        DependencyGraphBuilder.getDirectDependents graphBuilder file in
      let direct := pathsToCallers directDependentPaths file None in
      let transitive :=
        if optIncludeTransitive options then
          let transitivePaths :=
            DependencyGraphBuilder.getTransitiveDependents
              graphBuilder file (optMaxDepth options) in
          let transitiveOnly :=
            filter (fun p => negb (includes p directDependentPaths)) transitivePaths in
          pathsToCallers transitiveOnly file None
        else [] in
      let testMapping := TestMapper.getTestsForFile H testMapper graphBuilder file in
      let tests :=
        [testMapping]
        ++ filter (fun depTests => (0 <? List.length (testFiles depTests))%nat)
                  (map (TestMapper.getTestsForFile H testMapper graphBuilder)
                       directDependentPaths) in
      Ok (finish fileSymbol direct transitive tests file)
  end.

(** [depNode.imports.some(imp => imp.specifiers.some(spec => ...))] *)
Definition importsSymbol (symbolName : string) (depNode : GraphNode) : bool :=
  existsb
    (fun imp =>
       existsb (fun spec => String.eqb (imported spec) symbolName
                            || String.eqb (imported spec) "*")
               (imp_specifiers imp))
    (imports depNode).

Definition analyzeSymbolImpact (symbolName file : string) (options : ImpactOptions)
  : result ImpactAnalysis :=
  match DependencyGraphBuilder.getNode graphBuilder file with
  | None => Throw (NotFound file)
  | Some node =>
      match find (fun s => String.eqb (sym_name s) symbolName) (symbols node) with
      | None => Throw (SymbolNotFound symbolName file)
      | Some sym =>
          let isExported :=
            existsb (fun e => String.eqb (exp_name e) symbolName) (exports node) in
          let callers :=
            if isExported then
              let directDependentPaths :=
                DependencyGraphBuilder.getDirectDependents graphBuilder file in
              let importingFiles :=
                filter
                  (fun depPath =>
                     match DependencyGraphBuilder.getNode graphBuilder depPath with
                     | None => false
                     | Some depNode => importsSymbol symbolName depNode
                     end)
                  directDependentPaths in
              let direct := pathsToCallers importingFiles file (Some symbolName) in
              let transitive :=
                if optIncludeTransitive options then
                  let transitivePaths :=
                    DependencyGraphBuilder.getTransitiveDependents
                      graphBuilder file (optMaxDepth options) in
                  let transitiveOnly :=
                    filter (fun p => negb (includes p importingFiles)) transitivePaths in
                  pathsToCallers transitiveOnly file (Some symbolName)
                else [] in
              (direct, transitive)
            else ([], []) in
          let testMapping :=
            TestMapper.getTestsForFile H testMapper graphBuilder file in
          Ok (finish sym (fst callers) (snd callers) [testMapping] file)
      end
  end.

Definition analyzeRenameImpact (oldName newName file : string)
  : result (ImpactAnalysis * list FileLocation) :=
  match analyzeSymbolImpact oldName file noOptions with
  | Throw e => Throw e
  | Ok impact =>
      Ok (impact,
          [sym_location (target impact)]
          ++ map location (directCallers impact ++ transitiveCallers impact))
  end.

Definition quickRiskCheck (file : string) : QuickRisk :=
  let directDependents := DependencyGraphBuilder.getDirectDependents graphBuilder file in
  let testMapping := TestMapper.getTestsForFile H testMapper graphBuilder file in
  let count := List.length directDependents in
  let tested := (0 <? List.length (testFiles testMapping))%nat in
  let lvl :=
    if (20 <? count)%nat && negb tested then "CRITICAL"
    else if (10 <? count)%nat || negb tested then "HIGH"
    else if (5 <? count)%nat then "MEDIUM"
    else "LOW" in
  mkQuick lvl count tested.

End WithHost.

End ImpactCalculator.

(** ** The facade ([src/index.ts]) *)

Module Ripple.

Record t := mkRipple {
  rootDir : string;
  config : RippleConfig;
  graphBuilder : DependencyGraphBuilder.t;
  testMapper : TestMapper.t;
  impactCalculator : ImpactCalculator.t;
  initialized : bool
}.

Definition emptyGraph : DependencyGraph := mkGraph JsMap.empty JsMap.empty JsMap.empty.

(** The constructor, given the configuration [loadConfig] produced. *)
Definition create (root : string) (cfg : RippleConfig) : t :=
  mkRipple root cfg
           (DependencyGraphBuilder.mkBuilder root cfg emptyGraph JsMap.empty)
           (TestMapper.mkMapper root cfg JsSet.empty None)
           (ImpactCalculator.create root cfg)
           false.

Definition notInitialized : string := "Ripple not initialized. Call initialize() first.".

Section WithHost.
Variable H : Host.

Definition ready (r : t) (b : DependencyGraphBuilder.t) : t :=
  mkRipple (rootDir r) (config r) b
           (TestMapper.initialize H (testMapper r))
           (impactCalculator r) true.

Definition initialize (useCache : bool) (r : t) : t :=
  let fromCache :=
    if useCache && cacheEnabled (config r)
    then DependencyGraphBuilder.loadCache H (graphBuilder r)
    else (false, graphBuilder r) in
  if fst fromCache then ready r (snd fromCache)
  else ready r (DependencyGraphBuilder.build H (snd fromCache)).

(** [this.ensureInitialized(); const absolutePath = path.resolve(...);
    return body(absolutePath)] *)
Definition withPath {A} (r : t) (file : string) (body : string -> result A)
  : result A :=
  if initialized r then body (path_resolve H [rootDir r; file])
  else Throw notInitialized.

Definition analyzeFile (r : t) (file : string) (options : ImpactOptions)
  : result ImpactAnalysis :=
  withPath r file
    (fun p => ImpactCalculator.analyzeFileImpact
                H (impactCalculator r) (graphBuilder r) (testMapper r) p options).

Definition analyzeSymbol (r : t) (symbolName file : string) (options : ImpactOptions)
  : result ImpactAnalysis :=
  withPath r file
    (fun p => ImpactCalculator.analyzeSymbolImpact
                H (impactCalculator r) (graphBuilder r) (testMapper r)
                symbolName p options).

Definition analyzeRename (r : t) (oldName newName file : string)
  : result (ImpactAnalysis * list FileLocation) :=
  withPath r file
    (fun p => ImpactCalculator.analyzeRenameImpact
                H (impactCalculator r) (graphBuilder r) (testMapper r)
                oldName newName p).

(** [quickRiskCheck]: the call of [getTestsForFile] looks the coverage of
    the file up, which can throw. *)
Definition quickRiskCheck (r : t) (file : string) : result QuickRisk :=
  withPath r file
    (fun p =>
       if TestMapper.getCoverageForFile_throws H (testMapper r) p
       then Throw CannotConvert
       else Ok (ImpactCalculator.quickRiskCheck
                  H (graphBuilder r) (testMapper r) p)).

Definition updateGraph (changedFiles : list string) (r : t) : result t :=
  if initialized r then
    Ok (mkRipple (rootDir r) (config r)
                 (DependencyGraphBuilder.updateIncremental
                    H (map (fun f => path_resolve H [rootDir r; f]) changedFiles)
                    (graphBuilder r))
                 (testMapper r) (impactCalculator r) true)
  else Throw notInitialized.

Definition getDependents (r : t) (file : string) : result (list string) :=
  withPath r file
    (fun p => Ok (DependencyGraphBuilder.getDirectDependents (graphBuilder r) p)).

Definition getDependencies (r : t) (file : string) : result (list string) :=
  withPath r file
    (fun p => Ok (DependencyGraphBuilder.getDirectDependencies (graphBuilder r) p)).

Definition isTestFile (r : t) (file : string) : result bool :=
  withPath r file (fun p => Ok (TestMapper.isTestFile (testMapper r) p)).

End WithHost.

End Ripple.

(** ** Vocabulary of the properties *)

(** [B] is in the forward edges of [A] exactly when [A] is in the reverse
    edges of [B]. *)
Definition adjacencySymmetric (g : DependencyGraph) : Prop :=
  forall A B : string,
    In B (DependencyGraphBuilder.lookupList A (edges g))
    <-> In A (DependencyGraphBuilder.lookupList B (reverseEdges g)).

(** The files exactly [n] adjacency hops away from [start] (with repeats, one
    entry per path). *)
Fixpoint hopsFrom (adj : JsMap.t JsSet.t) (n : nat) (start : string) : list string :=
  match n with
  | O => [start]
  | S k => flat_map (fun x => DependencyGraphBuilder.lookupList x adj) (hopsFrom adj k start)
  end.

(** [file] can be reached from [start] in at least one and at most [bound]
    hops. *)
Definition withinHops (adj : JsMap.t JsSet.t) (bound : Z) (start file : string) : Prop :=
  exists n : nat, (1 <= Z.of_nat n <= bound)%Z /\ In file (hopsFrom adj n start).

(** The body of the [for] loop of the closure [traverse], run at depth
    [depth] with the walk [acc] on the dependent [dep]. *)
Definition loopBody (adj : JsMap.t JsSet.t) (maxDepth : Z) (fuel : nat) (depth : Z)
           (acc : DependencyGraphBuilder.Walk) (dep : string) : DependencyGraphBuilder.Walk :=
  if negb (JsSet.has dep (DependencyGraphBuilder.visited acc)) then
    DependencyGraphBuilder.traverse
      adj maxDepth fuel dep (depth + 1)%Z
      (DependencyGraphBuilder.mkWalk (DependencyGraphBuilder.visited acc)
                                     (DependencyGraphBuilder.result acc ++ [dep]))
  else acc.

(** A later state of a walk: nothing is ever taken out of [visited] or
    [result]. *)
Definition extends (w w' : DependencyGraphBuilder.Walk) : Prop :=
  incl (DependencyGraphBuilder.visited w) (DependencyGraphBuilder.visited w')
  /\ incl (DependencyGraphBuilder.result w) (DependencyGraphBuilder.result w').

(** Every file that occurs in the adjacency map, as a key or as a member, is
    in [universe]. *)
Definition coversGraph (adj : JsMap.t JsSet.t) (universe : list string) : Prop :=
  forall (k : string) (members : JsSet.t),
    JsMap.get k adj = Some members -> In k universe /\ incl members universe.

(** The start file is marked and was never pushed. *)
Definition startExcluded (start : string) (w : DependencyGraphBuilder.Walk) : Prop :=
  In start (DependencyGraphBuilder.visited w)
  /\ ~ In start (DependencyGraphBuilder.result w).

(** Every marked file is the start file or was pushed. *)
Definition markedWerePushed (start : string) (w : DependencyGraphBuilder.Walk) : Prop :=
  forall z : string,
    In z (DependencyGraphBuilder.visited w) ->
    z = start \/ In z (DependencyGraphBuilder.result w).

(** Every pushed file is within [bound] hops of the start file. *)
Definition hopsBounded (adj : JsMap.t JsSet.t) (bound : Z) (start : string)
           (w : DependencyGraphBuilder.Walk) : Prop :=
  forall z : string, In z (DependencyGraphBuilder.result w) -> withinHops adj bound start z.

(** A walk between two calls when no call was cut off by the depth bound:
    nothing was pushed or marked twice, and every pushed file was marked. *)
Definition settled (universe : list string) (w : DependencyGraphBuilder.Walk) : Prop :=
  NoDup (DependencyGraphBuilder.result w)
  /\ NoDup (DependencyGraphBuilder.visited w)
  /\ incl (DependencyGraphBuilder.visited w) universe
  /\ incl (DependencyGraphBuilder.result w) (DependencyGraphBuilder.visited w).

(** Every key and every member of an adjacency map, in order, with repeats. *)
Definition allFiles (adj : JsMap.t JsSet.t) : list string :=
  flat_map (fun entry => fst entry :: snd entry) adj.

(** The rule table of the quick risk check, as the specification words it. *)
Definition quickRuleTable (count : nat) (noTests : bool) : RiskLevel :=
  if (20 <? count)%nat && noTests then Critical
  else if (10 <? count)%nat || noTests then High
  else if (5 <? count)%nat then Medium
  else Low.


(** The four levels in their order Low < Medium < High < Critical. *)
Definition levelRank (l : RiskLevel) : nat :=
  match l with Low => 0 | Medium => 1 | High => 2 | Critical => 3 end.

(** The risk input an analysis hands to the scorer, read back from its
    result. *)
Definition riskInputOf (r : ImpactAnalysis) (file : string) : RiskScorer.RiskInput :=
  RiskScorer.mkInput (directCallers r) (transitiveCallers r) (untestedCallers r)
                     (affectedTests r) file.

(** The analysis [r] of [file] was scored on an input whose affected tests
    start with the file's own test mapping, so the scorer's look-up of the
    target's mapping succeeds and its Test Coverage factor, the fourth, is
    not the one described as "No test mapping found". *)
Definition targetMappingFirst (H : Host) (self : ImpactCalculator.t)
           (b : DependencyGraphBuilder.t) (m : TestMapper.t) (file : string)
           (r : ImpactAnalysis) : Prop :=
  let own := TestMapper.getTestsForFile H m b file in
  let input := riskInputOf r file in
  let scorer := ImpactCalculator.riskScorer self in
  hd_error (affectedTests r) = Some own
  /\ sourceFile own = file
  /\ riskScore r = RiskScorer.calculateRisk H scorer input
  /\ find (fun t => String.eqb (sourceFile t) (RiskScorer.filePath input))
          (RiskScorer.affectedTests input) = Some own
  /\ nth_error (factors (riskScore r)) 3
     = Some (RiskScorer.calculateTestCoverageFactor scorer input)
  /\ description (RiskScorer.calculateTestCoverageFactor scorer input)
     <> "No test mapping found".

(** ** A concrete host: a project of parsed files under [/p/src]

    Paths of the examples are absolute, without [..] and without trailing
    separators; on such paths the functions below agree with Node's [path]
    module. Nothing is on a critical path, no coverage report and no cache
    file exist. *)

Module Demo.

Fixpoint lastIndexOf (c : ascii) (s : string) : option nat :=
  match s with
  | EmptyString => None
  | String a rest =>
      match lastIndexOf c rest with
      | Some i => Some (S i)
      | None => if Ascii.eqb a c then Some O else None
      end
  end.

Definition basename (p : string) : string :=
  match lastIndexOf "/" p with
  | Some i => Js.dropLeft (S i) p
  | None => p
  end.

Definition dirname (p : string) : string :=
  match lastIndexOf "/" p with
  | Some O => "/"
  | Some i => substring 0 i p
  | None => "."
  end.

(** [path.parse(p).name]: the base name without its last extension. *)
Definition stem (p : string) : string :=
  let b := basename p in
  match lastIndexOf "." b with
  | Some (S i) => substring 0 (S i) b
  | _ => b
  end.

Definition join (segments : list string) : string := String.concat "/" segments.

Definition resolve (segments : list string) : string :=
  fold_left
    (fun acc seg =>
       if Js.startsWith "/" seg then seg
       else acc +++ "/" +++ Js.stripPrefix "./" seg)
    segments "".

Definition relative (from to : string) : string :=
  Js.stripPrefix (from +++ "/") to.

Record Project := mkProject {
  parsed : list GraphNode;
  testPaths : list string
}.

Definition sourcePaths (p : Project) : list string := map node_filePath (parsed p).

Definition host (p : Project) : Host :=
  let onDisk f := existsb (String.eqb f) (sourcePaths p ++ testPaths p) in
  mkHost
    onDisk onDisk resolve join dirname basename stem dirname relative
    (fun pattern _ _ =>
       if String.eqb pattern "src/**/*.ts" then sourcePaths p
       else if String.eqb pattern "**/*.test.ts" then testPaths p
       else [])
    (fun _ _ => false)
    (fun f => find (fun n => String.eqb (node_filePath n) f) (parsed p))
    (fun _ _ => "")
    (fun _ => None)
    (fun _ => None)
    (fun _ => None).

Definition config : RippleConfig :=
  mkConfig ["src/**/*.ts"] [] ["**/*.test.ts"] ["**/auth/**"; "**/payment/**"]
           (mkThresholds 3 5 7) false ".ripple".

(** [import { names } from source], on line [line] of [file]. *)
Definition importOf (file : string) (line : nat) (source : string) (names : list string)
  : ImportInfo :=
  mkImport source (map (fun n => mkSpec n n false false) names) (mkLoc file line 1).

(** A file [/p/src/<name>.ts] declaring and exporting nothing, with one
    import statement per entry of [sources]. *)
Definition plainFile (name : string) (sources : list string) : GraphNode :=
  let file := "/p/src/" +++ name +++ ".ts" in
  mkNode file [] (map (fun src => importOf file 1 src ["x"]) sources) [] 0.

(** A facade over the project, initialised without a cache. *)
Definition ripple (p : Project) : Ripple.t :=
  Ripple.initialize (host p) false (Ripple.create "/p" config).

(** [a.ts] imports itself. *)
Definition selfImport : Project := mkProject [plainFile "a" ["./a"]] [].

(** [a] and [b] import [f]; [c] imports [a] and [b]. *)
Definition diamond : Project :=
  mkProject
    [plainFile "f" []; plainFile "a" ["./f"]; plainFile "b" ["./f"];
     plainFile "c" ["./a"; "./b"]]
    [].

(** [n1] imports [n0], [n2] imports [n1], ..., up to [n<len>]. *)
Definition chain (len : nat) : Project :=
  mkProject
    (plainFile "n0" []
     :: map (fun i => plainFile ("n" +++ Js.showNat (S i)) ["./n" +++ Js.showNat i])
            (seq 0 len))
    [].

(** The chain [n0] ... [n9]; [a] and [b] import [n9]; [c] imports [a] and
    [b]. From [n0], [a] and [b] are 10 hops away and [c] is 11 hops away. *)
Definition deepDiamond : Project :=
  mkProject
    (parsed (chain 9)
     ++ [plainFile "a" ["./n9"]; plainFile "b" ["./n9"]; plainFile "c" ["./a"; "./b"]])
    [].

(** The graph builder of the initialised facade. *)
Definition builder (p : Project) : DependencyGraphBuilder.t :=
  Ripple.graphBuilder (ripple p).

(** [user.ts] defines [getUser] (exported) and [helper] (private);
    [users.ts] imports [getUser] from it, [admin.ts] imports [other]. *)
Definition service : Project :=
  mkProject
    [mkNode "/p/src/user.ts"
            [mkSymbol "getUser" KFunction (mkLoc "/p/src/user.ts" 2 1);
             mkSymbol "helper" KFunction (mkLoc "/p/src/user.ts" 5 1)]
            []
            [mkExport "getUser" KFunction (mkLoc "/p/src/user.ts" 2 1) false]
            0;
     mkNode "/p/src/users.ts" []
            [importOf "/p/src/users.ts" 1 "./user" ["getUser"]] [] 0;
     mkNode "/p/src/admin.ts" []
            [importOf "/p/src/admin.ts" 1 "./user" ["other"]] [] 0]
    [].

(** [hub.ts] and [n] files that import it. *)
Definition fan (n : nat) : Project :=
  mkProject
    (plainFile "hub" []
     :: map (fun i => plainFile ("m" +++ Js.showNat i) ["./hub"]) (seq 0 n))
    [].

(** [foo.ts] with a test file next to it that does not import it. *)
Definition tested : Project :=
  mkProject [plainFile "foo" []; plainFile "foo.test" []] ["/p/src/foo.test.ts"].

(** [count] callers at successive lines of [file]. *)
Definition callersAt (file : string) (critical : bool) (count : nat) : list Caller :=
  map (fun i => mkCaller (mkLoc file (S i) 1)
                         (mkSymbol "f.ts" KVariable (mkLoc file (S i) 1))
                         "" false critical)
      (seq 0 count).

Definition scorer : RiskScorer.t := RiskScorer.mkScorer config RiskScorer.DEFAULT_WEIGHTS.

(** Five direct callers on a critical path, six transitive ones, ten of the
    eleven untested, a target with a test mapping but no test file: the
    weighted sum is about 6.977, just below 7. *)
Definition nearHigh : RiskScorer.RiskInput :=
  let direct := callersAt "/p/src/auth/a.ts" true 5 in
  let transitive := callersAt "/p/src/b.ts" false 6 in
  RiskScorer.mkInput direct transitive (direct ++ firstn 5 transitive)
                     [mkMapping "/p/src/f.ts" [] None] "/p/src/f.ts".

(** Ten direct callers, five of them on a critical path, all untested, no
    test file: the weighted sum is exactly 7. *)
Definition atHigh : RiskScorer.RiskInput :=
  let direct := callersAt "/p/src/auth/a.ts" true 5 ++ callersAt "/p/src/b.ts" false 5 in
  RiskScorer.mkInput direct [] direct [mkMapping "/p/src/f.ts" [] None] "/p/src/f.ts".

End Demo.

(** ** Further functions of the sources *)

From Stdlib Require Import Sorted.

(** *** Graph engine: cache snapshot, statistics, symbol usages *)


Module GraphStore.
Import DependencyGraphBuilder.

(** The object [cacheData] that [saveCache] serialises, without its
    [timestamp], which [loadCache] never reads: [Array.from] of the three
    maps' entries, each set as an array. *)
Definition cacheDataOf (g : DependencyGraph) : CacheSnapshot :=
  mkSnapshot 1 (nodes g) (edges g) (reverseEdges g).

(** The path of the cache file as [loadCache] computes it; [saveCache]
    writes to [path.join(path.resolve(rootDir, cachePath), 'graph.json')],
    the same file. *)
Definition cacheFileOf (H : Host) (b : t) : string :=
  path_resolve H [rootDir b; cachePath (config b); "graph.json"].




(** [spec.imported === symbolName || spec.local === symbolName] *)
Definition namesSymbol (symbolName : string) (spec : ImportSpecifier) : bool :=
  String.eqb (imported spec) symbolName || String.eqb (local spec) symbolName.

(** [resolvedPath === definedInFile]; [null] equals no string. *)
Definition resolvesTo (H : Host) (root : string) (imp : ImportInfo)
           (fromFile definedInFile : string) : bool :=
  match resolveImport H root (imp_source imp) fromFile with
  | Some resolvedPath => String.eqb resolvedPath definedInFile
  | None => false
  end.

Definition findSymbolUsages (H : Host) (b : t) (symbolName definedInFile : string)
  : list FileLocation :=
  let dependents := getTransitiveDependents b definedInFile defaultMaxDepth in
  match getNode b definedInFile with
  | None => []
  | Some _ =>
      flat_map
        (fun depFile =>
           match getNode b depFile with
           | None => []
           | Some depNode =>
               flat_map
                 (fun imp =>
                    if resolvesTo H (rootDir b) imp depFile definedInFile then
                      map (fun _ => imp_location imp)
                          (filter (namesSymbol symbolName) (imp_specifiers imp))
                    else [])
                 (imports depNode)
           end)
        (definedInFile :: dependents)
  end.

(** [getAllNodes] *)
Definition getAllNodes (b : t) : list GraphNode := map snd (nodes (graph b)).

End GraphStore.

(** *** Test mapper: line coverage *)

Module LineCoverage.
Import TestMapper.

Section WithHost.
Variable H : Host.

(** [isLineCovered], when it returns: a line without an entry reads
    [undefined], and [undefined > 0] is false. (The call throws where
    [TestMapper.getCoverageForFile_throws] holds: an inherited member has
    no [lines] to index.) *)
Definition isLineCovered (m : t) (filePath : string) (lineNumber : Z) : bool :=
  match coverageData m with
  | None => false
  | Some data =>
      let possiblePaths :=
        [filePath; path_relative H (rootDir m) filePath; path_resolve H [filePath]] in
      match find (fun p => JsMap.has p data) possiblePaths with
      | Some p =>
          match JsMap.get p data with
          | Some fileData =>
              match JsMap.get (Js.showZ lineNumber) (raw_lines fileData) with
              | Some hits => (hits >? 0)%Z
              | None => false
              end
          | None => false
          end
      | None => false
      end
  end.

(** The loop [for (let line = startLine; line <= endLine; line++)] of
    [getUncoveredLinesInRange], with [fuel] rounds left. *)
Fixpoint uncoveredFrom (fuel : nat) (m : t) (filePath : string) (line endLine : Z)
         (uncovered : list Z) : list Z :=
  match fuel with
  | O => uncovered
  | S fuel' =>
      if (line <=? endLine)%Z then
        uncoveredFrom fuel' m filePath (line + 1)%Z endLine
                      (if isLineCovered m filePath line then uncovered
                       else uncovered ++ [line])
      else uncovered
  end.

Definition getUncoveredLinesInRange (m : t) (filePath : string) (startLine endLine : Z)
  : list Z :=
  uncoveredFrom (Z.to_nat (endLine - startLine + 1)) m filePath startLine endLine [].

End WithHost.

End LineCoverage.

(** *** Risk scorer: mitigations *)

Module RiskAdvice.

(** The [switch (factor.name)] of [suggestMitigations]: the two suggestions
    pushed for a factor of that name, none for any other name. *)
Definition mitigationsFor (factorName : string) : list string :=
  if String.eqb factorName "Caller Count" then
    ["Consider breaking this change into smaller, incremental updates";
     "Review each caller to ensure the change is compatible"]
  else if String.eqb factorName "Untested Callers" then
    ["Add tests for uncovered callers before making this change";
     "Consider adding integration tests to catch cross-file regressions"]
  else if String.eqb factorName "Critical Path" then
    ["Extra review recommended for changes in critical paths";
     "Consider feature flag or staged rollout for this change"]
  else if String.eqb factorName "Test Coverage" then
    ["Add unit tests for the changed file before proceeding";
     "Run existing tests and verify they exercise the changed code"]
  else if String.eqb factorName "Transitive Impact" then
    ["Map out the full dependency chain before making changes";
     "Consider the ripple effect on indirect consumers"]
  else [].

(** What the loop of [suggestMitigations] pushes for one factor. *)
Definition pushedFor (factor : RiskFactor) : list string :=
  if RiskScorer.geq (value factor) 6 then mitigationsFor (name factor) else [].

Definition suggestMitigations (riskScore : RiskScore) : list string :=
  JsSet.ofList (flat_map pushedFor (factors riskScore)).

End RiskAdvice.

(** *** Claude Code hooks ([src/hooks/claude-code.ts]) *)

Record HookConfig := mkHookConfig {
  enabled : bool;
  autoAnalyze : bool;
  blockOnHighRisk : bool;
  showAnalysisUI : bool;
  riskThreshold : RiskLevel
}.

Definition DEFAULT_HOOK_CONFIG : HookConfig := mkHookConfig true true false true High.

Record PreEditHookResult := mkPreEdit {
  proceed : bool;
  pre_analysis : option ImpactAnalysis;
  warnings : list string;
  requiresConfirmation : bool
}.


Record EditDecision := mkDecision {
  decision_proceed : bool;
  reason : string
}.

(** [a === b] on risk levels. *)
Definition RiskLevel_eqb (a b : RiskLevel) : bool :=
  match a, b with
  | Low, Low | Medium, Medium | High, High | Critical, Critical => true
  | _, _ => false
  end.


Module ClaudeCodeHooks.

Record t := mkHooks {
  ripple : Ripple.t;
  config : HookConfig;
  analysisCache : JsMap.t ImpactAnalysis
}.

(** The constructor, given the facade [new Ripple(rootDir)] made. *)
Definition create (r : Ripple.t) (cfg : HookConfig) : t := mkHooks r cfg JsMap.empty.

(** [levels.indexOf(level)], counting from [i]; [-1] when absent. *)
Fixpoint indexOf (l : RiskLevel) (levels : list RiskLevel) (i : Z) : Z :=
  match levels with
  | [] => (-1)%Z
  | x :: rest => if RiskLevel_eqb x l then i else indexOf l rest (i + 1)%Z
  end.

Definition isRiskAcceptable (self : t) (l : RiskLevel) : bool :=
  let levels := [Low; Medium; High; Critical] in
  let configIndex := indexOf (riskThreshold (config self)) levels 0 in
  let currentIndex := indexOf l levels 0 in
  (currentIndex <=? configIndex)%Z.

Definition needsConfirmation (analysis : ImpactAnalysis) : bool :=
  RiskLevel_eqb (level (riskScore analysis)) Critical
  || RiskLevel_eqb (level (riskScore analysis)) High
  || (0 <? criticalPathCallers (summary analysis))%nat.

Section WithHost.
Variable H : Host.

(** [initialize]: the facade is initialised with its default options,
    cache included. *)
Definition initialize (self : t) : t :=
  if negb (enabled (config self)) then self
  else mkHooks (Ripple.initialize H true (ripple self)) (config self) (analysisCache self).

(** [preEditHook]: the result and the hooks, whose analysis cache the call
    may have extended. *)
Definition preEditHook (self : t) (filePath : string) : PreEditHookResult * t :=
  if negb (enabled (config self)) || negb (autoAnalyze (config self)) then
    (mkPreEdit true None [] false, self)
  else
    match Ripple.analyzeFile H (ripple self) filePath noOptions with
    | Ok analysis =>
        let self' :=
          mkHooks (ripple self) (config self)
                  (JsMap.set filePath analysis (analysisCache self)) in
        let high :=
          RiskLevel_eqb (level (riskScore analysis)) Critical
          || RiskLevel_eqb (level (riskScore analysis)) High in
        let untested := (0 <? List.length (untestedCallers analysis))%nat in
        let critical := (0 <? criticalPathCallers (summary analysis))%nat in
        let warnings :=
          (if high then
             ["High risk change: " +++ Js.showNat (totalCallers (summary analysis))
              +++ " callers affected"]
           else [])
          ++ (if untested then
                [Js.showNat (List.length (untestedCallers analysis))
                 +++ " callers have no test coverage"]
              else [])
          ++ (if critical then
                [Js.showNat (criticalPathCallers (summary analysis))
                 +++ " callers are in critical paths"]
              else []) in
        let requiresConfirmation := high || critical in
        let proceed :=
          negb (blockOnHighRisk (config self))
          || isRiskAcceptable self (level (riskScore analysis)) in
        (mkPreEdit proceed (Some analysis) warnings requiresConfirmation, self')
    | Throw message =>
        (mkPreEdit true None ["Analysis failed: " +++ message] false, self)
    end.


End WithHost.

Definition shouldProceedWithEdit (analysis : ImpactAnalysis) : EditDecision :=
  if RiskLevel_eqb (level (riskScore analysis)) Critical then
    mkDecision false ("Critical risk: " +++ recommendation (summary analysis))
  else if RiskLevel_eqb (level (riskScore analysis)) High
          && (5 <? sum_untestedCallers (summary analysis))%nat then
    mkDecision false
               ("High risk with " +++ Js.showNat (sum_untestedCallers (summary analysis))
                +++ " untested callers. Consider adding tests first.")
  else mkDecision true (recommendation (summary analysis)).

End ClaudeCodeHooks.

(** *** Parser: the context snippet ([src/core/parser.ts]) *)

Module Parser.

Definition newline : string := String "010"%char EmptyString.

(** [content.split('\n')] *)
Fixpoint splitLines (content : string) : list string :=
  match content with
  | EmptyString => [EmptyString]
  | String c rest =>
      if Ascii.eqb c "010"%char then EmptyString :: splitLines rest
      else
        match splitLines rest with
        | [] => [String c EmptyString]
        | first :: others => String c first :: others
        end
  end.

(** [xs.slice(start, end)]: a negative index counts from the end, and both
    are clamped to the array. *)
Definition slice {A : Type} (start stop : Z) (xs : list A) : list A :=
  let len := Z.of_nat (List.length xs) in
  let from := if (start <? 0)%Z then Z.max 0 (len + start) else Z.min start len in
  let to := if (stop <? 0)%Z then Z.max 0 (len + stop) else Z.min stop len in
  firstn (Z.to_nat (to - from)) (skipn (Z.to_nat from) xs).

(** [getContextSnippet], given what [fs.readFileSync] returns for each
    path, [None] where it throws. *)
Definition getContextSnippet (readFile : string -> option string)
           (filePath : string) (line contextLines : Z) : string :=
  match readFile filePath with
  | None => ""
  | Some content =>
      let lines := splitLines content in
      let startLine := Z.max 0 (line - contextLines - 1) in
      let endLine := Z.min (Z.of_nat (List.length lines)) (line + contextLines) in
      String.concat newline (slice startLine endLine lines)
  end.

End Parser.

(** ** Vocabulary of the further properties *)

(** No key occurs twice: the list is a JS [Map]. *)
Definition uniqueKeys {V : Type} (m : JsMap.t V) : Prop := NoDup (map fst m).

(** The adjacency map is one a JS program can hold: unique keys, and every
    value a duplicate-free set. *)
Definition properAdjacency (m : JsMap.t JsSet.t) : Prop :=
  uniqueKeys m /\ forall (k : string) (s : JsSet.t), In (k, s) m -> NoDup s.

(** The import [imp] of [file] yields the edge [file -> B] in a graph whose
    node table is [N]. *)
Definition importYields (H : Host) (root : string) (N : JsMap.t GraphNode)
           (file : string) (imp : ImportInfo) (B : string) : Prop :=
  DependencyGraphBuilder.resolveImport H root (imp_source imp) file = Some B
  /\ B <> ""
  /\ JsMap.has B N = true.

(** Some import statement of the node stored for [A] resolves to [B], and
    [B] is a non-empty path with a node of its own. *)
Definition importsResolveTo (H : Host) (root : string) (g : DependencyGraph)
           (A B : string) : Prop :=
  exists (node : GraphNode) (imp : ImportInfo),
    In (A, node) (nodes g)
    /\ In imp (imports node)
    /\ DependencyGraphBuilder.resolveImport H root (imp_source imp) A = Some B
    /\ B <> ""
    /\ JsMap.has B (nodes g) = true.

(** [file] can be reached from [start] by following adjacency entries, in
    any number of hops. *)
Definition reachable (adj : JsMap.t JsSet.t) (start file : string) : Prop :=
  exists n : nat, In file (hopsFrom adj n start).

(** The node table and the file table of [b] hold what [file] parses to. *)
Definition storedNode (H : Host) (b : DependencyGraphBuilder.t) (file : string) : Prop :=
  forall node : GraphNode,
    parseNode H file = Some node ->
    JsMap.get file (nodes (DependencyGraphBuilder.graph b)) = Some node
    /\ JsMap.get file (DependencyGraphBuilder.fileToNodeMap b) = Some node.

(** Every file marked during the walk [w] that was not marked in [old] has
    all its adjacency entries marked in [w]. *)
Definition closedOver (adj : JsMap.t JsSet.t) (old : list string)
           (w : DependencyGraphBuilder.Walk) : Prop :=
  forall v : string,
    In v (DependencyGraphBuilder.visited w) -> ~ In v old ->
    forall n : string,
      In n (DependencyGraphBuilder.lookupList v adj) ->
      In n (DependencyGraphBuilder.visited w).


(** A graph a JS program can hold: maps with unique keys, sets without
    duplicates. *)
Definition properGraph (g : DependencyGraph) : Prop :=
  uniqueKeys (nodes g) /\ properAdjacency (edges g) /\ properAdjacency (reverseEdges g).

(** No file of the node table is newer on disk than its node, the test
    [loadCache] makes. *)
Definition nothingNewer (H : Host) (g : DependencyGraph) : Prop :=
  forall (file : string) (node : GraphNode),
    In (file, node) (nodes g) ->
    exists mtime : Q, mtimeMs H file = Some mtime /\ (mtime <= lastModified node)%Q.

(** The import statement [imp] of the node of [A] is a usage of the symbol
    defined in [definedInFile]: it resolves to that file and one of its
    specifiers names the symbol, as imported or as local name. *)
Definition usageAt (H : Host) (b : DependencyGraphBuilder.t)
           (symbolName definedInFile A : string) (imp : ImportInfo) : Prop :=
  exists nodeA : GraphNode,
    DependencyGraphBuilder.getNode b A = Some nodeA
    /\ In imp (imports nodeA)
    /\ DependencyGraphBuilder.resolveImport
         H (DependencyGraphBuilder.rootDir b) (imp_source imp) A = Some definedInFile
    /\ exists spec : ImportSpecifier,
         In spec (imp_specifiers imp) /\ GraphStore.namesSymbol symbolName spec = true.

(** The [count] successive integers from [line] on. *)
Fixpoint linesFrom (count : nat) (line : Z) : list Z :=
  match count with
  | O => []
  | S count' => line :: linesFrom count' (line + 1)%Z
  end.

(** The integers from [startLine] to [endLine], both included. *)
Definition linesBetween (startLine endLine : Z) : list Z :=
  linesFrom (Z.to_nat (endLine - startLine + 1)) startLine.

(** [file] is one of the paths [findByNamingConvention] tries for [source]:
    the base name of [source] with a test suffix and an extension, next to
    the source or in a [__tests__] or [tests] directory beside it. *)
Definition conventionCandidate (H : Host) (source file : string) : Prop :=
  exists (suffix ext : string) (sub : list string),
    In suffix [".test"; ".spec"; "-test"; "_test"]
    /\ In ext [".ts"; ".tsx"; ".js"; ".jsx"]
    /\ In sub [[]; ["__tests__"]; ["tests"]]
    /\ file = path_join H (path_dir H source
                           :: sub ++ [(path_name H source +++ suffix) +++ ext]).

(** [file] lies under the [__tests__] directory beside the directory of
    [source], and its base name, one test suffix of each kind removed, is
    the base name of [source]. *)
Definition colocatedMatch (H : Host) (source file : string) : Prop :=
  Js.startsWith (path_join H [path_dirname H (path_dir H source); "__tests__"]) file = true
  /\ Js.stripOneSuffix ["_test"; "_spec"]
       (Js.stripOneSuffix ["-test"; "-spec"]
          (Js.stripOneSuffix [".test"; ".spec"] (path_name H file)))
     = path_name H source.

(** The coverage percentages of the mapping, when it has any, are
    percentages. *)
Definition coverageInRange (t : TestMapping) : Prop :=
  forall cov : CoverageInfo,
    coverage t = Some cov ->
    (0 <= percentage (cov_lines cov) <= 100)%Q
    /\ (0 <= percentage (cov_branches cov) <= 100)%Q.

(** A risk input as the analyses build it: the untested callers are some
    of the callers, and the coverage percentages are percentages. *)
Definition plausibleInput (input : RiskScorer.RiskInput) : Prop :=
  (List.length (RiskScorer.untestedCallers input)
   <= List.length (RiskScorer.directCallers input)
      + List.length (RiskScorer.transitiveCallers input))%nat
  /\ forall t : TestMapping, In t (RiskScorer.affectedTests input) -> coverageInRange t.

(** The number of callers of a risk input, direct and transitive. *)
Definition callersOf (input : RiskScorer.RiskInput) : nat :=
  (List.length (RiskScorer.directCallers input)
   + List.length (RiskScorer.transitiveCallers input))%nat.

(** The analysis [r] is the result of a file analysis or of a symbol
    analysis of [file]. *)
Definition analysisOf (H : Host) (self : ImpactCalculator.t)
           (b : DependencyGraphBuilder.t) (m : TestMapper.t)
           (file : string) (r : ImpactAnalysis) : Prop :=
  (exists options : ImpactOptions,
      ImpactCalculator.analyzeFileImpact H self b m file options = Ok r)
  \/ (exists (symbolName : string) (options : ImpactOptions),
         ImpactCalculator.analyzeSymbolImpact H self b m symbolName file options = Ok r).

(** The caller [c] was made from an import statement of the node of
    [depPath]. *)
Definition callerFrom (b : DependencyGraphBuilder.t) (depPath : string) (c : Caller)
  : Prop :=
  exists (node : GraphNode) (imp : ImportInfo),
    DependencyGraphBuilder.getNode b depPath = Some node
    /\ In imp (imports node)
    /\ location c = imp_location imp.

(** The relative probe of [resolveImport] finds a file for the import
    [base] written in [fromFile]: [base] or [base/index], with one of the
    extensions, resolved against the directory of [fromFile], exists and is a
    file. *)
Definition foundBeside (H : Host) (base fromFile : string) : Prop :=
  exists basePath ext : string,
    In basePath [base; base +++ "/index"]
    /\ In ext DependencyGraphBuilder.possibleExtensions
    /\ fs_exists H (path_resolve H [path_dirname H fromFile; basePath +++ ext]) = true
    /\ fs_isFile H (path_resolve H [path_dirname H fromFile; basePath +++ ext]) = true.

(** The string has no line break: splitting it gives the string itself. *)
Definition singleLine (s : string) : Prop := Parser.splitLines s = [s].

(** ** More of the concrete host *)

Module DemoMore.

(** The host [h] with a cache file that holds [snapshot] and with every
    file last modified at time [mtime]. *)
Definition withCache (h : Host) (snapshot : CacheSnapshot) (mtime : Q) : Host :=
  mkHost (fs_exists h) (fs_isFile h) (path_resolve h) (path_join h) (path_dirname h)
         (path_basename h) (path_name h) (path_dir h) (path_relative h) (glob h)
         (minimatch h) (parseNode h) (getContextSnippet h) (readCoverage h)
         (fun _ => Some snapshot) (fun _ => Some mtime).

(** [Demo.config] with the cache switched on. *)
Definition cachingConfig : RippleConfig :=
  mkConfig (includePaths Demo.config) (excludePaths Demo.config) (testPatterns Demo.config)
           (criticalPathPatterns Demo.config) (riskThresholds Demo.config) true ".ripple".

(** A cache file written when the project still had [gone.ts]. *)
Definition staleSnapshot : CacheSnapshot :=
  mkSnapshot 1 [("/p/src/gone.ts", Demo.plainFile "gone" [])] [] [].

End DemoMore.

(** * Properties *)

(** ** Containers *)

Module JsSetFacts.

Lemma has_In (x : string) (s : JsSet.t) : JsSet.has x s = true <-> In x s.
Proof.
  unfold JsSet.has. rewrite existsb_exists. split.
  - intros [y [Hy E]]. apply String.eqb_eq in E. now subst.
  - intros Hx. exists x. split; [assumption | apply String.eqb_refl].
Qed.

Lemma has_false (x : string) (s : JsSet.t) : JsSet.has x s = false <-> ~ In x s.
Proof.
  rewrite <- has_In. destruct (JsSet.has x s); split; congruence.
Qed.

Lemma In_add (y x : string) (s : JsSet.t) : In y (JsSet.add x s) <-> In y s \/ y = x.
Proof.
  unfold JsSet.add. destruct (JsSet.has x s) eqn:E.
  - apply has_In in E. split; [tauto | intros [?| ->]; assumption].
  - rewrite in_app_iff. simpl. intuition (subst; auto).
Qed.

Lemma In_delete (y x : string) (s : JsSet.t) :
  In y (JsSet.delete x s) <-> In y s /\ y <> x.
Proof.
  unfold JsSet.delete. rewrite filter_In, negb_true_iff, String.eqb_neq.
  split; intros [? ?]; split; auto.
Qed.

Lemma NoDup_add (x : string) (s : JsSet.t) : NoDup s -> NoDup (JsSet.add x s).
Proof.
  intros Hs. unfold JsSet.add. destruct (JsSet.has x s) eqn:E; [assumption|].
  apply has_false in E. apply NoDup_app; auto.
  - constructor; [intros [] | constructor].
  - intros y Hy [<-|[]]. contradiction.
Qed.

End JsSetFacts.

Module JsMapFacts.
Section WithValue.
Variable V : Type.
Implicit Types (m : JsMap.t V) (k : string) (v : V).

Lemma get_set_same k v m : JsMap.get k (JsMap.set k v m) = Some v.
Proof.
  induction m as [|[k' v'] rest IH]; simpl.
  - now rewrite String.eqb_refl.
  - destruct (String.eqb k' k) eqn:E; simpl.
    + now rewrite String.eqb_refl.
    + now rewrite E.
Qed.

Lemma get_set_other k k' v m :
  k' <> k -> JsMap.get k' (JsMap.set k v m) = JsMap.get k' m.
Proof.
  intros Hne. induction m as [|[k0 v0] rest IH]; simpl.
  - apply String.eqb_neq in Hne. rewrite String.eqb_sym. now rewrite Hne.
  - destruct (String.eqb k0 k) eqn:E; simpl.
    + apply String.eqb_eq in E. subst k0.
      assert (String.eqb k k' = false) as -> by (apply String.eqb_neq; congruence).
      reflexivity.
    + destruct (String.eqb k0 k'); [reflexivity | exact IH].
Qed.

Lemma has_get k m : JsMap.has k m = true <-> exists v, JsMap.get k m = Some v.
Proof.
  unfold JsMap.has. destruct (JsMap.get k m); split; intros; eauto; try discriminate.
  destruct H as [? ?]. discriminate.
Qed.

End WithValue.
End JsMapFacts.


(** ** Graph engine: adjacency symmetry *)

Module GraphFacts.
Import DependencyGraphBuilder.

Lemma lookupList_addTo (k x k' y : string) (m : JsMap.t JsSet.t) :
  In y (lookupList k' (addTo k x m)) <-> In y (lookupList k' m) \/ (k' = k /\ y = x).
Proof.
  unfold addTo, lookupList, JsMap.has.
  destruct (JsMap.get k m) as [s|] eqn:Hk.
  - rewrite Hk. destruct (String.eqb_spec k' k) as [->|Hne].
    + rewrite JsMapFacts.get_set_same, Hk, JsSetFacts.In_add. tauto.
    + rewrite JsMapFacts.get_set_other by assumption. tauto.
  - rewrite JsMapFacts.get_set_same.
    destruct (String.eqb_spec k' k) as [->|Hne].
    + rewrite JsMapFacts.get_set_same, Hk. unfold JsSet.empty.
      rewrite JsSetFacts.In_add. tauto.
    + rewrite !JsMapFacts.get_set_other by assumption. tauto.
Qed.

Section WithHost.
Variable H : Host.
Variable root : string.

Lemma addImportEdge_symmetric (file : string) (g : DependencyGraph) (imp : ImportInfo) :
  adjacencySymmetric g -> adjacencySymmetric (addImportEdge H root file g imp).
Proof.
  intros Hg. unfold addImportEdge.
  destruct (resolveImport H root (imp_source imp) file) as [r|]; [|assumption].
  destruct (negb (String.eqb r "") && JsMap.has r (nodes g)); [|assumption].
  intros A B. simpl. rewrite !lookupList_addTo, (Hg A B). tauto.
Qed.

Lemma fold_imports_symmetric (file : string) (imps : list ImportInfo) (g : DependencyGraph) :
  adjacencySymmetric g ->
  adjacencySymmetric (fold_left (addImportEdge H root file) imps g).
Proof.
  revert g. induction imps as [|imp rest IH]; intros g Hg; simpl; [assumption|].
  apply IH, addImportEdge_symmetric, Hg.
Qed.

Lemma buildEdges_symmetric (g : DependencyGraph) :
  adjacencySymmetric (buildEdges H root g).
Proof.
  unfold buildEdges.
  assert (Hclear : adjacencySymmetric (mkGraph (nodes g) JsMap.empty JsMap.empty))
    by (intros A B; simpl; tauto).
  revert Hclear. generalize (mkGraph (nodes g) JsMap.empty JsMap.empty).
  induction (nodes g) as [|entry rest IH]; intros acc Hacc; simpl; [assumption|].
  apply IH, fold_imports_symmetric, Hacc.
Qed.

End WithHost.
End GraphFacts.

(** C1. After [build] and after [updateIncremental], from any state of the
    builder and for any batch of changed files, the graph's two adjacency
    maps mirror each other: [B] is among the forward edges of [A] if and only
    if [A] is among the reverse edges of [B]. *)
Theorem adjacency_symmetry_after_build_and_update
  (H : Host) (b : DependencyGraphBuilder.t) (changedFiles : list string) :
  adjacencySymmetric (DependencyGraphBuilder.graph (DependencyGraphBuilder.build H b))
  /\ adjacencySymmetric
       (DependencyGraphBuilder.graph
          (DependencyGraphBuilder.updateIncremental H changedFiles b)).
Proof.
  split.
  - unfold DependencyGraphBuilder.build. simpl. apply GraphFacts.buildEdges_symmetric.
  - unfold DependencyGraphBuilder.updateIncremental. simpl.
    apply GraphFacts.buildEdges_symmetric.
Qed.

(** ** Test mapper: coverage percentages *)

Module CoverageFacts.
Import TestMapper.






End CoverageFacts.




(** ** Doubles: rounding keeps the order and stays close *)

Module DoubleFacts.
Import Double.
Local Open Scope Q_scope.

Lemma two_neq_0 : ~ 2 == 0.
Proof. discriminate. Qed.

Lemma pow2_pos (e : Z) : 0 < 2 ^ e.
Proof. apply Qpower_0_lt. reflexivity. Qed.

Lemma pow2_52 : 2 ^ 52 == inject_Z (2 ^ 52).
Proof. now vm_compute. Qed.

Lemma pow2_53 : 2 ^ 53 == inject_Z (2 ^ 53).
Proof. now vm_compute. Qed.

Lemma pow2_mono (a b : Z) : (a <= b)%Z -> 2 ^ a <= 2 ^ b.
Proof. intros Hab. apply Qpower_le_compat_l; [exact Hab | discriminate]. Qed.

Lemma pow2_ratio (a b : Z) :
  (0 <= a)%Z -> (0 <= b)%Z -> 2 ^ (a - b) == inject_Z (2 ^ a) / inject_Z (2 ^ b).
Proof.
  intros Ha Hb. rewrite (Qpower_minus 2 a b two_neq_0).
  now rewrite !Zpower_Qpower by assumption.
Qed.

(** A positive rational lies strictly between the powers of two one below
    and one above the difference of the binary lengths. *)
Lemma between_lengths (q : Q) :
  0 < q ->
  let k := (Z.log2 (Qnum q) - Z.log2 (Zpos (Qden q)))%Z in
  2 ^ (k - 1) < q /\ q < 2 ^ (k + 1).
Proof.
  destruct q as [n d]. intros Hq. cbn [Qnum Qden]. cbv zeta.
  assert (Hn : (0 < n)%Z) by (unfold Qlt in Hq; simpl in Hq; lia).
  pose proof (Z.log2_spec n Hn) as [Hn1 Hn2].
  pose proof (Z.log2_spec (Zpos d) (Pos2Z.is_pos d)) as [Hd1 Hd2].
  pose proof (Z.log2_nonneg n) as Ha. pose proof (Z.log2_nonneg (Zpos d)) as Hb.
  set (a := Z.log2 n) in *. set (b := Z.log2 (Zpos d)) in *.
  assert (Hpa : (0 < 2 ^ a)%Z) by (apply Z.pow_pos_nonneg; lia).
  assert (Hpb : (0 < 2 ^ b)%Z) by (apply Z.pow_pos_nonneg; lia).
  rewrite Z.pow_succ_r in Hn2, Hd2 by assumption.
  assert (Ha1 : (2 ^ (a + 1) = 2 * 2 ^ a)%Z) by (apply Z.pow_succ_r; assumption).
  assert (Hb1 : (2 ^ (b + 1) = 2 * 2 ^ b)%Z) by (apply Z.pow_succ_r; assumption).
  split.
  - replace (a - b - 1)%Z with (a - (b + 1))%Z by lia.
    rewrite pow2_ratio by lia. rewrite Hb1.
    apply Qlt_shift_div_r.
    + rewrite <- (Zlt_Qlt 0). lia.
    + unfold Qlt, Qmult, inject_Z. cbn [Qnum Qden].
      rewrite Pos.mul_1_r, Z.mul_1_r.
      generalize dependent (2 ^ a)%Z. generalize dependent (2 ^ b)%Z. intros. nia.
  - replace (a - b + 1)%Z with ((a + 1) - b)%Z by lia.
    rewrite pow2_ratio by lia. rewrite Ha1.
    apply Qlt_shift_div_l.
    + rewrite <- (Zlt_Qlt 0). lia.
    + unfold Qlt, Qmult, inject_Z. cbn [Qnum Qden].
      rewrite Pos.mul_1_r, Z.mul_1_r.
      generalize dependent (2 ^ a)%Z. generalize dependent (2 ^ b)%Z. intros. nia.
Qed.

Lemma ilog2_spec (q : Q) : 0 < q -> 2 ^ ilog2 q <= q /\ q < 2 ^ (ilog2 q + 1).
Proof.
  intros Hq. destruct (between_lengths Hq) as [Hlo Hhi]. cbv zeta in Hlo, Hhi.
  unfold ilog2.
  set (k := (Z.log2 (Qnum q) - Z.log2 (Zpos (Qden q)))%Z) in *.
  destruct (Qle_bool (2 ^ k) q) eqn:Hk.
  - apply Qle_bool_iff in Hk. now split.
  - split; [now apply Qlt_le_weak|].
    replace (k - 1 + 1)%Z with k by lia.
    apply Qnot_le_lt. intros Hle. apply Qle_bool_iff in Hle. congruence.
Qed.

Lemma ilog2_mono (x y : Q) : 0 < x -> x <= y -> (ilog2 x <= ilog2 y)%Z.
Proof.
  intros Hx Hxy.
  assert (Hy : 0 < y) by (eapply Qlt_le_trans; eassumption).
  destruct (ilog2_spec Hx) as [Hx1 _]. destruct (ilog2_spec Hy) as [_ Hy2].
  destruct (Z_le_gt_dec (ilog2 x) (ilog2 y)) as [Hle|Hgt]; [exact Hle|].
  exfalso.
  assert (Hp : 2 ^ (ilog2 y + 1) <= 2 ^ ilog2 x) by (apply pow2_mono; lia).
  apply (Qlt_irrefl y). eapply Qlt_le_trans; [exact Hy2|].
  eapply Qle_trans; [exact Hp|]. eapply Qle_trans; eassumption.
Qed.

Lemma nearestEven_between (q : Q) :
  (Qfloor q <= nearestEven q <= Qfloor q + 1)%Z.
Proof.
  unfold nearestEven. destruct (q - inject_Z (Qfloor q) ?= 1 # 2); [|lia|lia].
  destruct (Z.even (Qfloor q)); lia.
Qed.

Lemma nearestEven_close (q : Q) :
  q - (1 # 2) <= inject_Z (nearestEven q) <= q + (1 # 2).
Proof.
  pose proof (Qfloor_le q) as Hlo. pose proof (Qlt_floor q) as Hhi.
  rewrite inject_Z_plus in Hhi. change (inject_Z 1) with 1 in Hhi.
  unfold nearestEven.
  destruct (Qcompare_spec (q - inject_Z (Qfloor q)) (1 # 2)) as [Hc|Hc|Hc].
  - destruct (Z.even (Qfloor q)); [|rewrite inject_Z_plus; change (inject_Z 1) with 1]; lra.
  - lra.
  - rewrite inject_Z_plus. change (inject_Z 1) with 1. lra.
Qed.

Lemma nearestEven_mono (x y : Q) : x <= y -> (nearestEven x <= nearestEven y)%Z.
Proof.
  intros Hxy. pose proof (Qfloor_resp_le _ _ Hxy) as Hf.
  pose proof (nearestEven_between x) as Bx. pose proof (nearestEven_between y) as By.
  destruct (Z.eq_dec (Qfloor x) (Qfloor y)) as [Heq|Hne]; [|lia].
  clear Bx By. unfold nearestEven. rewrite <- Heq.
  destruct (Qcompare_spec (x - inject_Z (Qfloor x)) (1 # 2)) as [Hx|Hx|Hx];
    destruct (Qcompare_spec (y - inject_Z (Qfloor x)) (1 # 2)) as [Hy|Hy|Hy];
    try (exfalso; lra); destruct (Z.even (Qfloor x)); lia.
Qed.

Lemma nearestEven_int (k : Z) : nearestEven (inject_Z k) = k.
Proof.
  pose proof (nearestEven_close (inject_Z k)) as [Hlo Hhi].
  set (m := nearestEven (inject_Z k)) in *.
  assert (H1 : inject_Z k < inject_Z m + inject_Z 1) by (change (inject_Z 1) with 1; lra).
  assert (H2 : inject_Z m < inject_Z k + inject_Z 1) by (change (inject_Z 1) with 1; lra).
  rewrite <- inject_Z_plus in H1, H2. rewrite <- Zlt_Qlt in H1, H2. lia.
Qed.

Lemma ulpExponent_mono (x y : Q) :
  0 < x -> x <= y -> (ulpExponent x <= ulpExponent y)%Z.
Proof.
  intros Hx Hxy. unfold ulpExponent. pose proof (ilog2_mono Hx Hxy). lia.
Qed.

Lemma roundPositive_nonneg (x : Q) : 0 < x -> 0 <= roundPositive x.
Proof.
  intros Hx. unfold roundPositive.
  apply Qmult_le_0_compat; [|apply Qlt_le_weak, pow2_pos].
  change 0 with (inject_Z 0). rewrite <- Zle_Qle.
  rewrite <- (nearestEven_int 0). apply nearestEven_mono.
  apply Qle_shift_div_l; [apply pow2_pos|].
  change (inject_Z 0) with 0. rewrite Qmult_0_l. now apply Qlt_le_weak.
Qed.

Lemma roundPositive_mono (x y : Q) :
  0 < x -> x <= y -> roundPositive x <= roundPositive y.
Proof.
  intros Hx Hxy.
  assert (Hy : 0 < y) by (eapply Qlt_le_trans; eassumption).
  pose proof (ulpExponent_mono Hx Hxy) as He.
  unfold roundPositive.
  set (ex := ulpExponent x) in *. set (ey := ulpExponent y) in *.
  pose proof (pow2_pos ex) as Hpx. pose proof (pow2_pos ey) as Hpy.
  destruct (Z.eq_dec ex ey) as [Heq|Hne].
  - rewrite <- Heq. apply Qmult_le_compat_r; [|now apply Qlt_le_weak].
    rewrite <- Zle_Qle. apply nearestEven_mono.
    apply Qmult_le_compat_r; [exact Hxy|]. apply Qlt_le_weak, Qinv_lt_0_compat, Hpx.
  - assert (Hlt : (ex < ey)%Z) by lia.
    destruct (ilog2_spec Hx) as [_ Hx2]. destruct (ilog2_spec Hy) as [Hy1 _].
    assert (Hey : ey = (ilog2 y - 52)%Z) by (unfold ey, ex, ulpExponent in *; lia).
    assert (Hex : (ilog2 x + 1 <= ex + 53)%Z) by (unfold ex, ulpExponent; lia).
    assert (Hupper : inject_Z (nearestEven (x / 2 ^ ex)) * 2 ^ ex <= 2 ^ (ex + 53)).
    { rewrite (Qpower_plus 2 ex 53 two_neq_0), (Qmult_comm (2 ^ ex) (2 ^ 53)).
      apply Qmult_le_compat_r; [|now apply Qlt_le_weak].
      assert (Hq : x / 2 ^ ex <= inject_Z (2 ^ 53)).
      { apply Qle_shift_div_r; [exact Hpx|].
        rewrite <- pow2_53, (Qmult_comm (2 ^ 53)), <- (Qpower_plus 2 ex 53 two_neq_0).
        apply Qlt_le_weak. eapply Qlt_le_trans; [exact Hx2|]. now apply pow2_mono. }
      apply nearestEven_mono in Hq. rewrite nearestEven_int in Hq.
      rewrite pow2_53, <- Zle_Qle. exact Hq. }
    assert (Hlower : 2 ^ (ey + 52) <= inject_Z (nearestEven (y / 2 ^ ey)) * 2 ^ ey).
    { rewrite (Qpower_plus 2 ey 52 two_neq_0), (Qmult_comm (2 ^ ey) (2 ^ 52)).
      apply Qmult_le_compat_r; [|now apply Qlt_le_weak].
      assert (Hq : inject_Z (2 ^ 52) <= y / 2 ^ ey).
      { apply Qle_shift_div_l; [exact Hpy|].
        rewrite <- pow2_52, (Qmult_comm (2 ^ 52)), <- (Qpower_plus 2 ey 52 two_neq_0).
        replace (ey + 52)%Z with (ilog2 y) by lia. exact Hy1. }
      apply nearestEven_mono in Hq. rewrite nearestEven_int in Hq.
      rewrite pow2_52, <- Zle_Qle. exact Hq. }
    eapply Qle_trans; [exact Hupper|]. eapply Qle_trans; [|exact Hlower].
    apply pow2_mono. lia.
Qed.

Lemma round_nonneg (x : Q) : 0 <= x -> 0 <= round x.
Proof.
  intros Hx. unfold round. destruct (x ?= 0) eqn:Hc.
  - apply Qle_refl.
  - apply Qlt_alt in Hc. exfalso. lra.
  - apply Qgt_alt in Hc. now apply roundPositive_nonneg.
Qed.

Lemma round_nonpos (x : Q) : x <= 0 -> round x <= 0.
Proof.
  intros Hx. unfold round. destruct (x ?= 0) eqn:Hc.
  - apply Qle_refl.
  - apply Qlt_alt in Hc.
    assert (Hn : 0 < - x) by lra. pose proof (roundPositive_nonneg Hn). lra.
  - apply Qgt_alt in Hc. exfalso. lra.
Qed.

(** Rounding keeps the order. *)
Lemma round_mono (x y : Q) : x <= y -> round x <= round y.
Proof.
  intros Hxy.
  destruct (Qlt_le_dec 0 x) as [Hx|Hx].
  - assert (Hy : 0 < y) by (eapply Qlt_le_trans; eassumption).
    unfold round.
    assert (Hcx : (x ?= 0) = Gt) by now apply Qgt_alt.
    assert (Hcy : (y ?= 0) = Gt) by now apply Qgt_alt.
    rewrite Hcx, Hcy. now apply roundPositive_mono.
  - destruct (Qlt_le_dec y 0) as [Hy|Hy].
    + assert (Hx' : x < 0) by lra.
      unfold round.
      assert (Hcx : (x ?= 0) = Lt) by now apply Qlt_alt.
      assert (Hcy : (y ?= 0) = Lt) by now apply Qlt_alt.
      rewrite Hcx, Hcy.
      assert (Hm : roundPositive (- y) <= roundPositive (- x))
        by (apply roundPositive_mono; lra).
      lra.
    + pose proof (round_nonpos Hx). pose proof (round_nonneg Hy). lra.
Qed.

Lemma round_comp (x y : Q) : x == y -> round x == round y.
Proof.
  intros Hxy. apply Qle_antisym; apply round_mono; rewrite Hxy; apply Qle_refl.
Qed.

Lemma round_0 : round 0 = 0.
Proof. reflexivity. Qed.

(** The doubles that the literals [0.1], [0.3], [0.15] and [4.1] denote,
    and the product [3 * 0.15] as doubles multiply it,
    [0.44999999999999996]. *)
Lemma round_literals :
  round (1 # 10) == 3602879701896397 # 2 ^ 55
  /\ round (3 # 10) == 5404319552844595 # 2 ^ 54
  /\ round (15 # 100) == 5404319552844595 # 2 ^ 55
  /\ round (41 # 10) == 2308094809027379 # 2 ^ 49
  /\ round (3 * round (15 # 100)) == 2026619832316723 # 2 ^ 52.
Proof. vm_compute. repeat split. Qed.

Lemma round_10 : round 10 == 10.
Proof. now vm_compute. Qed.

Lemma round_100 : round 100 == 100.
Proof. now vm_compute. Qed.

(** [round] is the rounding of the machine: on the quotients [u / t] of
    the counts up to 7, it gives the double that the machine's division
    gives, and so for their products with 10 and with the weight [0.3],
    for a sum and for a difference. *)
Lemma round_agrees_with_the_machine :
  forallb
    (fun ut : Z * Z =>
       let x := toFloat (fst ut) in
       let y := toFloat (snd ut) in
       let q := PrimFloat.div x y in
       let q' := round (inject_Z (fst ut) / inject_Z (snd ut)) in
       let w := PrimFloat.div (toFloat 3) (toFloat 10) in
       let w' := round (3 # 10) in
       Qeq_bool (ofFloat q) q'
       && Qeq_bool (ofFloat (PrimFloat.mul q (toFloat 10))) (round (q' * 10))
       && Qeq_bool (ofFloat (PrimFloat.mul (PrimFloat.mul q (toFloat 10)) w))
                   (round (round (q' * 10) * w'))
       && Qeq_bool (ofFloat (PrimFloat.add q (PrimFloat.mul q w)))
                   (round (q' + round (q' * w')))
       && Qeq_bool (ofFloat (PrimFloat.sub (toFloat 10) q)) (round (10 - q')))%bool
    (flat_map (fun t => map (fun u => (Z.of_nat u, Z.of_nat t)) (seq 0 (S t))) (seq 1 7))
  = true.
Proof. vm_compute. reflexivity. Qed.

Lemma ilog2_below (x : Q) (k : Z) : 0 < x -> x < 2 ^ k -> (ilog2 x < k)%Z.
Proof.
  intros Hx Hk. destruct (ilog2_spec Hx) as [Hlo _].
  destruct (Z_lt_le_dec (ilog2 x) k) as [Hlt|Hge]; [exact Hlt|].
  exfalso. apply (Qlt_irrefl x).
  eapply Qlt_le_trans; [exact Hk|]. eapply Qle_trans; [|exact Hlo].
  now apply pow2_mono.
Qed.

(** Rounding moves a positive number by at most half a unit in the last
    place. *)
Lemma roundPositive_close (x : Q) :
  0 < x ->
  x - 2 ^ ulpExponent x * (1 # 2) <= roundPositive x
  /\ roundPositive x <= x + 2 ^ ulpExponent x * (1 # 2).
Proof.
  intros Hx. unfold roundPositive.
  pose proof (pow2_pos (ulpExponent x)) as Hp.
  set (p := 2 ^ ulpExponent x) in *. clearbody p.
  destruct (nearestEven_close (x / p)) as [Hlo Hhi].
  set (n := inject_Z (nearestEven (x / p))) in *. clearbody n.
  assert (Hxp : x == x / p * p) by (field; intros Hz; rewrite Hz in Hp; discriminate).
  apply (Qmult_le_compat_r _ _ p) in Hlo; [|now apply Qlt_le_weak].
  apply (Qmult_le_compat_r _ _ p) in Hhi; [|now apply Qlt_le_weak].
  set (q := x / p) in *. clearbody q.
  split.
  - setoid_replace (x - p * (1 # 2)) with ((q - (1 # 2)) * p); [exact Hlo|].
    rewrite Hxp. ring.
  - setoid_replace (x + p * (1 # 2)) with ((q + (1 # 2)) * p); [exact Hhi|].
    rewrite Hxp. ring.
Qed.

(** Below 128 a double is within [2^-47] of the number it stands for. *)
Lemma round_close (x : Q) :
  0 <= x -> x < 128 -> x - (1 # 2 ^ 47) <= round x /\ round x <= x + (1 # 2 ^ 47).
Proof.
  intros H0 H128. destruct (Qcompare_spec x 0) as [Hz|Hneg|Hpos].
  - rewrite (round_comp Hz), round_0, Hz. split; discriminate.
  - exfalso. lra.
  - unfold round. assert (Hc : (x ?= 0) = Gt) by now apply Qgt_alt.
    rewrite Hc.
    destruct (roundPositive_close Hpos) as [Hlo Hhi].
    assert (Hlog : (ilog2 x < 7)%Z).
    { apply ilog2_below; [exact Hpos|].
      assert (H7 : 2 ^ 7 == 128) by now vm_compute.
      now rewrite H7. }
    assert (He : 2 ^ ulpExponent x <= 2 ^ (-46))
      by (apply pow2_mono; unfold ulpExponent; lia).
    assert (H46 : 2 ^ (-46) == 1 # 2 ^ 46) by now vm_compute.
    rewrite H46 in He.
    set (p := 2 ^ ulpExponent x) in *. clearbody p.
    set (r := roundPositive x) in *. clearbody r.
    assert (Hhalf : (1 # 2 ^ 46) * (1 # 2) == 1 # 2 ^ 47) by now vm_compute.
    apply (Qmult_le_compat_r _ _ (1 # 2)) in He; [|discriminate].
    rewrite Hhalf in He.
    set (c := 1 # 2 ^ 47) in *. clearbody c.
    split; lra.
Qed.

(** Rounding stays between two doubles that enclose the number. *)
Lemma round_between (x lo hi : Q) :
  lo <= x <= hi -> round lo == lo -> round hi == hi -> lo <= round x <= hi.
Proof.
  intros [Hlo Hhi] Rlo Rhi. split.
  - rewrite <- Rlo. now apply round_mono.
  - rewrite <- Rhi. now apply round_mono.
Qed.

End DoubleFacts.

(** ** Risk scorer: bounds, rounding, level *)

Module ScoreFacts.
Import RiskScorer.
Local Open Scope Q_scope.

Lemma normalize_bounds (x : Q) : 0 <= normalize x <= 10.
Proof.
  unfold normalize. split.
  - apply Q.min_glb; [discriminate | apply Q.le_max_l].
  - apply Q.le_min_l.
Qed.

(** [Math.round(x * 10)] of a number in [0, 10] is a number of tenths
    between 0 and 100. *)
Lemma tenths_bounds (x : Q) :
  0 <= x <= 10 -> (0 <= Math_round (Double.round (x * 10)) <= 100)%Z.
Proof.
  intros [Hlo Hhi].
  assert (H0 : 0 <= Double.round (x * 10)) by (apply DoubleFacts.round_nonneg; lra).
  assert (H100 : Double.round (x * 10) <= 100).
  { eapply Qle_trans; [apply (@DoubleFacts.round_mono (x * 10) 100); lra|].
    rewrite DoubleFacts.round_100. apply Qle_refl. }
  unfold Math_round. split.
  - change 0%Z with (Qfloor 0). apply Qfloor_resp_le. lra.
  - change 100%Z with (Qfloor (100 + (1 # 2))). apply Qfloor_resp_le. lra.
Qed.

(** [Math.round(x * 10) / 10] of a number in [0, 10] stays in [0, 10]. *)
Lemma round_tenth_bounds (x : Q) :
  0 <= x <= 10 ->
  0 <= Double.round (inject_Z (Math_round (Double.round (x * 10))) / 10) <= 10.
Proof.
  intros Hx. destruct (tenths_bounds Hx) as [H0 H100].
  rewrite Zle_Qle in H0, H100.
  change (inject_Z 0) with 0 in H0. change (inject_Z 100) with 100 in H100.
  set (k := inject_Z (Math_round (Double.round (x * 10)))) in *. clearbody k.
  split.
  - apply DoubleFacts.round_nonneg. apply Qle_shift_div_l; [reflexivity | lra].
  - eapply Qle_trans; [apply (@DoubleFacts.round_mono (k / 10) 10)|].
    + apply Qle_shift_div_r; [reflexivity | lra].
    + rewrite DoubleFacts.round_10. apply Qle_refl.
Qed.

(** Rounding to one decimal moves a number of [0, 10] by at most a
    twentieth, up to the rounding of the two operations. *)
Lemma round_tenth_close (x : Q) :
  0 <= x <= 10 ->
  x - (1 # 20) - (1 # 10 ^ 12)
  <= Double.round (inject_Z (Math_round (Double.round (x * 10))) / 10)
  <= x + (1 # 20) + (1 # 10 ^ 12).
Proof.
  intros Hx. destruct (tenths_bounds Hx) as [H0 H100]. destruct Hx as [Hlo Hhi].
  rewrite Zle_Qle in H0, H100.
  change (inject_Z 0) with 0 in H0. change (inject_Z 100) with 100 in H100.
  assert (Ht : x * 10 - (1 # 2 ^ 47) <= Double.round (x * 10)
               /\ Double.round (x * 10) <= x * 10 + (1 # 2 ^ 47))
    by (apply DoubleFacts.round_close; lra).
  unfold Math_round in *.
  pose proof (Qfloor_le (Double.round (x * 10) + (1 # 2))) as Hle.
  pose proof (Qlt_floor (Double.round (x * 10) + (1 # 2))) as Hlt.
  rewrite inject_Z_plus in Hlt. change (inject_Z 1) with 1 in Hlt.
  set (t := Double.round (x * 10)) in *. clearbody t.
  set (k := inject_Z (Qfloor (t + (1 # 2)))) in *. clearbody k.
  assert (Hk : k * (1 # 10) - (1 # 2 ^ 47) <= Double.round (k / 10)
               /\ Double.round (k / 10) <= k * (1 # 10) + (1 # 2 ^ 47)).
  { assert (Hd : k / 10 == k * (1 # 10)) by (unfold Qdiv; reflexivity).
    rewrite <- Hd. apply DoubleFacts.round_close; rewrite Hd; lra. }
  set (v := Double.round (k / 10)) in *. clearbody v.
  assert (Hc : (1 # 2 ^ 47) <= (1 # 10 ^ 13)) by (vm_compute; discriminate).
  set (c := 1 # 2 ^ 47) in *. clearbody c.
  assert (Hd : (1 # 10 ^ 13) * 10 == (1 # 10 ^ 12)) by now vm_compute.
  set (d := 1 # 10 ^ 13) in *. set (e := 1 # 10 ^ 12) in *. clearbody d e.
  split; lra.
Qed.

Section WithScorer.
Variable self : t.

Lemma geq_true (score threshold : Q) : geq score threshold = true <-> threshold <= score.
Proof. unfold geq. apply Qle_bool_iff. Qed.

Lemma geq_false (score threshold : Q) : geq score threshold = false <-> score < threshold.
Proof.
  rewrite <- not_true_iff_false, geq_true. split.
  - apply Qnot_le_lt.
  - apply Qlt_not_le.
Qed.

Lemma determineRiskLevel_monotone (x y : Q) :
  x <= y ->
  (levelRank (determineRiskLevel self x) <= levelRank (determineRiskLevel self y))%nat.
Proof.
  intros Hxy. unfold determineRiskLevel.
  destruct (geq x (th_high _)) eqn:Hxh.
  - apply geq_true in Hxh.
    assert (geq y (th_high (riskThresholds (config self))) = true) as ->
        by (apply geq_true; lra).
    reflexivity.
  - destruct (geq x (th_medium _)) eqn:Hxm.
    + apply geq_true in Hxm.
      destruct (geq y (th_high _)); [simpl; lia|].
      assert (geq y (th_medium (riskThresholds (config self))) = true) as ->
          by (apply geq_true; lra).
      reflexivity.
    + destruct (geq x (th_low _)) eqn:Hxl.
      * apply geq_true in Hxl.
        destruct (geq y (th_high _)); [simpl; lia|].
        destruct (geq y (th_medium _)); [simpl; lia|].
        assert (geq y (th_low (riskThresholds (config self))) = true) as ->
            by (apply geq_true; lra).
        reflexivity.
      * simpl. lia.
Qed.

Lemma determineRiskLevel_table (x : Q) :
  let th := riskThresholds (config self) in
  (th_high th <= x -> determineRiskLevel self x = Critical)
  /\ (x < th_high th -> th_medium th <= x -> determineRiskLevel self x = High)
  /\ (x < th_high th -> x < th_medium th -> th_low th <= x ->
      determineRiskLevel self x = Medium)
  /\ (x < th_high th -> x < th_medium th -> x < th_low th ->
      determineRiskLevel self x = Low).
Proof.
  cbv zeta. unfold determineRiskLevel.
  repeat split; intros;
    repeat match goal with
           | Hle : ?t <= x |- _ => apply geq_true in Hle; rewrite Hle
           | Hlt : x < ?t |- _ => apply geq_false in Hlt; rewrite Hlt
           end; reflexivity.
Qed.

End WithScorer.
End ScoreFacts.

(** C2, as the code has it. For every host, scorer configuration and risk
    input, [calculateRisk] returns the five factors and, with [clamped] the
    weighted sum of the factors as the doubles of the code add it up,
    clamped to [0, 10]: a value that is the double nearest to [tenths / 10],
    where [tenths = Math.round(clamped * 10)] is an integer between 0 and
    100; the value lies in [0, 10] and within a twentieth of [clamped], up
    to the rounding of the two operations (less than [10^-12]); and a level
    that is read off [clamped] before it is rounded to one decimal:
    Critical from the high threshold up, else High from the medium
    threshold up, else Medium from the low threshold up, else Low. As a
    function of that unrounded sum the level is monotonic non-decreasing,
    whatever the thresholds. *)
Theorem risk_value_bounded_level_from_unrounded_sum
  (H : Host) (self : RiskScorer.t) (input : RiskScorer.RiskInput) :
  let r := RiskScorer.calculateRisk H self input in
  let clamped := RiskScorer.normalize (RiskScorer.weightedSum (factors r)) in
  let tenths := Math_round (Double.round (clamped * 10)) in
  let th := riskThresholds (RiskScorer.config self) in
  (factors r = RiskScorer.collectFactors H self input
   /\ (0 <= clamped <= 10)%Q
   /\ (0 <= tenths <= 100)%Z
   /\ score_value r = Double.round (inject_Z tenths / 10)
   /\ (0 <= score_value r <= 10)%Q
   /\ (clamped - (1 # 20) - (1 # 10 ^ 12) <= score_value r
       <= clamped + (1 # 20) + (1 # 10 ^ 12))%Q)
  /\ ((th_high th <= clamped)%Q -> level r = Critical)
  /\ ((clamped < th_high th)%Q -> (th_medium th <= clamped)%Q -> level r = High)
  /\ ((clamped < th_high th)%Q -> (clamped < th_medium th)%Q -> (th_low th <= clamped)%Q ->
      level r = Medium)
  /\ ((clamped < th_high th)%Q -> (clamped < th_medium th)%Q -> (clamped < th_low th)%Q ->
      level r = Low)
  /\ (forall x y : Q,
         (x <= y)%Q ->
         (levelRank (RiskScorer.determineRiskLevel self x)
          <= levelRank (RiskScorer.determineRiskLevel self y))%nat).
Proof.
  cbv zeta. unfold RiskScorer.calculateRisk. simpl.
  set (clamped := RiskScorer.normalize _).
  pose proof (ScoreFacts.normalize_bounds
                (RiskScorer.weightedSum (RiskScorer.collectFactors H self input))) as Hb.
  fold clamped in Hb.
  split.
  - split; [reflexivity|]. split; [exact Hb|].
    split; [exact (ScoreFacts.tenths_bounds Hb)|].
    split; [reflexivity|].
    split; [exact (ScoreFacts.round_tenth_bounds Hb)|].
    exact (ScoreFacts.round_tenth_close Hb).
  - pose proof (ScoreFacts.determineRiskLevel_table self clamped) as Ht.
    cbv zeta in Ht. destruct Ht as (H1 & H2 & H3 & H4).
    repeat (split; [assumption|]).
    apply ScoreFacts.determineRiskLevel_monotone.
Qed.

(** C2 on the input [Demo.nearHigh]: the clamped sum, about 6.977, lies
    between the medium threshold 5 and the high threshold 7, so the level
    is High. *)
Lemma risk_value_bounded_level_from_unrounded_sum_witness :
  level (RiskScorer.calculateRisk (Demo.host Demo.selfImport) Demo.scorer Demo.nearHigh)
  = High.
Proof.
  apply (proj1 (proj2 (proj2
           (risk_value_bounded_level_from_unrounded_sum
              (Demo.host Demo.selfImport) Demo.scorer Demo.nearHigh)))).
  - vm_compute. reflexivity.
  - vm_compute. discriminate.
Defined.

(** C2, counterexample to the claim as stated. With the default weights and
    thresholds 3, 5, 7, the input [Demo.nearHigh] gets the value 7.0, which
    reaches the high threshold, and the level High, not Critical; the input
    [Demo.atHigh] gets the same value 7.0 and the level Critical. So the
    level is not a function of the returned value. *)
Lemma risk_level_not_a_function_of_value :
  let near := RiskScorer.calculateRisk (Demo.host Demo.selfImport) Demo.scorer Demo.nearHigh in
  let at7 := RiskScorer.calculateRisk (Demo.host Demo.selfImport) Demo.scorer Demo.atHigh in
  (score_value near == 7)%Q
  /\ (th_high (riskThresholds (RiskScorer.config Demo.scorer)) == 7)%Q
  /\ level near = High
  /\ (score_value at7 == 7)%Q
  /\ level at7 = Critical.
Proof. vm_compute. repeat split. Qed.

(** ** Quick risk check *)

(** C5. For every host, graph, test mapper and file, [quickRiskCheck]
    reports the number of direct dependents of the file and whether the file
    has a test file, and its level is the one the rule table gives for these
    two: Critical when the count is above 20 and there are no tests, else
    High when the count is above 10 or there are no tests, else Medium when
    the count is above 5, else Low. In particular 25 dependents without tests
    give Critical and no dependents with tests give Low. *)
Theorem quick_risk_check_rule_table
  (H : Host) (b : DependencyGraphBuilder.t) (m : TestMapper.t) (file : string) :
  let r := ImpactCalculator.quickRiskCheck H b m file in
  quick_callerCount r = List.length (DependencyGraphBuilder.getDirectDependents b file)
  /\ hasTests r = (0 <? List.length (testFiles (TestMapper.getTestsForFile H m b file)))%nat
  /\ riskLevel r
     = RiskLevel_string (quickRuleTable (quick_callerCount r) (negb (hasTests r)))
  /\ (quick_callerCount r = 25%nat -> hasTests r = false -> riskLevel r = "CRITICAL")
  /\ (quick_callerCount r = 0%nat -> hasTests r = true -> riskLevel r = "LOW").
Proof.
  cbv zeta. unfold ImpactCalculator.quickRiskCheck, quickRuleTable. simpl.
  set (count := List.length _).
  set (tested := (0 <? _)%nat).
  split; [reflexivity|]. split; [reflexivity|]. split.
  - destruct (20 <? count)%nat, tested, (10 <? count)%nat, (5 <? count)%nat; reflexivity.
  - split; intros -> ->; reflexivity.
Qed.

(** C5 on two projects: [hub.ts] with 25 importing files and no test is
    Critical; [foo.ts] with no importing file and the test file
    [foo.test.ts] next to it is Low. *)
Lemma quick_risk_check_rule_table_witness :
  riskLevel (ImpactCalculator.quickRiskCheck
               (Demo.host (Demo.fan 25))
               (Ripple.graphBuilder (Demo.ripple (Demo.fan 25)))
               (Ripple.testMapper (Demo.ripple (Demo.fan 25)))
               "/p/src/hub.ts") = "CRITICAL"
  /\ riskLevel (ImpactCalculator.quickRiskCheck
                  (Demo.host Demo.tested)
                  (Ripple.graphBuilder (Demo.ripple Demo.tested))
                  (Ripple.testMapper (Demo.ripple Demo.tested))
                  "/p/src/foo.ts") = "LOW".
Proof.
  split.
  - apply (proj1 (proj2 (proj2 (proj2
             (quick_risk_check_rule_table
                (Demo.host (Demo.fan 25))
                (Ripple.graphBuilder (Demo.ripple (Demo.fan 25)))
                (Ripple.testMapper (Demo.ripple (Demo.fan 25)))
                "/p/src/hub.ts"))))); vm_compute; reflexivity.
  - apply (proj2 (proj2 (proj2 (proj2
             (quick_risk_check_rule_table
                (Demo.host Demo.tested)
                (Ripple.graphBuilder (Demo.ripple Demo.tested))
                (Ripple.testMapper (Demo.ripple Demo.tested))
                "/p/src/foo.ts"))))); vm_compute; reflexivity.
Defined.

(** ** Graph engine: the depth-first traversal *)

Module TraverseFacts.
Import DependencyGraphBuilder.

Lemma fold_left_invariant {A B : Type} (f : A -> B -> A) (P : A -> Prop) (l : list B) :
  (forall a b, In b l -> P a -> P (f a b)) -> forall a, P a -> P (fold_left f l a).
Proof.
  induction l as [|b rest IH]; simpl; intros Hf a Ha; [assumption|].
  apply IH.
  - intros a' b' Hb'. apply Hf. now right.
  - apply Hf; [now left | assumption].
Qed.

Lemma extends_refl (w : Walk) : extends w w.
Proof. split; apply incl_refl. Qed.

Lemma extends_trans (w1 w2 w3 : Walk) : extends w1 w2 -> extends w2 w3 -> extends w1 w3.
Proof. intros [? ?] [? ?]. split; eapply incl_tran; eassumption. Qed.

Section WithGraph.
Variable adj : JsMap.t JsSet.t.
Variable maxDepth : Z.

Lemma traverse_S (fuel : nat) (current : string) (depth : Z) (w : Walk) :
  traverse adj maxDepth (S fuel) current depth w
  = if (depth >? maxDepth)%Z || JsSet.has current (visited w) then w
    else match JsMap.get current adj with
         | Some dependents =>
             fold_left (loopBody adj maxDepth fuel depth) dependents
                       (mkWalk (JsSet.add current (visited w)) (result w))
         | None => mkWalk (JsSet.add current (visited w)) (result w)
         end.
Proof. reflexivity. Qed.

(** The skeleton shared by the inductions below: a call returns at once, or
    marks [current] and runs the loop, whose body pushes [dep] and recurses. *)
Ltac traverse_cases IH Hguard Hget acc dep Hdep Hacc Hseen :=
  rewrite traverse_S;
  match goal with
  | |- context [((?d >? maxDepth)%Z || JsSet.has ?c ?v)] =>
      destruct ((d >? maxDepth)%Z || JsSet.has c v) eqn:Hguard
  end;
  [ | match goal with
      | |- context [JsMap.get ?c adj] => destruct (JsMap.get c adj) eqn:Hget
      end;
      [ apply fold_left_invariant;
        [ intros acc dep Hdep Hacc; unfold loopBody;
          destruct (JsSet.has dep (visited acc)) eqn:Hseen; cbn [negb];
          [ | apply IH ]
        | ]
      | ] ].

Lemma traverse_extends (fuel : nat) :
  forall (current : string) (depth : Z) (w0 w : Walk),
    extends w0 w -> extends w0 (traverse adj maxDepth fuel current depth w).
Proof.
  induction fuel as [|fuel IH]; intros current depth w0 w Hw; [exact Hw|].
  assert (Hmark : extends w0 (mkWalk (JsSet.add current (visited w)) (result w))).
  { eapply extends_trans; [exact Hw|]. split; simpl; [|apply incl_refl].
    intros z Hz. apply JsSetFacts.In_add. now left. }
  traverse_cases IH Hguard Hget acc dep Hdep Hacc Hseen; try assumption.
  eapply extends_trans; [exact Hacc|]. split; simpl; [apply incl_refl|].
  apply incl_appl, incl_refl.
Qed.

Lemma loop_extends (fuel : nat) (depth : Z) (deps : list string) (w : Walk) :
  extends w (fold_left (loopBody adj maxDepth fuel depth) deps w).
Proof.
  apply fold_left_invariant; [|apply extends_refl].
  intros acc dep _ Hacc. unfold loopBody.
  destruct (JsSet.has dep (visited acc)); cbn [negb]; [assumption|].
  apply traverse_extends. eapply extends_trans; [exact Hacc|].
  split; simpl; [apply incl_refl | apply incl_appl, incl_refl].
Qed.

(** More fuel than [maxDepth + 1 - depth] changes nothing: the guard
    [depth > maxDepth] stops the recursion first. *)
Lemma traverse_fuel_irrelevant (fuel1 : nat) :
  forall (fuel2 : nat) (current : string) (depth : Z) (w : Walk),
    (maxDepth + 1 - depth <= Z.of_nat fuel1)%Z ->
    (maxDepth + 1 - depth <= Z.of_nat fuel2)%Z ->
    traverse adj maxDepth fuel1 current depth w
    = traverse adj maxDepth fuel2 current depth w.
Proof.
  induction fuel1 as [|fuel1 IH]; intros [|fuel2] current depth w H1 H2;
    try reflexivity.
  - rewrite traverse_S.
    assert ((depth >? maxDepth)%Z = true) as -> by (apply Z.gtb_lt; simpl in H1; lia).
    reflexivity.
  - rewrite traverse_S.
    assert ((depth >? maxDepth)%Z = true) as -> by (apply Z.gtb_lt; simpl in H2; lia).
    reflexivity.
  - rewrite !traverse_S.
    destruct ((depth >? maxDepth)%Z || JsSet.has current (visited w)); [reflexivity|].
    destruct (JsMap.get current adj) as [deps|]; [|reflexivity].
    generalize (mkWalk (JsSet.add current (visited w)) (result w)).
    induction deps as [|dep rest IHd]; intros acc; simpl; [reflexivity|].
    rewrite IHd. f_equal. unfold loopBody.
    destruct (JsSet.has dep (visited acc)); cbn [negb]; [reflexivity|].
    apply IH; lia.
Qed.

Section WithStart.
Variable start : string.

Lemma traverse_startExcluded (fuel : nat) :
  forall (current : string) (depth : Z) (w : Walk),
    startExcluded start w -> startExcluded start (traverse adj maxDepth fuel current depth w).
Proof.
  induction fuel as [|fuel IH]; intros current depth w Hw; [exact Hw|].
  assert (Hmark : startExcluded start (mkWalk (JsSet.add current (visited w)) (result w))).
  { destruct Hw as [Hv Hr]. split; simpl; [|assumption].
    apply JsSetFacts.In_add. now left. }
  traverse_cases IH Hguard Hget acc dep Hdep Hacc Hseen; try assumption.
  apply JsSetFacts.has_false in Hseen. destruct Hacc as [Hv Hr].
  split; simpl; [assumption|].
  rewrite in_app_iff. intros [Hin|[->|[]]]; contradiction.
Qed.

Lemma traverse_markedWerePushed (fuel : nat) :
  forall (current : string) (depth : Z) (w : Walk),
    markedWerePushed start w ->
    current = start \/ In current (result w) ->
    markedWerePushed start (traverse adj maxDepth fuel current depth w).
Proof.
  induction fuel as [|fuel IH]; intros current depth w Hw Hcur; [exact Hw|].
  assert (Hmark : markedWerePushed start (mkWalk (JsSet.add current (visited w)) (result w))).
  { intros z Hz. simpl in *. apply JsSetFacts.In_add in Hz.
    destruct Hz as [Hz| ->]; [apply Hw, Hz | exact Hcur]. }
  traverse_cases IH Hguard Hget acc dep Hdep Hacc Hseen; try assumption.
  - intros z Hz. simpl in *. destruct (Hacc z Hz) as [?|?]; [now left|].
    right. apply in_app_iff. now left.
  - right. simpl. apply in_app_iff. right. now left.
Qed.

(** After the loop over [deps], each of them is the start file or in the
    result. *)
Lemma loop_covers (fuel : nat) (depth : Z) (deps : list string) :
  forall w : Walk,
    markedWerePushed start w ->
    let w' := fold_left (loopBody adj maxDepth fuel depth) deps w in
    markedWerePushed start w'
    /\ forall z : string, In z deps -> z = start \/ In z (result w').
Proof.
  induction deps as [|dep rest IH]; intros w Hw; simpl.
  - split; [assumption | intros z []].
  - assert (Hstep : markedWerePushed start (loopBody adj maxDepth fuel depth w dep)
                    /\ (dep = start \/ In dep (result (loopBody adj maxDepth fuel depth w dep)))).
    { unfold loopBody. destruct (JsSet.has dep (visited w)) eqn:Hseen; cbn [negb].
      - apply JsSetFacts.has_In in Hseen. split; [assumption | apply Hw, Hseen].
      - assert (Hin : In dep (result (mkWalk (visited w) (result w ++ [dep]))))
          by (simpl; apply in_app_iff; right; now left).
        split.
        + apply traverse_markedWerePushed; [|now right].
          intros z Hz. simpl in *. destruct (Hw z Hz) as [?|?]; [now left|].
          right. apply in_app_iff. now left.
        + right. eapply traverse_extends; [apply extends_refl | exact Hin]. }
    destruct Hstep as [Hinv Hdep].
    destruct (IH _ Hinv) as [Hinv' Hrest]. split; [assumption|].
    intros z [<-|Hz]; [|apply Hrest, Hz].
    destruct Hdep as [?|Hin]; [now left|]. right.
    eapply loop_extends. exact Hin.
Qed.

Lemma hopsFrom_step (n : nat) (x y : string) :
  In x (hopsFrom adj n start) -> In y (lookupList x adj) -> In y (hopsFrom adj (S n) start).
Proof. intros Hx Hy. simpl. apply in_flat_map. now exists x. Qed.

(** Every pushed file is at most [maxDepth + 1] hops from the start file. *)
Lemma traverse_hopsBounded (fuel : nat) :
  forall (current : string) (depth : Z) (w : Walk),
    hopsBounded adj (maxDepth + 1) start w ->
    (0 <= depth)%Z ->
    In current (hopsFrom adj (Z.to_nat depth) start) ->
    hopsBounded adj (maxDepth + 1) start (traverse adj maxDepth fuel current depth w).
Proof.
  induction fuel as [|fuel IH]; intros current depth w Hw Hd Hcur; [exact Hw|].
  traverse_cases IH Hguard Hget acc dep Hdep Hacc Hseen; try assumption.
  all: apply orb_false_elim in Hguard as [Hdepth _].
  all: assert (Hstep : In dep (hopsFrom adj (S (Z.to_nat depth)) start))
    by (apply (hopsFrom_step _ current); [assumption | unfold lookupList; now rewrite Hget]).
  - intros z Hz. simpl in Hz. apply in_app_iff in Hz.
    destruct Hz as [Hz|[<-|[]]]; [apply Hacc, Hz|].
    exists (S (Z.to_nat depth)). split; [lia | exact Hstep].
  - lia.
  - replace (Z.to_nat (depth + 1)) with (S (Z.to_nat depth)) by lia. exact Hstep.
Qed.

End WithStart.

Lemma length_add_new (x : string) (s : JsSet.t) :
  ~ In x s -> List.length (JsSet.add x s) = S (List.length s).
Proof.
  intros Hx. unfold JsSet.add.
  apply JsSetFacts.has_false in Hx. rewrite Hx, length_app. simpl. lia.
Qed.

Lemma NoDup_snoc (x : string) (l : list string) : NoDup l -> ~ In x l -> NoDup (l ++ [x]).
Proof.
  intros Hl Hx. apply NoDup_app; [assumption | repeat constructor; intros [] |].
  intros y Hy [<-|[]]. contradiction.
Qed.

(** A duplicate-free list inside [universe] that misses one of its files is
    strictly shorter. *)
Lemma room_left (universe seen : list string) (x : string) :
  NoDup seen -> incl seen universe -> In x universe -> ~ In x seen ->
  (S (List.length seen) <= List.length universe)%nat.
Proof.
  intros Hnd Hincl Hx Hnew.
  change (S (List.length seen)) with (List.length (x :: seen)).
  apply NoDup_incl_length; [now constructor|].
  intros z [<-|Hz]; [assumption | apply Hincl, Hz].
Qed.

Section WithUniverse.
Variable universe : list string.
Hypothesis Hcovers : coversGraph adj universe.
Hypothesis Hdeep : (Z.of_nat (List.length universe) <= maxDepth)%Z.

(** When the depth bound is at least the number of files, no call is cut
    off by it, and the walk is settled after every call. *)
Lemma traverse_settled (fuel : nat) :
  forall (current : string) (depth : Z) (w : Walk),
    (maxDepth + 1 - depth <= Z.of_nat fuel)%Z ->
    NoDup (result w) -> NoDup (visited w) -> incl (visited w) universe ->
    (forall z : string, In z (result w) -> z = current \/ In z (visited w)) ->
    In current universe ->
    (depth <= Z.of_nat (List.length (visited w)))%Z ->
    settled universe (traverse adj maxDepth fuel current depth w).
Proof.
  induction fuel as [|fuel IH];
    intros current depth w Hfuel Hres Hvis Hincl Hpending Hcur Hdepth.
  - (* no fuel: the depth bound is exceeded, so [current] must be marked *)
    simpl. destruct (JsSet.has current (visited w)) eqn:Hseen.
    + apply JsSetFacts.has_In in Hseen. repeat split; try assumption.
      intros z Hz. destruct (Hpending z Hz) as [->|?]; assumption.
    + apply JsSetFacts.has_false in Hseen.
      pose proof (@room_left universe (visited w) current Hvis Hincl Hcur Hseen).
      simpl in Hfuel. lia.
  - rewrite traverse_S. destruct (JsSet.has current (visited w)) eqn:Hseen.
    + rewrite orb_true_r. apply JsSetFacts.has_In in Hseen.
      repeat split; try assumption.
      intros z Hz. destruct (Hpending z Hz) as [->|?]; assumption.
    + apply JsSetFacts.has_false in Hseen.
      pose proof (@room_left universe (visited w) current Hvis Hincl Hcur Hseen) as Hroom.
      assert ((depth >? maxDepth)%Z = false) as -> by lia.
      cbn [orb].
      set (w1 := mkWalk (JsSet.add current (visited w)) (result w)).
      assert (H1 : settled universe w1
                   /\ (depth + 1 <= Z.of_nat (List.length (visited w1)))%Z).
      { subst w1. simpl. rewrite length_add_new by assumption.
        split; [|lia]. repeat split; simpl.
        - assumption.
        - now apply JsSetFacts.NoDup_add.
        - intros z Hz. apply JsSetFacts.In_add in Hz.
          destruct Hz as [Hz| ->]; [apply Hincl, Hz | assumption].
        - intros z Hz. apply JsSetFacts.In_add.
          destruct (Hpending z Hz) as [->|?]; [now right | now left]. }
      destruct (JsMap.get current adj) as [deps|] eqn:Hget; [|apply H1].
      destruct (Hcovers current Hget) as [_ Hdeps].
      apply (fold_left_invariant
               (loopBody adj maxDepth fuel depth)
               (fun acc => settled universe acc
                           /\ (depth + 1 <= Z.of_nat (List.length (visited acc)))%Z));
        [|exact H1].
      intros acc dep Hdep [(Ar & Av & Ai & Ap) Alen]. unfold loopBody.
      destruct (JsSet.has dep (visited acc)) eqn:Hd; cbn [negb];
        [repeat split; assumption|].
      apply JsSetFacts.has_false in Hd.
      set (w2 := mkWalk (visited acc) (result acc ++ [dep])).
      assert (Hchild : settled universe (traverse adj maxDepth fuel dep (depth + 1) w2)).
      { apply IH; subst w2; simpl; try assumption.
        - lia.
        - apply NoDup_snoc; [assumption|]. intros Hin. apply Hd, Ap, Hin.
        - intros z Hz. apply in_app_iff in Hz.
          destruct Hz as [Hz|[<-|[]]]; [right; apply Ap, Hz | now left].
        - apply Hdeps, Hdep. }
      split; [exact Hchild|].
      destruct (traverse_extends fuel dep (depth + 1) (extends_refl w2)) as [Hgrow _].
      pose proof (NoDup_incl_length Av Hgrow). lia.
Qed.

End WithUniverse.
End WithGraph.

(** The shape of the top-level call for a non-negative depth bound. *)
Lemma getTransitive_unfold (adj : JsMap.t JsSet.t) (start : string) (maxDepth : Z) :
  (0 <= maxDepth)%Z ->
  getTransitive adj start maxDepth
  = result (match JsMap.get start adj with
            | Some deps =>
                fold_left (loopBody adj maxDepth (Z.to_nat maxDepth) 0) deps
                          (mkWalk [start] [])
            | None => mkWalk [start] []
            end).
Proof.
  intros Hd. unfold getTransitive.
  replace (Z.to_nat (maxDepth + 1)) with (S (Z.to_nat maxDepth)) by lia.
  rewrite traverse_S.
  assert ((0 >? maxDepth)%Z = false) as -> by lia.
  reflexivity.
Qed.

Lemma getTransitive_negative (adj : JsMap.t JsSet.t) (start : string) (maxDepth : Z) :
  (maxDepth < 0)%Z -> getTransitive adj start maxDepth = [].
Proof.
  intros Hd. unfold getTransitive.
  destruct (Z.to_nat (maxDepth + 1)) as [|fuel]; [reflexivity|].
  rewrite traverse_S.
  assert ((0 >? maxDepth)%Z = true) as -> by lia.
  reflexivity.
Qed.

Lemma start_not_in_result (adj : JsMap.t JsSet.t) (start : string) (maxDepth : Z) :
  ~ In start (getTransitive adj start maxDepth).
Proof.
  destruct (Z.lt_ge_cases maxDepth 0) as [Hneg|Hpos].
  - rewrite getTransitive_negative by assumption. intros [].
  - rewrite getTransitive_unfold by assumption.
    assert (H0 : startExcluded start (mkWalk [start] []))
      by (split; simpl; [now left | intros []]).
    destruct (JsMap.get start adj) as [deps|]; [|apply H0].
    apply (fold_left_invariant (loopBody adj maxDepth (Z.to_nat maxDepth) 0)
                               (startExcluded start)); [|exact H0].
    intros acc dep _ Hacc. unfold loopBody.
    destruct (JsSet.has dep (visited acc)) eqn:Hseen; cbn [negb]; [assumption|].
    apply traverse_startExcluded.
    apply JsSetFacts.has_false in Hseen. destruct Hacc as [Hv Hr].
    split; simpl; [assumption|].
    rewrite in_app_iff. intros [Hin|[->|[]]]; contradiction.
Qed.

Lemma direct_in_result (adj : JsMap.t JsSet.t) (start : string) (maxDepth : Z) :
  (0 <= maxDepth)%Z ->
  forall dep : string,
    In dep (lookupList start adj) -> dep <> start ->
    In dep (getTransitive adj start maxDepth).
Proof.
  intros Hd dep Hdep Hne. rewrite getTransitive_unfold by assumption.
  unfold lookupList in Hdep.
  destruct (JsMap.get start adj) as [deps|]; [|destruct Hdep].
  assert (H0 : markedWerePushed start (mkWalk [start] [])).
  { intros z [<-|[]]. now left. }
  destruct (@loop_covers adj maxDepth start (Z.to_nat maxDepth) 0%Z deps _ H0) as [_ Hall].
  destruct (Hall dep Hdep) as [?|?]; [contradiction | assumption].
Qed.

Lemma result_within_one_more_hop (adj : JsMap.t JsSet.t) (start : string) (maxDepth : Z) :
  forall file : string,
    In file (getTransitive adj start maxDepth) -> withinHops adj (maxDepth + 1) start file.
Proof.
  unfold getTransitive.
  apply (@traverse_hopsBounded adj maxDepth start (Z.to_nat (maxDepth + 1)) start 0%Z
                               (mkWalk JsSet.empty [])).
  - intros z [].
  - lia.
  - simpl. now left.
Qed.

Lemma result_NoDup_when_deep (adj : JsMap.t JsSet.t) (start : string) (maxDepth : Z)
      (universe : list string) :
  coversGraph adj universe ->
  (Z.of_nat (List.length universe) <= maxDepth)%Z ->
  NoDup (getTransitive adj start maxDepth).
Proof.
  intros Hcovers Hdeep.
  destruct (JsMap.get start adj) as [deps|] eqn:Hget.
  - destruct (Hcovers _ _ Hget) as [Hstart _].
    unfold getTransitive.
    apply (@traverse_settled adj maxDepth universe Hcovers Hdeep
                             (Z.to_nat (maxDepth + 1)) start 0%Z (mkWalk JsSet.empty []));
      simpl; try (constructor; fail); try assumption; try lia;
      intros z [].
  - rewrite getTransitive_unfold by lia. rewrite Hget. constructor.
Qed.

End TraverseFacts.

Module ClosureFacts.
Import DependencyGraphBuilder.

Lemma coversGraph_allFiles (adj : JsMap.t JsSet.t) : coversGraph adj (allFiles adj).
Proof.
  unfold coversGraph, allFiles.
  induction adj as [|[k0 members0] rest IH]; intros k members Hget; simpl in Hget.
  - discriminate.
  - simpl. destruct (String.eqb_spec k0 k) as [->|Hne].
    + injection Hget as <-. split; [now left|].
      intros z Hz. right. apply in_app_iff. now left.
    + destruct (IH k members Hget) as [Hk Hm]. split.
      * right. apply in_app_iff. now right.
      * intros z Hz. right. apply in_app_iff. right. apply Hm, Hz.
Qed.

End ClosureFacts.

(** C4, as the code has it. For every graph, start file and depth bound:
    when the bound is not negative, every direct dependent other than the
    start file itself is in the result of [getTransitiveDependents]; the
    result never contains the start file; and the result has no duplicates
    when the bound is at least the number of files of the reverse-edge map,
    so that no call is cut off by the bound. (What the result holds when a
    call is cut off is not stated here.) *)
Theorem transitive_dependents_closure
  (b : DependencyGraphBuilder.t) (file : string) (maxDepth : Z) :
  ((0 <= maxDepth)%Z ->
   forall dep : string,
     In dep (DependencyGraphBuilder.getDirectDependents b file) ->
     dep <> file ->
     In dep (DependencyGraphBuilder.getTransitiveDependents b file maxDepth))
  /\ ~ In file (DependencyGraphBuilder.getTransitiveDependents b file maxDepth)
  /\ (forall universe : list string,
         coversGraph (reverseEdges (DependencyGraphBuilder.graph b)) universe ->
         (Z.of_nat (List.length universe) <= maxDepth)%Z ->
         NoDup (DependencyGraphBuilder.getTransitiveDependents b file maxDepth)).
Proof.
  unfold DependencyGraphBuilder.getDirectDependents,
    DependencyGraphBuilder.getTransitiveDependents.
  split; [|split].
  - intros Hd dep Hdep Hne. now apply TraverseFacts.direct_in_result.
  - apply TraverseFacts.start_not_in_result.
  - intros universe Hcovers Hdeep.
    eapply TraverseFacts.result_NoDup_when_deep; eassumption.
Qed.

(** C4 on the diamond [f <- a, b <- c] with the default bound: the direct
    dependent [a] is in the result, and the result has no duplicates. *)
Lemma transitive_dependents_closure_witness :
  In "/p/src/a.ts"
     (DependencyGraphBuilder.getTransitiveDependents
        (Demo.builder Demo.diamond) "/p/src/f.ts" DependencyGraphBuilder.defaultMaxDepth)
  /\ NoDup (DependencyGraphBuilder.getTransitiveDependents
              (Demo.builder Demo.diamond) "/p/src/f.ts"
              DependencyGraphBuilder.defaultMaxDepth).
Proof.
  pose proof (transitive_dependents_closure
                (Demo.builder Demo.diamond) "/p/src/f.ts"
                DependencyGraphBuilder.defaultMaxDepth) as (Hsup & _ & Hnodup).
  split.
  - apply Hsup.
    + vm_compute. discriminate.
    + vm_compute. now left.
    + discriminate.
  - apply (Hnodup (allFiles (reverseEdges (DependencyGraphBuilder.graph
                                              (Demo.builder Demo.diamond))))).
    + apply ClosureFacts.coversGraph_allFiles.
    + vm_compute. discriminate.
Defined.

(** C4, counterexample to the claim as stated, with the default bound 10.
    A file that imports itself is its own direct dependent and is not in its
    transitive result, so the result is no superset. In the deep diamond the
    file [c], 11 hops from [n0] along two paths, is in the result twice. *)
Lemma transitive_dependents_not_superset_nor_duplicate_free :
  (In "/p/src/a.ts"
      (DependencyGraphBuilder.getDirectDependents (Demo.builder Demo.selfImport) "/p/src/a.ts")
   /\ DependencyGraphBuilder.getTransitiveDependents
        (Demo.builder Demo.selfImport) "/p/src/a.ts" DependencyGraphBuilder.defaultMaxDepth
      = [])
  /\ DependencyGraphBuilder.getTransitiveDependents
       (Demo.builder Demo.deepDiamond) "/p/src/n0.ts" DependencyGraphBuilder.defaultMaxDepth
     = ["/p/src/n1.ts"; "/p/src/n2.ts"; "/p/src/n3.ts"; "/p/src/n4.ts"; "/p/src/n5.ts";
        "/p/src/n6.ts"; "/p/src/n7.ts"; "/p/src/n8.ts"; "/p/src/n9.ts";
        "/p/src/a.ts"; "/p/src/c.ts"; "/p/src/b.ts"; "/p/src/c.ts"].
Proof.
  split; [split|].
  - vm_compute. now left.
  - vm_compute. reflexivity.
  - vm_compute. reflexivity.
Qed.

(** C7, the code at a failing input. In the chain [n0 <- n1 <- ... <- n11]
    the default bound is 10, and [getTransitiveDependents] from [n0] returns
    [n11], which cannot be reached in 10 hops or fewer: its only path has 11
    hops. With the bound 0 the result is the direct dependents, one hop
    away. *)
Lemma transitive_dependents_one_hop_past_bound :
  let b := Demo.builder (Demo.chain 11) in
  let rev := reverseEdges (DependencyGraphBuilder.graph b) in
  In "/p/src/n11.ts"
     (DependencyGraphBuilder.getTransitiveDependents
        b "/p/src/n0.ts" DependencyGraphBuilder.defaultMaxDepth)
  /\ ~ withinHops rev DependencyGraphBuilder.defaultMaxDepth "/p/src/n0.ts" "/p/src/n11.ts"
  /\ withinHops rev (DependencyGraphBuilder.defaultMaxDepth + 1) "/p/src/n0.ts" "/p/src/n11.ts"
  /\ DependencyGraphBuilder.getTransitiveDependents b "/p/src/n0.ts" 0 = ["/p/src/n1.ts"]
  /\ ~ withinHops rev 0 "/p/src/n0.ts" "/p/src/n1.ts".
Proof.
  cbv zeta. split; [|split; [|split; [|split]]].
  - vm_compute. do 10 right. now left.
  - intros [n [Hn Hin]].
    assert (Hnone :
              forallb (fun k =>
                         negb (existsb (String.eqb "/p/src/n11.ts")
                                       (hopsFrom
                                          (reverseEdges
                                             (DependencyGraphBuilder.graph
                                                (Demo.builder (Demo.chain 11))))
                                          k "/p/src/n0.ts")))
                      (seq 1 10) = true) by (vm_compute; reflexivity).
    rewrite forallb_forall in Hnone.
    assert (Hk : In n (seq 1 10))
      by (apply in_seq; unfold DependencyGraphBuilder.defaultMaxDepth in Hn; lia).
    specialize (Hnone n Hk). apply negb_true_iff in Hnone.
    assert (Hsome : existsb (String.eqb "/p/src/n11.ts")
                            (hopsFrom
                               (reverseEdges
                                  (DependencyGraphBuilder.graph
                                     (Demo.builder (Demo.chain 11))))
                               n "/p/src/n0.ts") = true).
    { apply existsb_exists. eexists. split; [exact Hin | apply String.eqb_refl]. }
    congruence.
  - exists 11%nat. split; [vm_compute; split; discriminate|].
    vm_compute. now left.
  - vm_compute. reflexivity.
  - intros [n [Hn _]]. lia.
Qed.

(** ** Impact calculator and facade *)




(** C6. For every host, graph, test mapper, options, file and symbol name:
    when the file has a node whose symbol list holds the name and whose
    export list does not, [analyzeSymbolImpact] returns an analysis of that
    symbol whose direct-caller list and transitive-caller list are both
    empty, whatever imports the file. *)
Theorem private_symbol_has_no_callers
  (H : Host) (self : ImpactCalculator.t) (b : DependencyGraphBuilder.t) (m : TestMapper.t)
  (symbolName file : string) (options : ImpactOptions) (node : GraphNode) (sym : Symbol) :
  DependencyGraphBuilder.getNode b file = Some node ->
  find (fun s => String.eqb (sym_name s) symbolName) (symbols node) = Some sym ->
  existsb (fun e => String.eqb (exp_name e) symbolName) (exports node) = false ->
  exists r : ImpactAnalysis,
    ImpactCalculator.analyzeSymbolImpact H self b m symbolName file options = Ok r
    /\ target r = sym
    /\ directCallers r = []
    /\ transitiveCallers r = [].
Proof.
  intros Hnode Hsym Hprivate.
  unfold ImpactCalculator.analyzeSymbolImpact.
  rewrite Hnode, Hsym, Hprivate.
  eexists. split; [reflexivity|]. simpl. repeat split.
Qed.

(** C6 on the service project: [helper] is declared in [user.ts] and not
    exported; two files import [user.ts]; the analysis of [helper] has no
    callers. *)
Lemma private_symbol_has_no_callers_witness :
  List.length (DependencyGraphBuilder.getDirectDependents
                 (Demo.builder Demo.service) "/p/src/user.ts") = 2%nat
  /\ exists r : ImpactAnalysis,
       ImpactCalculator.analyzeSymbolImpact
         (Demo.host Demo.service)
         (Ripple.impactCalculator (Demo.ripple Demo.service))
         (Demo.builder Demo.service)
         (Ripple.testMapper (Demo.ripple Demo.service))
         "helper" "/p/src/user.ts" noOptions = Ok r
       /\ target r = mkSymbol "helper" KFunction (mkLoc "/p/src/user.ts" 5 1)
       /\ directCallers r = []
       /\ transitiveCallers r = [].
Proof.
  split; [vm_compute; reflexivity|].
  eapply private_symbol_has_no_callers; vm_compute; reflexivity.
Defined.

(** C8, as the code has it. For every host, graph, candidate paths, target
    file and optional symbol name, the entries of [pathsToCallers] are
    exactly these: one for each import statement of each candidate file with
    a node whose normalised source matches the target file by one of the
    three heuristics. The specifiers of the import are not consulted; the
    symbol name only names the symbol of each entry. *)
Theorem callers_follow_the_file_match_only
  (H : Host) (self : ImpactCalculator.t) (b : DependencyGraphBuilder.t) (m : TestMapper.t)
  (paths : list string) (source : string) (symbolName : option string) (c : Caller) :
  In c (ImpactCalculator.pathsToCallers H self b m paths source symbolName)
  <-> exists (depPath : string) (node : GraphNode) (imp : ImportInfo),
      In depPath paths
      /\ DependencyGraphBuilder.getNode b depPath = Some node
      /\ In imp (imports node)
      /\ ImpactCalculator.matchesSourceFile
           H (ImpactCalculator.normalizeImportSource (imp_source imp)) source = true
      /\ c = mkCaller (imp_location imp)
                      (mkSymbol (ImpactCalculator.callerSymbolName H source symbolName)
                                KVariable (imp_location imp))
                      (getContextSnippet H depPath (loc_line (imp_location imp)))
                      (TestMapper.isTestFile m depPath)
                      (ImpactCalculator.isCriticalPath H self depPath).
Proof.
  unfold ImpactCalculator.pathsToCallers. rewrite in_flat_map. split.
  - intros (depPath & Hpath & Hin).
    destruct (DependencyGraphBuilder.getNode b depPath) as [node|] eqn:Hnode;
      [|destruct Hin].
    apply in_flat_map in Hin. destruct Hin as (imp & Himp & Hc).
    destruct (ImpactCalculator.matchesSourceFile H _ source) eqn:Hmatch; [|destruct Hc].
    destruct Hc as [<-|[]].
    exists depPath, node, imp. repeat split; assumption.
  - intros (depPath & node & imp & Hpath & Hnode & Himp & Hmatch & ->).
    exists depPath. split; [assumption|]. rewrite Hnode.
    apply in_flat_map. exists imp. split; [assumption|].
    rewrite Hmatch. now left.
Qed.

(** C8, counterexample to the claim as stated. [admin.ts] imports only
    [other] from [./user]; invoked with the symbol name [getUser],
    [pathsToCallers] still produces a Caller entry for that import, and the
    analysis of [getUser] reports it among the transitive callers. *)
Lemma caller_for_an_import_that_does_not_name_the_symbol :
  let H := Demo.host Demo.service in
  let r := Demo.ripple Demo.service in
  let entry :=
    mkCaller (mkLoc "/p/src/admin.ts" 1 1)
             (mkSymbol "getUser" KVariable (mkLoc "/p/src/admin.ts" 1 1))
             "" false false in
  option_map (fun node => map (fun imp => map imported (imp_specifiers imp)) (imports node))
             (DependencyGraphBuilder.getNode (Ripple.graphBuilder r) "/p/src/admin.ts")
  = Some [["other"]]
  /\ ImpactCalculator.pathsToCallers
       H (Ripple.impactCalculator r) (Ripple.graphBuilder r) (Ripple.testMapper r)
       ["/p/src/admin.ts"] "/p/src/user.ts" (Some "getUser")
     = [entry]
  /\ match Ripple.analyzeSymbol H r "getUser" "src/user.ts" noOptions with
     | Ok analysis => transitiveCallers analysis = [entry]
     | Throw _ => False
     end.
Proof. vm_compute. repeat split. Qed.

(** ** Risk input of the analyses *)

Module InputFacts.

Lemma length_append (a b : string) :
  String.length (a +++ b) = (String.length a + String.length b)%nat.
Proof. induction a as [|c a IH]; simpl; [reflexivity | now rewrite IH]. Qed.

(** A description that ends in a long enough literal is not the 21
    characters of "No test mapping found". *)
Lemma long_description (prefix rest : string) :
  (21 < String.length rest)%nat -> prefix +++ rest <> "No test mapping found".
Proof.
  intros Hlong Heq. apply (f_equal String.length) in Heq.
  rewrite length_append in Heq. simpl in Heq. lia.
Qed.

Lemma coverage_factor_of_found_mapping
      (self : RiskScorer.t) (input : RiskScorer.RiskInput) (own : TestMapping) :
  find (fun t => String.eqb (sourceFile t) (RiskScorer.filePath input))
       (RiskScorer.affectedTests input) = Some own ->
  description (RiskScorer.calculateTestCoverageFactor self input)
  <> "No test mapping found".
Proof.
  intros Hfind. unfold RiskScorer.calculateTestCoverageFactor. rewrite Hfind.
  destruct (List.length (testFiles own) =? 0)%nat; [simpl; discriminate|].
  destruct (coverage own) as [cov|]; cbn [description].
  - apply long_description. rewrite !length_append. simpl. lia.
  - apply long_description. simpl. lia.
Qed.

Section WithCalculator.
Variable H : Host.
Variable self : ImpactCalculator.t.
Variable b : DependencyGraphBuilder.t.
Variable m : TestMapper.t.

(** Whatever the callers and the dependents' mappings, an analysis finished
    on a test list that starts with the file's own mapping is scored with
    that mapping found. *)
Lemma finish_targetMappingFirst
      (tgt : Symbol) (direct transitive : list Caller) (others : list TestMapping)
      (file : string) :
  targetMappingFirst H self b m file
    (ImpactCalculator.finish H self b m tgt direct transitive
       (TestMapper.getTestsForFile H m b file :: others) file).
Proof.
  unfold targetMappingFirst, ImpactCalculator.finish, riskInputOf. cbv zeta. simpl.
  assert (Hfind :
            (if String.eqb file file
             then Some (TestMapper.getTestsForFile H m b file)
             else find (fun t => String.eqb (sourceFile t) file) others)
            = Some (TestMapper.getTestsForFile H m b file))
    by now rewrite String.eqb_refl.
  repeat split; try reflexivity.
  - exact Hfind.
  - apply coverage_factor_of_found_mapping with (own := TestMapper.getTestsForFile H m b file).
    simpl. exact Hfind.
Qed.

End WithCalculator.
End InputFacts.

(** C10. For every host, graph, test mapper, file, symbol name and options,
    an analysis returned by [analyzeFileImpact] or by [analyzeSymbolImpact]
    was scored on a risk input whose affected tests start with the test
    mapping of the analysed file itself, whose source file is that file; the
    scorer's look-up of the target's mapping finds it, and the Test Coverage
    factor of the score is not the one described as "No test mapping
    found". *)
Theorem analyses_score_with_the_target_mapping
  (H : Host) (self : ImpactCalculator.t) (b : DependencyGraphBuilder.t) (m : TestMapper.t)
  (file symbolName : string) (options : ImpactOptions) :
  (forall r : ImpactAnalysis,
      ImpactCalculator.analyzeFileImpact H self b m file options = Ok r ->
      targetMappingFirst H self b m file r)
  /\ (forall r : ImpactAnalysis,
         ImpactCalculator.analyzeSymbolImpact H self b m symbolName file options = Ok r ->
         targetMappingFirst H self b m file r).
Proof.
  split; intros r Hr.
  - unfold ImpactCalculator.analyzeFileImpact in Hr.
    destruct (DependencyGraphBuilder.getNode b file); [|discriminate].
    injection Hr as <-. apply InputFacts.finish_targetMappingFirst.
  - unfold ImpactCalculator.analyzeSymbolImpact in Hr.
    destruct (DependencyGraphBuilder.getNode b file) as [node|]; [|discriminate].
    destruct (find _ (symbols node)); [|discriminate].
    injection Hr as <-. apply InputFacts.finish_targetMappingFirst.
Qed.

(** C10 on the service project: the analysis of [user.ts] succeeds and is
    scored with the mapping of [user.ts] found. *)
Lemma analyses_score_with_the_target_mapping_witness :
  exists r : ImpactAnalysis,
    Ripple.analyzeFile (Demo.host Demo.service) (Demo.ripple Demo.service)
                       "src/user.ts" noOptions = Ok r
    /\ targetMappingFirst (Demo.host Demo.service)
                          (Ripple.impactCalculator (Demo.ripple Demo.service))
                          (Demo.builder Demo.service)
                          (Ripple.testMapper (Demo.ripple Demo.service))
                          "/p/src/user.ts" r.
Proof.
  eexists. split.
  - vm_compute. reflexivity.
  - apply (proj1 (analyses_score_with_the_target_mapping
                    (Demo.host Demo.service)
                    (Ripple.impactCalculator (Demo.ripple Demo.service))
                    (Demo.builder Demo.service)
                    (Ripple.testMapper (Demo.ripple Demo.service))
                    "/p/src/user.ts" "getUser" noOptions)).
    vm_compute. reflexivity.
Defined.

(** * Further properties *)

Module WellFormed.
Import DependencyGraphBuilder.

Lemma keys_set_present {V : Type} (k : string) (v : V) (m : JsMap.t V) :
  JsMap.has k m = true -> map fst (JsMap.set k v m) = map fst m.
Proof.
  unfold JsMap.has. induction m as [|[k0 v0] rest IH]; simpl; [discriminate|].
  destruct (String.eqb_spec k0 k) as [->|Hne]; simpl; [reflexivity|].
  intros Hk. now rewrite IH.
Qed.

Lemma set_absent {V : Type} (k : string) (v : V) (m : JsMap.t V) :
  JsMap.get k m = None -> JsMap.set k v m = m ++ [(k, v)].
Proof.
  induction m as [|[k0 v0] rest IH]; simpl; [reflexivity|].
  destruct (String.eqb k0 k); [discriminate|]. intros Hk. now rewrite IH.
Qed.

Lemma get_None_keys {V : Type} (k : string) (m : JsMap.t V) :
  JsMap.get k m = None <-> ~ In k (map fst m).
Proof.
  induction m as [|[k0 v0] rest IH]; simpl; [tauto|].
  destruct (String.eqb_spec k0 k) as [->|Hne].
  - split; [discriminate | intros Hn; exfalso; apply Hn; now left].
  - rewrite IH. tauto.
Qed.

Lemma get_In {V : Type} (k : string) (v : V) (m : JsMap.t V) :
  JsMap.get k m = Some v -> In (k, v) m.
Proof.
  induction m as [|[k0 v0] rest IH]; simpl; [discriminate|].
  destruct (String.eqb_spec k0 k) as [->|Hne].
  - intros [= ->]. now left.
  - intros Hk. right. now apply IH.
Qed.

Lemma In_get {V : Type} (k : string) (v : V) (m : JsMap.t V) :
  uniqueKeys m -> In (k, v) m -> JsMap.get k m = Some v.
Proof.
  unfold uniqueKeys. induction m as [|[k0 v0] rest IH]; simpl; [intros _ []|].
  intros Hnd [Heq|Hin].
  - injection Heq as -> ->. now rewrite String.eqb_refl.
  - inversion Hnd as [|? ? Hk0 Hrest]; subst.
    destruct (String.eqb_spec k0 k) as [->|Hne]; [|now apply IH].
    exfalso. apply Hk0. apply in_map_iff. now exists (k, v).
Qed.

Lemma In_has {V : Type} (k : string) (v : V) (m : JsMap.t V) :
  In (k, v) m -> JsMap.has k m = true.
Proof.
  intros Hin. unfold JsMap.has.
  destruct (JsMap.get k m) eqn:Hget; [reflexivity|].
  apply get_None_keys in Hget. exfalso. apply Hget.
  apply in_map_iff. now exists (k, v).
Qed.

Lemma uniqueKeys_set {V : Type} (k : string) (v : V) (m : JsMap.t V) :
  uniqueKeys m -> uniqueKeys (JsMap.set k v m).
Proof.
  unfold uniqueKeys. intros Hm.
  destruct (JsMap.get k m) eqn:Hget.
  - rewrite keys_set_present; [assumption|]. unfold JsMap.has. now rewrite Hget.
  - rewrite set_absent by assumption. rewrite map_app. simpl.
    apply TraverseFacts.NoDup_snoc; [assumption|]. now apply get_None_keys.
Qed.

Lemma keys_delete {V : Type} (k : string) (m : JsMap.t V) (x : string) :
  In x (map fst (JsMap.delete k m)) -> In x (map fst m).
Proof.
  induction m as [|[k0 v0] rest IH]; simpl; [tauto|].
  destruct (String.eqb k0 k); simpl; [now right|].
  intros [?|?]; [now left | right; now apply IH].
Qed.

Lemma uniqueKeys_delete {V : Type} (k : string) (m : JsMap.t V) :
  uniqueKeys m -> uniqueKeys (JsMap.delete k m).
Proof.
  unfold uniqueKeys. induction m as [|[k0 v0] rest IH]; simpl; [trivial|].
  intros Hnd. inversion Hnd as [|? ? Hk0 Hrest]; subst.
  destruct (String.eqb k0 k); [assumption|]. simpl. constructor; [|now apply IH].
  intros Hin. apply Hk0. eapply keys_delete, Hin.
Qed.

Lemma get_delete {V : Type} (k k' : string) (m : JsMap.t V) :
  uniqueKeys m ->
  JsMap.get k' (JsMap.delete k m) = if String.eqb k' k then None else JsMap.get k' m.
Proof.
  unfold uniqueKeys. induction m as [|[k0 v0] rest IH]; simpl; intros Hnd.
  - now destruct (String.eqb k' k).
  - inversion Hnd as [|? ? Hk0 Hrest]; subst.
    destruct (String.eqb_spec k0 k) as [->|Hne].
    + destruct (String.eqb_spec k' k) as [->|Hne'].
      * now apply get_None_keys.
      * assert (String.eqb k k' = false) as -> by (apply String.eqb_neq; congruence).
        reflexivity.
    + simpl. destruct (String.eqb_spec k0 k') as [->|Hne'].
      * assert (String.eqb k' k = false) as -> by (now apply String.eqb_neq).
        reflexivity.
      * now apply IH.
Qed.

End WellFormed.

(** ** Graph engine: what the edges are *)

Module EdgeFacts.
Import DependencyGraphBuilder.

Section WithHost.
Variable H : Host.
Variable root : string.

Lemma addImportEdge_nodes (file : string) (g : DependencyGraph) (imp : ImportInfo) :
  nodes (addImportEdge H root file g imp) = nodes g.
Proof.
  unfold addImportEdge.
  destruct (resolveImport H root (imp_source imp) file) as [r|]; [|reflexivity].
  destruct (negb (String.eqb r "") && JsMap.has r (nodes g)); reflexivity.
Qed.

Let yields := importYields H root.

Lemma addImportEdge_edges (file : string) (g : DependencyGraph) (imp : ImportInfo)
      (A B : string) :
  In B (lookupList A (edges (addImportEdge H root file g imp)))
  <-> In B (lookupList A (edges g)) \/ (A = file /\ yields (nodes g) file imp B).
Proof.
  unfold addImportEdge, yields, importYields.
  destruct (resolveImport H root (imp_source imp) file) as [r|];
    [|split; [tauto | intros [?|[_ [? _]]]; [assumption | discriminate]]].
  destruct (String.eqb_spec r "") as [->|Hr]; simpl.
  - split; [tauto|]. intros [?|(_ & [= <-] & Hne & _)]; [assumption | congruence].
  - destruct (JsMap.has r (nodes g)) eqn:Hhas; simpl.
    + rewrite GraphFacts.lookupList_addTo. split.
      * intros [?|[-> ->]]; [now left | right; repeat split; assumption].
      * intros [?|(-> & [= <-] & _)]; [now left | right; split; reflexivity].
    + split; [tauto|]. intros [?|(_ & [= <-] & _ & Hh)]; [assumption | congruence].
Qed.

Lemma fold_imports_edges (file : string) (imps : list ImportInfo) :
  forall (g : DependencyGraph) (A B : string),
    nodes (fold_left (addImportEdge H root file) imps g) = nodes g
    /\ (In B (lookupList A (edges (fold_left (addImportEdge H root file) imps g)))
        <-> In B (lookupList A (edges g))
            \/ (A = file /\ exists imp, In imp imps /\ yields (nodes g) file imp B)).
Proof.
  induction imps as [|imp rest IH]; intros g A B; simpl.
  - split; [reflexivity|]. split; [tauto | intros [?|(_ & ? & [] & _)]; assumption].
  - destruct (IH (addImportEdge H root file g imp) A B) as [Hn Hiff].
    rewrite addImportEdge_nodes in Hn, Hiff. split; [exact Hn|].
    rewrite Hiff, addImportEdge_edges. split.
    + intros [[?|[-> Hy]]|(-> & imp' & Hin & Hy)].
      * now left.
      * right. split; [reflexivity|]. exists imp. split; [now left | assumption].
      * right. split; [reflexivity|]. exists imp'. split; [now right | assumption].
    + intros [?|(-> & imp' & [<-|Hin] & Hy)].
      * left. now left.
      * left. right. split; [reflexivity | assumption].
      * right. split; [reflexivity|]. exists imp'. split; assumption.
Qed.

Lemma fold_entries_edges (entries : list (string * GraphNode)) :
  forall (g : DependencyGraph) (A B : string),
    let g' :=
      fold_left (fun acc entry =>
                   fold_left (addImportEdge H root (fst entry)) (imports (snd entry)) acc)
                entries g in
    nodes g' = nodes g
    /\ (In B (lookupList A (edges g'))
        <-> In B (lookupList A (edges g))
            \/ exists node imp,
                In (A, node) entries /\ In imp (imports node) /\ yields (nodes g) A imp B).
Proof.
  induction entries as [|[file node] rest IH]; intros g A B; simpl.
  - split; [reflexivity|]. split; [tauto | intros [?|(? & ? & [] & _)]; assumption].
  - destruct (fold_imports_edges file (imports node) g A B) as [Hn1 Hiff1].
    destruct (IH (fold_left (addImportEdge H root file) (imports node) g) A B)
      as [Hn Hiff].
    cbv zeta in Hn, Hiff. rewrite Hn1 in Hn, Hiff. split; [exact Hn|].
    rewrite Hiff, Hiff1. split.
    + intros [[?|(-> & imp & Hin & Hy)]|(node' & imp & Hin & Himp & Hy)].
      * now left.
      * right. exists node, imp. repeat split; try assumption; try apply Hy. now left.
      * right. exists node', imp. repeat split; try assumption; try apply Hy. now right.
    + intros [?|(node' & imp & [Heq|Hin] & Himp & Hy)].
      * left. now left.
      * injection Heq as -> ->. left. right. split; [reflexivity|]. now exists imp.
      * right. now exists node', imp.
Qed.

Lemma buildEdges_nodes (g : DependencyGraph) : nodes (buildEdges H root g) = nodes g.
Proof.
  unfold buildEdges.
  apply (fold_entries_edges (nodes g) (mkGraph (nodes g) JsMap.empty JsMap.empty) "" "").
Qed.

Lemma buildEdges_edges (g : DependencyGraph) (A B : string) :
  In B (lookupList A (edges (buildEdges H root g))) <-> importsResolveTo H root g A B.
Proof.
  unfold buildEdges, importsResolveTo.
  destruct (fold_entries_edges (nodes g) (mkGraph (nodes g) JsMap.empty JsMap.empty) A B)
    as [_ Hiff].
  cbv zeta in Hiff. rewrite Hiff. simpl. unfold yields, importYields. split.
  - intros [[]|(node & imp & Hin & Himp & Hr & Hne & Hhas)].
    exists node, imp. repeat split; assumption.
  - intros (node & imp & Hin & Himp & Hr & Hne & Hhas). right.
    exists node, imp. repeat split; assumption.
Qed.

Lemma buildEdges_reverseEdges (g : DependencyGraph) (A B : string) :
  In A (lookupList B (reverseEdges (buildEdges H root g))) <-> importsResolveTo H root g A B.
Proof.
  rewrite <- (GraphFacts.buildEdges_symmetric H root g A B). apply buildEdges_edges.
Qed.

Lemma importsResolveTo_nodes (g : DependencyGraph) (A B : string) :
  importsResolveTo H root g A B ->
  JsMap.has A (nodes g) = true /\ JsMap.has B (nodes g) = true.
Proof.
  intros (node & imp & Hin & _ & _ & _ & Hhas). split; [|assumption].
  eapply WellFormed.In_has, Hin.
Qed.

Lemma importsResolveTo_same_nodes (g g' : DependencyGraph) (A B : string) :
  nodes g' = nodes g -> importsResolveTo H root g' A B <-> importsResolveTo H root g A B.
Proof. intros Hn. unfold importsResolveTo. now rewrite Hn. Qed.

(** The builder [b] with its edges recomputed, as [build] and
    [updateIncremental] leave it. *)
Lemma rebuilt_edges (b : t) (A B : string) :
  let b' := withGraph b (buildEdges H (rootDir b) (graph b)) in
  rootDir b = root ->
  (In B (getDirectDependencies b' A) <-> importsResolveTo H root (graph b') A B)
  /\ (In A (getDirectDependents b' B) <-> importsResolveTo H root (graph b') A B).
Proof.
  cbv zeta. intros Hroot. unfold getDirectDependencies, getDirectDependents. simpl.
  rewrite Hroot.
  rewrite (importsResolveTo_same_nodes _ _ A B (buildEdges_nodes (graph b))).
  split; [apply buildEdges_edges | apply buildEdges_reverseEdges].
Qed.

End WithHost.

Lemma storeNode_rootDir (H : Host) (file : string) (b : t) (onError : t -> t) :
  rootDir (onError b) = rootDir b -> rootDir (storeNode H file b onError) = rootDir b.
Proof. unfold storeNode. destruct (parseNode H file); [reflexivity | trivial]. Qed.

Lemma build_rootDir (H : Host) (b : t) : rootDir (build H b) = rootDir b.
Proof.
  unfold build. simpl. generalize (discoverFiles H b) as files.
  intros files. revert b. induction files as [|f rest IH]; intros b; simpl; [reflexivity|].
  rewrite IH. now apply storeNode_rootDir.
Qed.

Lemma updateIncremental_rootDir (H : Host) (changed : list string) (b : t) :
  rootDir (updateIncremental H changed b) = rootDir b.
Proof.
  unfold updateIncremental. simpl.
  revert b. induction changed as [|f rest IH]; intros b; simpl; [reflexivity|].
  rewrite IH. rewrite storeNode_rootDir; reflexivity.
Qed.

End EdgeFacts.

(** X1. After [build] and after [updateIncremental], the edges are exactly
    the resolved imports: [B] is a direct dependency of [A], and [A] a direct
    dependent of [B], if and only if the node stored for [A] has an import
    statement that [resolveImport] resolves to [B], and [B] is a non-empty
    path with a node of its own. *)
Theorem edges_are_the_resolved_imports
  (H : Host) (b : DependencyGraphBuilder.t) (changedFiles : list string) (A B : string) :
  let built := DependencyGraphBuilder.build H b in
  let updated := DependencyGraphBuilder.updateIncremental H changedFiles b in
  let root := DependencyGraphBuilder.rootDir b in
  (In B (DependencyGraphBuilder.getDirectDependencies built A)
   <-> importsResolveTo H root (DependencyGraphBuilder.graph built) A B)
  /\ (In A (DependencyGraphBuilder.getDirectDependents built B)
      <-> importsResolveTo H root (DependencyGraphBuilder.graph built) A B)
  /\ (In B (DependencyGraphBuilder.getDirectDependencies updated A)
      <-> importsResolveTo H root (DependencyGraphBuilder.graph updated) A B)
  /\ (In A (DependencyGraphBuilder.getDirectDependents updated B)
      <-> importsResolveTo H root (DependencyGraphBuilder.graph updated) A B).
Proof.
  cbv zeta.
  assert (Hb : forall b1 : DependencyGraphBuilder.t,
             DependencyGraphBuilder.rootDir b1 = DependencyGraphBuilder.rootDir b ->
             let b' := DependencyGraphBuilder.withGraph
                         b1 (DependencyGraphBuilder.buildEdges
                               H (DependencyGraphBuilder.rootDir b1)
                               (DependencyGraphBuilder.graph b1)) in
             (In B (DependencyGraphBuilder.getDirectDependencies b' A)
              <-> importsResolveTo H (DependencyGraphBuilder.rootDir b)
                                   (DependencyGraphBuilder.graph b') A B)
             /\ (In A (DependencyGraphBuilder.getDirectDependents b' B)
                 <-> importsResolveTo H (DependencyGraphBuilder.rootDir b)
                                      (DependencyGraphBuilder.graph b') A B)).
  { intros b1 Hroot. apply EdgeFacts.rebuilt_edges. exact Hroot. }
  split; [|split; [|split]].
  - apply Hb. apply (EdgeFacts.build_rootDir H b).
  - apply Hb. apply (EdgeFacts.build_rootDir H b).
  - apply Hb. apply (EdgeFacts.updateIncremental_rootDir H changedFiles b).
  - apply Hb. apply (EdgeFacts.updateIncremental_rootDir H changedFiles b).
Qed.

(** X1 on the service project: [users.ts] imports [./user], which resolves
    to [user.ts], so [user.ts] has [users.ts] among its direct dependents. *)
Lemma edges_are_the_resolved_imports_witness :
  In "/p/src/users.ts"
     (DependencyGraphBuilder.getDirectDependents
        (DependencyGraphBuilder.build
           (Demo.host Demo.service)
           (Ripple.graphBuilder (Ripple.create "/p" Demo.config)))
        "/p/src/user.ts").
Proof.
  apply (proj1 (proj2 (edges_are_the_resolved_imports
                         (Demo.host Demo.service)
                         (Ripple.graphBuilder (Ripple.create "/p" Demo.config))
                         [] "/p/src/users.ts" "/p/src/user.ts"))).
  exists (mkNode "/p/src/users.ts" []
                 [Demo.importOf "/p/src/users.ts" 1 "./user" ["getUser"]] [] 0),
         (Demo.importOf "/p/src/users.ts" 1 "./user" ["getUser"]).
  repeat split.
  - vm_compute. right. now left.
  - now left.
  - discriminate.
Defined.

Module NoStrayEdges.
Import DependencyGraphBuilder.

Lemma no_members (l : list string) : (forall x, ~ In x l) -> l = [].
Proof. destruct l as [|x rest]; [reflexivity|]. intros Hn. exfalso. apply (Hn x). now left. Qed.

Lemma absent_node_has_false (g : DependencyGraph) (file : string) :
  JsMap.get file (nodes g) = None -> JsMap.has file (nodes g) = false.
Proof. unfold JsMap.has. now intros ->. Qed.

Lemma rebuilt_without_node (H : Host) (b1 : t) (file : string) :
  let b' := withGraph b1 (buildEdges H (rootDir b1) (graph b1)) in
  getNode b' file = None ->
  getDirectDependents b' file = []
  /\ getDirectDependencies b' file = []
  /\ (forall other : string, ~ In file (getDirectDependents b' other))
  /\ (forall other : string, ~ In file (getDirectDependencies b' other)).
Proof.
  cbv zeta. intros Hnode. unfold getNode in Hnode.
  apply absent_node_has_false in Hnode.
  assert (Hno : forall A B : string,
             importsResolveTo H (rootDir b1)
               (graph (withGraph b1 (buildEdges H (rootDir b1) (graph b1)))) A B ->
             A <> file /\ B <> file).
  { intros A B Hr. apply EdgeFacts.importsResolveTo_nodes in Hr. destruct Hr as [HA HB].
    split; intros ->; congruence. }
  pose proof (fun A B => EdgeFacts.rebuilt_edges H b1 A B eq_refl) as Hedges.
  cbv zeta in Hedges.
  repeat split.
  - apply no_members. intros x Hx. apply (Hedges x file) in Hx.
    apply Hno in Hx. now destruct Hx.
  - apply no_members. intros x Hx. apply (Hedges file x) in Hx.
    apply Hno in Hx. now destruct Hx.
  - intros other Hx. apply (Hedges file other) in Hx. apply Hno in Hx. now destruct Hx.
  - intros other Hx. apply (Hedges other file) in Hx. apply Hno in Hx. now destruct Hx.
Qed.

End NoStrayEdges.

(** X2. After [build] or [updateIncremental], a file without a node takes
    part in no edge: its direct dependents and direct dependencies are
    empty, and no file has it as a dependent or as a dependency. *)
Theorem no_edge_without_a_node
  (H : Host) (b b' : DependencyGraphBuilder.t) (changedFiles : list string) (file : string) :
  b' = DependencyGraphBuilder.build H b
  \/ b' = DependencyGraphBuilder.updateIncremental H changedFiles b ->
  DependencyGraphBuilder.getNode b' file = None ->
  DependencyGraphBuilder.getDirectDependents b' file = []
  /\ DependencyGraphBuilder.getDirectDependencies b' file = []
  /\ (forall other : string, ~ In file (DependencyGraphBuilder.getDirectDependents b' other))
  /\ (forall other : string, ~ In file (DependencyGraphBuilder.getDirectDependencies b' other)).
Proof.
  intros [->| ->]; apply NoStrayEdges.rebuilt_without_node.
Qed.

(** X2 on the service project, updated for [admin.ts]: [nope.ts] has no node
    and no dependents. *)
Lemma no_edge_without_a_node_witness :
  DependencyGraphBuilder.getDirectDependents
    (DependencyGraphBuilder.updateIncremental
       (Demo.host Demo.service) ["/p/src/admin.ts"] (Demo.builder Demo.service))
    "/p/src/nope.ts" = [].
Proof.
  apply (@no_edge_without_a_node
           (Demo.host Demo.service) (Demo.builder Demo.service)
           (DependencyGraphBuilder.updateIncremental
              (Demo.host Demo.service) ["/p/src/admin.ts"] (Demo.builder Demo.service))
           ["/p/src/admin.ts"] "/p/src/nope.ts").
  - right. reflexivity.
  - vm_compute. reflexivity.
Defined.

(** ** Graph engine: rebuilding *)

Module RebuildFacts.
Import DependencyGraphBuilder.

Lemma set_same {V : Type} (k : string) (v : V) (m : JsMap.t V) :
  JsMap.get k m = Some v -> JsMap.set k v m = m.
Proof.
  induction m as [|[k0 v0] rest IH]; simpl; [discriminate|].
  destruct (String.eqb_spec k0 k) as [->|Hne].
  - now intros [= ->].
  - intros Hk. now rewrite IH.
Qed.

Section WithHost.
Variable H : Host.


Lemma storeNode_stores (file : string) (b : t) (onError : t -> t) :
  (storedNode H) (storeNode H file b onError) file.
Proof.
  intros node Hp. unfold storeNode. rewrite Hp. simpl.
  split; apply JsMapFacts.get_set_same.
Qed.

Lemma storeNode_keeps (file other : string) (b : t) :
  (storedNode H) b other -> (storedNode H) (storeNode H file b (fun x => x)) other.
Proof.
  intros Hs node Hp. unfold storeNode.
  destruct (parseNode H file) as [n|] eqn:Hf; [|now apply Hs]. simpl.
  destruct (String.eqb_spec other file) as [->|Hne].
  - rewrite Hf in Hp. injection Hp as ->. split; apply JsMapFacts.get_set_same.
  - rewrite !JsMapFacts.get_set_other by assumption. now apply Hs.
Qed.

Lemma loop_stores (files : list string) :
  forall b : t,
    let b1 := fold_left (fun acc file => storeNode H file acc (fun x => x)) files b in
    (forall f, (storedNode H) b f -> (storedNode H) b1 f) /\ (forall f, In f files -> (storedNode H) b1 f).
Proof.
  induction files as [|file rest IH]; intros b; simpl.
  - split; [trivial | intros f []].
  - destruct (IH (storeNode H file b (fun x => x))) as [Hkeep Hall]. split.
    + intros f Hf. apply Hkeep. now apply storeNode_keeps.
    + intros f [<-|Hin]; [|now apply Hall]. apply Hkeep, storeNode_stores.
Qed.

Lemma storeNode_stored_id (file : string) (b : t) (onError : t -> t) :
  parseNode H file <> None -> (storedNode H) b file -> storeNode H file b onError = b.
Proof.
  intros Hparse Hs. unfold storeNode.
  destruct (parseNode H file) as [node|] eqn:Hp; [|congruence].
  destruct (Hs node Hp) as [Hn Hf].
  rewrite (set_same _ _ Hn), (set_same _ _ Hf).
  destruct b as [r c [n e rv] ftn]. reflexivity.
Qed.

Lemma loop_stored_id (files : list string) (b : t) :
  (forall f, In f files -> (storedNode H) b f) ->
  fold_left (fun acc file => storeNode H file acc (fun x => x)) files b = b.
Proof.
  induction files as [|file rest IH]; intros Hs; simpl; [reflexivity|].
  assert (Hid : storeNode H file b (fun x => x) = b).
  { destruct (parseNode H file) eqn:Hp.
    - apply storeNode_stored_id; [congruence | apply Hs; now left].
    - unfold storeNode. now rewrite Hp. }
  rewrite Hid. apply IH. intros f Hf. apply Hs. now right.
Qed.

Lemma buildEdges_reads_nodes_only (root : string) (g g' : DependencyGraph) :
  nodes g = nodes g' -> buildEdges H root g = buildEdges H root g'.
Proof. intros Hn. unfold buildEdges. now rewrite Hn. Qed.

Lemma rebuild_twice (b1 : t) :
  let b' := withGraph b1 (buildEdges H (rootDir b1) (graph b1)) in
  withGraph b' (buildEdges H (rootDir b') (graph b')) = b'.
Proof.
  cbv zeta. unfold withGraph. simpl. f_equal.
  apply buildEdges_reads_nodes_only. apply EdgeFacts.buildEdges_nodes.
Qed.

Lemma stored_rebuilt (b1 : t) (f : string) :
  (storedNode H) b1 f -> (storedNode H) (withGraph b1 (buildEdges H (rootDir b1) (graph b1))) f.
Proof.
  intros Hs node Hp. simpl. rewrite EdgeFacts.buildEdges_nodes. now apply Hs.
Qed.

Lemma build_stores (b : t) (f : string) : In f (discoverFiles H b) -> (storedNode H) (build H b) f.
Proof.
  intros Hin. unfold build. apply stored_rebuilt.
  now apply (loop_stores (discoverFiles H b) b).
Qed.

Lemma discoverFiles_build (b : t) : discoverFiles H (build H b) = discoverFiles H b.
Proof.
  unfold discoverFiles.
  assert (Hcfg : config (build H b) = config b).
  { unfold build. simpl. generalize (discoverFiles H b) as files. intros files.
    revert b. induction files as [|f rest IH]; intros b; simpl; [reflexivity|].
    rewrite IH. unfold storeNode. now destruct (parseNode H f). }
  now rewrite Hcfg, EdgeFacts.build_rootDir.
Qed.

Lemma update_loop_id (changed : list string) (b : t) :
  (forall f, In f changed -> parseNode H f <> None /\ (storedNode H) b f) ->
  let b1 :=
    fold_left
      (fun acc file =>
         storeNode H file (withGraph acc (removeEdgesForFile file (graph acc)))
                   (dropNode file))
      changed b in
  rootDir b1 = rootDir b /\ config b1 = config b
  /\ fileToNodeMap b1 = fileToNodeMap b /\ nodes (graph b1) = nodes (graph b).
Proof.
  revert b. induction changed as [|file rest IH]; intros b Hs; simpl.
  - repeat split.
  - destruct (Hs file (or_introl eq_refl)) as [Hparse Hst].
    set (b0 := withGraph b (removeEdgesForFile file (graph b))).
    assert (Hnodes0 : nodes (graph b0) = nodes (graph b)).
    { unfold b0, removeEdgesForFile. simpl.
      destruct (JsMap.get file (edges (graph b))); simpl;
        match goal with
        | |- context [JsMap.get file ?m] => destruct (JsMap.get file m)
        end; reflexivity. }
    assert (Hst0 : (storedNode H) b0 file).
    { intros node Hp. rewrite Hnodes0. now apply Hst. }
    rewrite (storeNode_stored_id (dropNode file) Hparse Hst0).
    destruct (IH b0) as (Hr & Hc & Hf & Hn).
    + intros f Hf. destruct (Hs f (or_intror Hf)) as [Hp' Hst']. split; [assumption|].
      intros node Hp. rewrite Hnodes0. now apply Hst'.
    + cbv zeta in Hr, Hc, Hf, Hn. rewrite Hr, Hc, Hf, Hn. repeat split. exact Hnodes0.
Qed.

End WithHost.
End RebuildFacts.

(** X3. Rebuilding is idempotent. With the files on disk unchanged, a
    second [build] returns the builder the first one returned; and
    [updateIncremental], run after a [build] on discovered files that still
    parse, returns that builder too: nodes, both adjacency maps and their
    iteration order are the same. *)
Theorem rebuild_is_idempotent
  (H : Host) (b : DependencyGraphBuilder.t) (changedFiles : list string) :
  DependencyGraphBuilder.build H (DependencyGraphBuilder.build H b)
  = DependencyGraphBuilder.build H b
  /\ ((forall f : string,
          In f changedFiles ->
          In f (DependencyGraphBuilder.discoverFiles H b) /\ parseNode H f <> None) ->
      DependencyGraphBuilder.updateIncremental
        H changedFiles (DependencyGraphBuilder.build H b)
      = DependencyGraphBuilder.build H b).
Proof.
  split.
  - unfold DependencyGraphBuilder.build at 1.
    rewrite RebuildFacts.discoverFiles_build.
    rewrite RebuildFacts.loop_stored_id.
    + unfold DependencyGraphBuilder.build. apply RebuildFacts.rebuild_twice.
    + intros f Hf. now apply RebuildFacts.build_stores.
  - intros Hchanged.
    unfold DependencyGraphBuilder.updateIncremental.
    destruct (@RebuildFacts.update_loop_id
                H changedFiles (DependencyGraphBuilder.build H b))
      as (Hr & Hc & Hf & Hn).
    { intros f Hin. destruct (Hchanged f Hin) as [Hd Hp]. split; [assumption|].
      now apply RebuildFacts.build_stores. }
    cbv zeta in Hr, Hc, Hf, Hn.
    set (b1 := fold_left _ changedFiles _) in *.
    unfold DependencyGraphBuilder.withGraph. rewrite Hr, Hc, Hf.
    rewrite (RebuildFacts.buildEdges_reads_nodes_only H _ _ _ Hn).
    exact (RebuildFacts.rebuild_twice
             H (fold_left (fun acc file =>
                             DependencyGraphBuilder.storeNode H file acc (fun x => x))
                          (DependencyGraphBuilder.discoverFiles H b) b)).
Qed.

(** X3 on the service project: updating it for [admin.ts], unchanged on
    disk, gives back the built graph. *)
Lemma rebuild_is_idempotent_witness :
  DependencyGraphBuilder.updateIncremental
    (Demo.host Demo.service) ["/p/src/admin.ts"]
    (DependencyGraphBuilder.build
       (Demo.host Demo.service) (Ripple.graphBuilder (Ripple.create "/p" Demo.config)))
  = DependencyGraphBuilder.build
      (Demo.host Demo.service) (Ripple.graphBuilder (Ripple.create "/p" Demo.config)).
Proof.
  apply (proj2 (rebuild_is_idempotent
                  (Demo.host Demo.service)
                  (Ripple.graphBuilder (Ripple.create "/p" Demo.config))
                  ["/p/src/admin.ts"])).
  intros f [<-|[]]. split.
  - vm_compute. do 2 right. now left.
  - vm_compute. discriminate.
Defined.

(** ** Graph engine: removing the edges of one file *)

Module RemoveFacts.
Import DependencyGraphBuilder.

Lemma In_set {V : Type} (k k' : string) (v v' : V) (m : JsMap.t V) :
  In (k', v') (JsMap.set k v m) -> (k' = k /\ v' = v) \/ In (k', v') m.
Proof.
  induction m as [|[k0 v0] rest IH]; simpl.
  - intros [[= <- <-]|[]]. now left.
  - destruct (String.eqb k0 k); simpl.
    + intros [[= <- <-]|Hin]; [now left | right; now right].
    + intros [Heq|Hin]; [right; now left|].
      destruct (IH Hin) as [?|?]; [now left | right; now right].
Qed.

Lemma addTo_proper (k x : string) (m : JsMap.t JsSet.t) :
  properAdjacency m -> properAdjacency (addTo k x m).
Proof.
  intros [Hkeys Hsets]. unfold addTo.
  assert (H1 : properAdjacency
                 (if JsMap.has k m then m else JsMap.set k JsSet.empty m)).
  { destruct (JsMap.has k m); [now split|]. split.
    - now apply WellFormed.uniqueKeys_set.
    - intros k' s Hin. apply In_set in Hin.
      destruct Hin as [[_ ->]|Hin]; [constructor | eapply Hsets, Hin]. }
  destruct H1 as [Hk1 Hs1].
  destruct (JsMap.get k _) as [s|] eqn:Hget; [|now split]. split.
  - now apply WellFormed.uniqueKeys_set.
  - intros k' s' Hin. apply In_set in Hin. destruct Hin as [[_ ->]|Hin].
    + apply JsSetFacts.NoDup_add. eapply Hs1, WellFormed.get_In, Hget.
    + eapply Hs1, Hin.
Qed.

Lemma buildEdges_proper (H : Host) (root : string) (g : DependencyGraph) :
  properAdjacency (edges (buildEdges H root g))
  /\ properAdjacency (reverseEdges (buildEdges H root g)).
Proof.
  unfold buildEdges.
  assert (Hempty : properAdjacency (@JsMap.empty JsSet.t))
    by (split; [constructor | intros ? ? []]).
  apply (TraverseFacts.fold_left_invariant
           (fun acc entry =>
              fold_left (addImportEdge H root (fst entry)) (imports (snd entry)) acc)
           (fun acc => properAdjacency (edges acc) /\ properAdjacency (reverseEdges acc)));
    [|split; exact Hempty].
  intros acc entry _ Hacc.
  apply (TraverseFacts.fold_left_invariant
           (addImportEdge H root (fst entry))
           (fun acc => properAdjacency (edges acc) /\ properAdjacency (reverseEdges acc)));
    [|exact Hacc].
  intros acc' imp _ [He Hr]. unfold addImportEdge.
  destruct (resolveImport H root (imp_source imp) (fst entry)) as [r|]; [|now split].
  destruct (negb (String.eqb r "") && JsMap.has r (nodes acc')); [|now split].
  simpl. split; now apply addTo_proper.
Qed.

Lemma lookupList_deleteFrom (k x k' y : string) (m : JsMap.t JsSet.t) :
  In y (lookupList k' (deleteFrom k x m))
  <-> In y (lookupList k' m) /\ ~ (k' = k /\ y = x).
Proof.
  unfold deleteFrom, lookupList.
  destruct (JsMap.get k m) as [s|] eqn:Hk.
  - destruct (String.eqb_spec k' k) as [->|Hne].
    + rewrite JsMapFacts.get_set_same, Hk, JsSetFacts.In_delete. tauto.
    + rewrite JsMapFacts.get_set_other by assumption. tauto.
  - destruct (String.eqb_spec k' k) as [->|Hne]; [rewrite Hk|]; tauto.
Qed.

Lemma deleteFrom_keys (k x : string) (m : JsMap.t JsSet.t) :
  map fst (deleteFrom k x m) = map fst m.
Proof.
  unfold deleteFrom. destruct (JsMap.get k m) eqn:Hk; [|reflexivity].
  apply WellFormed.keys_set_present. unfold JsMap.has. now rewrite Hk.
Qed.

Lemma fold_deleteFrom (x : string) (ds : list string) :
  forall (m : JsMap.t JsSet.t) (k' y : string),
    map fst (fold_left (fun acc d => deleteFrom d x acc) ds m) = map fst m
    /\ (In y (lookupList k' (fold_left (fun acc d => deleteFrom d x acc) ds m))
        <-> In y (lookupList k' m) /\ ~ (In k' ds /\ y = x)).
Proof.
  induction ds as [|d rest IH]; intros m k' y; simpl.
  - split; [reflexivity | tauto].
  - destruct (IH (deleteFrom d x m) k' y) as [Hkeys Hiff].
    rewrite deleteFrom_keys in Hkeys. split; [exact Hkeys|].
    rewrite Hiff, lookupList_deleteFrom.
    destruct (String.eqb_spec k' d) as [->|Hne]; intuition congruence.
Qed.

Lemma lookupList_delete (k k' y : string) (m : JsMap.t JsSet.t) :
  uniqueKeys m ->
  (In y (lookupList k' (JsMap.delete k m)) <-> In y (lookupList k' m) /\ k' <> k).
Proof.
  intros Hm. unfold lookupList. rewrite WellFormed.get_delete by assumption.
  destruct (String.eqb_spec k' k) as [->|Hne]; simpl; tauto.
Qed.

Section WithFile.
Variable file : string.

(** The first half of [removeEdgesForFile]: the forward edges of [file]. *)
Lemma forward_half (g : DependencyGraph) (A B : string) :
  uniqueKeys (edges g) ->
  let g1 :=
    match JsMap.get file (edges g) with
    | Some deps =>
        mkGraph (nodes g) (JsMap.delete file (edges g))
                (fold_left (fun rev dep => deleteFrom dep file rev) deps (reverseEdges g))
    | None => g
    end in
  nodes g1 = nodes g
  /\ map fst (reverseEdges g1) = map fst (reverseEdges g)
  /\ (In B (lookupList A (edges g1)) <-> In B (lookupList A (edges g)) /\ A <> file)
  /\ (In A (lookupList B (reverseEdges g1))
      <-> In A (lookupList B (reverseEdges g))
          /\ ~ (In B (lookupList file (edges g)) /\ A = file)).
Proof.
  intros Hkeys. cbv zeta.
  destruct (JsMap.get file (edges g)) as [deps|] eqn:Hget.
  - assert (Hdeps : lookupList file (edges g) = deps)
      by (unfold lookupList; now rewrite Hget).
    rewrite Hdeps. simpl.
    destruct (fold_deleteFrom file deps (reverseEdges g) B A) as [Hk Hiff].
    split; [reflexivity|]. split; [exact Hk|].
    split; [now apply lookupList_delete | exact Hiff].
  - assert (Hdeps : lookupList file (edges g) = [])
      by (unfold lookupList; now rewrite Hget).
    rewrite Hdeps. split; [reflexivity|]. split; [reflexivity|]. split.
    + split; [|tauto]. intros Hin. split; [assumption|].
      intros ->. rewrite Hdeps in Hin. destruct Hin.
    + split; [|tauto]. intros Hin. split; [assumption|]. intros [[] _].
Qed.

(** The second half: the reverse edges of [file]. *)
Lemma reverse_half (g1 : DependencyGraph) (A B : string) :
  uniqueKeys (reverseEdges g1) ->
  let g2 :=
    match JsMap.get file (reverseEdges g1) with
    | Some dependents =>
        mkGraph (nodes g1)
                (fold_left (fun fwd dependent => deleteFrom dependent file fwd)
                           dependents (edges g1))
                (JsMap.delete file (reverseEdges g1))
    | None => g1
    end in
  nodes g2 = nodes g1
  /\ (In B (lookupList A (edges g2))
      <-> In B (lookupList A (edges g1))
          /\ ~ (In A (lookupList file (reverseEdges g1)) /\ B = file))
  /\ (In A (lookupList B (reverseEdges g2))
      <-> In A (lookupList B (reverseEdges g1)) /\ B <> file).
Proof.
  intros Hkeys. cbv zeta.
  destruct (JsMap.get file (reverseEdges g1)) as [dependents|] eqn:Hget.
  - assert (Hdeps : lookupList file (reverseEdges g1) = dependents)
      by (unfold lookupList; now rewrite Hget).
    rewrite Hdeps. simpl.
    destruct (fold_deleteFrom file dependents (edges g1) A B) as [_ Hiff].
    split; [reflexivity|].
    split; [exact Hiff | now apply lookupList_delete].
  - assert (Hdeps : lookupList file (reverseEdges g1) = [])
      by (unfold lookupList; now rewrite Hget).
    rewrite Hdeps. split; [reflexivity|]. split.
    + split; [|tauto]. intros Hin. split; [assumption|]. intros [[] _].
    + split; [|tauto]. intros Hin. split; [assumption|].
      intros ->. rewrite Hdeps in Hin. destruct Hin.
Qed.

End WithFile.
End RemoveFacts.

(** X4. On a graph whose adjacency maps mirror each other,
    [removeEdgesForFile] removes exactly the edges that touch the file: the
    nodes are untouched, an edge [A -> B] remains if and only if it was there
    and neither [A] nor [B] is the file, and the two maps still mirror each
    other. *)
Theorem removeEdgesForFile_detaches_the_file (file : string) (g : DependencyGraph) :
  adjacencySymmetric g ->
  uniqueKeys (edges g) ->
  uniqueKeys (reverseEdges g) ->
  let g' := DependencyGraphBuilder.removeEdgesForFile file g in
  nodes g' = nodes g
  /\ adjacencySymmetric g'
  /\ forall A B : string,
      In B (DependencyGraphBuilder.lookupList A (edges g'))
      <-> In B (DependencyGraphBuilder.lookupList A (edges g)) /\ A <> file /\ B <> file.
Proof.
  intros Hsym Hke Hkr. cbv zeta. unfold DependencyGraphBuilder.removeEdgesForFile.
  cbv zeta.
  set (g1 := match JsMap.get file (edges g) with
             | Some deps => _
             | None => g
             end).
  pose proof (fun A B => RemoveFacts.forward_half file g A B Hke) as H1.
  cbv zeta in H1. fold g1 in H1.
  assert (Hkr1 : uniqueKeys (reverseEdges g1)).
  { unfold uniqueKeys. destruct (H1 "" "") as (_ & -> & _). exact Hkr. }
  pose proof (fun A B => RemoveFacts.reverse_half file g1 A B Hkr1) as H2.
  cbv zeta in H2.
  set (g2 := match JsMap.get file (reverseEdges g1) with
             | Some dependents => _
             | None => g1
             end) in *.
  assert (Hfwd : forall A B : string,
             In B (DependencyGraphBuilder.lookupList A (edges g2))
             <-> In B (DependencyGraphBuilder.lookupList A (edges g))
                 /\ A <> file /\ B <> file).
  { intros A B. destruct (H2 A B) as (_ & -> & _).
    destruct (H1 A B) as (_ & _ & -> & _).
    destruct (H1 A file) as (_ & _ & _ & ->).
    pose proof (Hsym A file) as Hs.
    destruct (String.eqb_spec B file) as [->|HB]; [|tauto].
    destruct (String.eqb_spec A file) as [->|HA]; tauto. }
  split; [|split; [|exact Hfwd]].
  - destruct (H2 "" "") as (-> & _). now destruct (H1 "" "") as (-> & _).
  - intros A B. rewrite Hfwd.
    destruct (H2 A B) as (_ & _ & ->). destruct (H1 A B) as (_ & _ & _ & ->).
    pose proof (Hsym A B) as Hs. pose proof (Hsym file B) as Hs'.
    destruct (String.eqb_spec A file) as [->|HA]; tauto.
Qed.

(** X4 on the built service graph: after removing the edges of [user.ts]
    the nodes are the same and the two maps still mirror each other. *)
Lemma removeEdgesForFile_detaches_the_file_witness :
  let g := DependencyGraphBuilder.buildEdges
             (Demo.host Demo.service) "/p"
             (DependencyGraphBuilder.graph (Demo.builder Demo.service)) in
  nodes (DependencyGraphBuilder.removeEdgesForFile "/p/src/user.ts" g) = nodes g
  /\ adjacencySymmetric (DependencyGraphBuilder.removeEdgesForFile "/p/src/user.ts" g).
Proof.
  cbv zeta.
  destruct (@removeEdgesForFile_detaches_the_file
              "/p/src/user.ts"
              (DependencyGraphBuilder.buildEdges
                 (Demo.host Demo.service) "/p"
                 (DependencyGraphBuilder.graph (Demo.builder Demo.service))))
    as (Hn & Hs & _).
  - apply GraphFacts.buildEdges_symmetric.
  - apply RemoveFacts.buildEdges_proper.
  - apply RemoveFacts.buildEdges_proper.
  - split; [exact Hn | exact Hs].
Defined.

(** ** Graph engine: the traversal with a deep enough bound *)

Module DeepTraversal.
Import DependencyGraphBuilder.

Lemma In_dec_string (x : string) (l : list string) : In x l \/ ~ In x l.
Proof.
  destruct (JsSet.has x l) eqn:Hx.
  - left. now apply JsSetFacts.has_In.
  - right. now apply JsSetFacts.has_false.
Qed.

Section WithUniverse.
Variable adj : JsMap.t JsSet.t.
Variable maxDepth : Z.
Variable universe : list string.
Hypothesis Hcovers : coversGraph adj universe.
Hypothesis Hdeep : (Z.of_nat (List.length universe) <= maxDepth)%Z.

Lemma closedOver_refl (w : Walk) : closedOver adj (visited w) w.
Proof. intros v Hv Hnv. contradiction. Qed.

(** Closedness composes along a walk. *)
Lemma closedOver_trans (w0 w1 w2 : Walk) :
  closedOver adj (visited w0) w1 -> closedOver adj (visited w1) w2 ->
  incl (visited w1) (visited w2) ->
  closedOver adj (visited w0) w2.
Proof.
  intros H01 H12 Hgrow v Hv Hnv n Hn.
  destruct (In_dec_string v (visited w1)) as [Hin|Hout].
  - apply Hgrow. now apply (H01 v Hin Hnv n).
  - now apply (H12 v Hv Hout n).
Qed.

(** With a deep enough bound, a call marks [current] and leaves every
    newly marked file with all its adjacency entries marked. *)
Lemma traverse_closed (fuel : nat) :
  forall (current : string) (depth : Z) (w : Walk),
    (maxDepth + 1 - depth <= Z.of_nat fuel)%Z ->
    NoDup (result w) -> NoDup (visited w) -> incl (visited w) universe ->
    (forall z : string, In z (result w) -> z = current \/ In z (visited w)) ->
    In current universe ->
    (depth <= Z.of_nat (List.length (visited w)))%Z ->
    In current (visited (traverse adj maxDepth fuel current depth w))
    /\ closedOver adj (visited w) (traverse adj maxDepth fuel current depth w).
Proof.
  induction fuel as [|fuel IH];
    intros current depth w Hfuel Hres Hvis Hincl Hpending Hcur Hdepth.
  - simpl. destruct (In_dec_string current (visited w)) as [Hseen|Hnew].
    + split; [assumption | apply closedOver_refl].
    + pose proof (@TraverseFacts.room_left universe (visited w) current
                                           Hvis Hincl Hcur Hnew).
      simpl in Hfuel. lia.
  - rewrite TraverseFacts.traverse_S.
    destruct (JsSet.has current (visited w)) eqn:Hseen.
    + rewrite orb_true_r. apply JsSetFacts.has_In in Hseen.
      split; [assumption | apply closedOver_refl].
    + apply JsSetFacts.has_false in Hseen.
      pose proof (@TraverseFacts.room_left universe (visited w) current
                                           Hvis Hincl Hcur Hseen) as Hroom.
      assert ((depth >? maxDepth)%Z = false) as -> by lia.
      cbn [orb].
      set (w1 := mkWalk (JsSet.add current (visited w)) (result w)).
      assert (Hcur1 : In current (visited w1))
        by (apply JsSetFacts.In_add; now right).
      assert (Hset1 : settled universe w1).
      { repeat split; simpl.
        - assumption.
        - now apply JsSetFacts.NoDup_add.
        - intros z Hz. apply JsSetFacts.In_add in Hz.
          destruct Hz as [Hz| ->]; [apply Hincl, Hz | assumption].
        - intros z Hz. apply JsSetFacts.In_add.
          destruct (Hpending z Hz) as [->|?]; [now right | now left]. }
      assert (Hlen1 : (depth + 1 <= Z.of_nat (List.length (visited w1)))%Z).
      { simpl. rewrite TraverseFacts.length_add_new by assumption. lia. }
      assert (Hgrow1 : incl (visited w) (visited w1)).
      { intros z Hz. apply JsSetFacts.In_add. now left. }
      destruct (JsMap.get current adj) as [deps|] eqn:Hget.
      * destruct (Hcovers current Hget) as [_ Hdeps].
        assert (Hloop :
                  forall (ds : list string) (acc : Walk),
                    incl ds universe -> settled universe acc ->
                    (depth + 1 <= Z.of_nat (List.length (visited acc)))%Z ->
                    (forall d : string,
                        In d ds ->
                        In d (visited (fold_left (loopBody adj maxDepth fuel depth) ds acc)))
                    /\ closedOver adj (visited acc)
                                  (fold_left (loopBody adj maxDepth fuel depth) ds acc)).
        { induction ds as [|dep rest IHds]; intros acc Hds Hacc Hlen; simpl.
          - split; [intros d [] | apply closedOver_refl].
          - set (acc1 := loopBody adj maxDepth fuel depth acc dep).
            assert (H1 : settled universe acc1
                         /\ (depth + 1 <= Z.of_nat (List.length (visited acc1)))%Z
                         /\ In dep (visited acc1)
                         /\ closedOver adj (visited acc) acc1).
            { subst acc1. unfold loopBody.
              destruct (JsSet.has dep (visited acc)) eqn:Hd; cbn [negb].
              - apply JsSetFacts.has_In in Hd.
                split; [exact Hacc|]. split; [exact Hlen|].
                split; [exact Hd | apply closedOver_refl].
              - apply JsSetFacts.has_false in Hd.
                destruct Hacc as (Ar & Av & Ai & Ap).
                set (w2 := mkWalk (visited acc) (result acc ++ [dep])).
                assert (Hpre : NoDup (result w2)
                               /\ (forall z : string,
                                      In z (result w2) -> z = dep \/ In z (visited w2))).
                { split; simpl.
                  - apply TraverseFacts.NoDup_snoc; [assumption|].
                    intros Hin. apply Hd, Ap, Hin.
                  - intros z Hz. apply in_app_iff in Hz.
                    destruct Hz as [Hz|[<-|[]]]; [right; apply Ap, Hz | now left]. }
                destruct Hpre as [Hnd2 Hpend2].
                assert (Hfuel2 : (maxDepth + 1 - (depth + 1) <= Z.of_nat fuel)%Z) by lia.
                assert (Hdep : In dep universe) by (apply Hds; now left).
                pose proof (@TraverseFacts.traverse_settled
                              adj maxDepth universe Hcovers Hdeep fuel dep (depth + 1)%Z w2
                              Hfuel2 Hnd2 Av Ai Hpend2 Hdep Hlen) as Hset.
                destruct (IH dep (depth + 1)%Z w2 Hfuel2 Hnd2 Av Ai Hpend2 Hdep Hlen)
                  as [Hin Hclosed].
                destruct (TraverseFacts.traverse_extends
                            adj maxDepth fuel dep (depth + 1)
                            (TraverseFacts.extends_refl w2)) as [Hgrow _].
                pose proof (NoDup_incl_length Av Hgrow).
                split; [exact Hset|]. split; [simpl in *; lia|].
                split; [exact Hin | exact Hclosed]. }
            destruct H1 as (Hset1' & Hlen1' & Hdepin & Hclosed1).
            destruct (IHds acc1 (fun z Hz => Hds z (or_intror Hz)) Hset1' Hlen1')
              as [Hall Hclosed].
            destruct (TraverseFacts.loop_extends adj maxDepth fuel depth rest acc1)
              as [Hgrow _].
            split.
            + intros d [<-|Hd]; [apply Hgrow, Hdepin | apply Hall, Hd].
            + eapply closedOver_trans; eassumption. }
        destruct (Hloop deps w1 Hdeps Hset1 Hlen1) as [Hall Hclosed].
        destruct (TraverseFacts.loop_extends adj maxDepth fuel depth deps w1) as [Hgrow _].
        split; [apply Hgrow, Hcur1|].
        intros v Hv Hnv n Hn.
        destruct (In_dec_string v (visited w1)) as [Hin|Hout].
        -- simpl in Hin. apply JsSetFacts.In_add in Hin.
           destruct Hin as [?| ->]; [contradiction|].
           apply Hall. unfold lookupList in Hn. now rewrite Hget in Hn.
        -- now apply (Hclosed v Hv Hout n).
      * split; [exact Hcur1|].
        intros v Hv Hnv n Hn. simpl in Hv. apply JsSetFacts.In_add in Hv.
        destruct Hv as [?| ->]; [contradiction|].
        unfold lookupList in Hn. rewrite Hget in Hn. destruct Hn.
Qed.

End WithUniverse.

Lemma hops_stay_at_isolated_start (adj : JsMap.t JsSet.t) (start : string) (n : nat) :
  JsMap.get start adj = None -> forall y : string, In y (hopsFrom adj n start) -> y = start.
Proof.
  intros Hget. induction n as [|k IH]; intros y Hy; simpl in Hy.
  - destruct Hy as [<-|[]]. reflexivity.
  - apply in_flat_map in Hy. destruct Hy as (x & Hx & Hy).
    rewrite (IH x Hx) in Hy. unfold lookupList in Hy. rewrite Hget in Hy. destruct Hy.
Qed.

Lemma closed_holds_reachable (adj : JsMap.t JsSet.t) (start : string) (w : Walk) :
  In start (visited w) -> closedOver adj [] w ->
  forall (n : nat) (y : string), In y (hopsFrom adj n start) -> In y (visited w).
Proof.
  intros Hstart Hclosed. induction n as [|k IH]; intros y Hy; simpl in Hy.
  - destruct Hy as [<-|[]]. assumption.
  - apply in_flat_map in Hy. destruct Hy as (x & Hx & Hy).
    apply (Hclosed x (IH x Hx) (fun F => F) y Hy).
Qed.

Lemma getTransitive_exact (adj : JsMap.t JsSet.t) (start : string) (maxDepth : Z)
      (universe : list string) :
  coversGraph adj universe ->
  (Z.of_nat (List.length universe) <= maxDepth)%Z ->
  forall y : string,
    In y (getTransitive adj start maxDepth) <-> y <> start /\ reachable adj start y.
Proof.
  intros Hcovers Hdeep y. split.
  - intros Hy. split.
    + intros ->. now apply (TraverseFacts.start_not_in_result adj start maxDepth).
    + destruct (TraverseFacts.result_within_one_more_hop adj start maxDepth y Hy)
        as (n & _ & Hn).
      now exists n.
  - intros [Hne (n & Hn)].
    destruct (JsMap.get start adj) as [deps|] eqn:Hget.
    + destruct (Hcovers _ _ Hget) as [Hstart _].
      unfold getTransitive.
      set (w0 := mkWalk JsSet.empty []).
      assert (Hfuel : (maxDepth + 1 - 0 <= Z.of_nat (Z.to_nat (maxDepth + 1)))%Z) by lia.
      assert (Hlen : (0 <= Z.of_nat (List.length (visited w0)))%Z) by (simpl; lia).
      destruct (@traverse_closed
                  adj maxDepth universe Hcovers Hdeep (Z.to_nat (maxDepth + 1))
                  start 0%Z w0 Hfuel (NoDup_nil _) (NoDup_nil _)
                  (fun z (Hz : In z []) => match Hz with end)
                  (fun z (Hz : In z []) => match Hz with end)
                  Hstart Hlen) as [Hin Hclosed].
      pose proof (@closed_holds_reachable adj start _ Hin Hclosed n y Hn) as Hvis.
      assert (Hpushed :
                markedWerePushed
                  start (traverse adj maxDepth (Z.to_nat (maxDepth + 1)) start 0 w0)).
      { apply TraverseFacts.traverse_markedWerePushed; [intros z [] | now left]. }
      destruct (Hpushed y Hvis) as [?|?]; [contradiction | assumption].
    + exfalso. apply Hne. eapply (@hops_stay_at_isolated_start adj start n); eassumption.
Qed.

End DeepTraversal.

(** X5. With a depth bound at least as large as the number of files in the
    reverse-edge map, [getTransitiveDependents] returns exactly the
    transitive closure: a file is in the result if and only if it is not the
    start file and can be reached from it along reverse edges. *)
Theorem deep_bound_gives_all_transitive_dependents
  (b : DependencyGraphBuilder.t) (file : string) (maxDepth : Z) (universe : list string) :
  coversGraph (reverseEdges (DependencyGraphBuilder.graph b)) universe ->
  (Z.of_nat (List.length universe) <= maxDepth)%Z ->
  forall y : string,
    In y (DependencyGraphBuilder.getTransitiveDependents b file maxDepth)
    <-> y <> file /\ reachable (reverseEdges (DependencyGraphBuilder.graph b)) file y.
Proof.
  intros Hcovers Hdeep. unfold DependencyGraphBuilder.getTransitiveDependents.
  now apply DeepTraversal.getTransitive_exact with (universe := universe).
Qed.

(** X5 on the diamond [f <- a, b <- c] with the default bound: [c], two
    hops from [f], is in the result. *)
Lemma deep_bound_gives_all_transitive_dependents_witness :
  In "/p/src/c.ts"
     (DependencyGraphBuilder.getTransitiveDependents
        (Demo.builder Demo.diamond) "/p/src/f.ts" DependencyGraphBuilder.defaultMaxDepth).
Proof.
  apply (@deep_bound_gives_all_transitive_dependents
           (Demo.builder Demo.diamond) "/p/src/f.ts" DependencyGraphBuilder.defaultMaxDepth
           (allFiles (reverseEdges (DependencyGraphBuilder.graph (Demo.builder Demo.diamond))))).
  - apply ClosureFacts.coversGraph_allFiles.
  - vm_compute. discriminate.
  - split; [discriminate|]. exists 2%nat. vm_compute. now left.
Defined.

(** X6. Whatever the bound, every file [getTransitiveDependents] returns is
    a transitive dependent: it is not the start file and it is reached from
    the start file by at least one and at most [maxDepth + 1] reverse
    edges. *)
Theorem transitive_dependents_are_reachable
  (b : DependencyGraphBuilder.t) (file : string) (maxDepth : Z) (y : string) :
  In y (DependencyGraphBuilder.getTransitiveDependents b file maxDepth) ->
  y <> file
  /\ withinHops (reverseEdges (DependencyGraphBuilder.graph b)) (maxDepth + 1) file y.
Proof.
  unfold DependencyGraphBuilder.getTransitiveDependents. intros Hy. split.
  - intros ->. now apply (TraverseFacts.start_not_in_result _ _ _ Hy).
  - now apply TraverseFacts.result_within_one_more_hop.
Qed.

(** X6 on the chain [n0 <- n1 <- n2 <- n3] with the bound 1: [n2] is
    returned and is within two hops. *)
Lemma transitive_dependents_are_reachable_witness :
  withinHops (reverseEdges (DependencyGraphBuilder.graph (Demo.builder (Demo.chain 3))))
             2 "/p/src/n0.ts" "/p/src/n2.ts".
Proof.
  apply (@transitive_dependents_are_reachable
           (Demo.builder (Demo.chain 3)) "/p/src/n0.ts" 1 "/p/src/n2.ts").
  vm_compute. right. now left.
Defined.

(** X7. [getTransitiveDependencies] walks the forward edges the same way:
    its result never contains the start file; with a non-negative bound it
    contains every direct dependency other than the start file; every file
    in it is reached by at least one and at most [maxDepth + 1] forward
    edges; and with a bound at least the number of files in the forward-edge
    map it is exactly the set of files reachable along forward edges, the
    start file left out, without duplicates. *)
Theorem transitive_dependencies_closure
  (b : DependencyGraphBuilder.t) (file : string) (maxDepth : Z) :
  let fwd := edges (DependencyGraphBuilder.graph b) in
  let deps := DependencyGraphBuilder.getTransitiveDependencies b file maxDepth in
  ~ In file deps
  /\ ((0 <= maxDepth)%Z ->
      forall dep : string,
        In dep (DependencyGraphBuilder.getDirectDependencies b file) -> dep <> file ->
        In dep deps)
  /\ (forall y : string, In y deps -> withinHops fwd (maxDepth + 1) file y)
  /\ (forall universe : list string,
         coversGraph fwd universe ->
         (Z.of_nat (List.length universe) <= maxDepth)%Z ->
         NoDup deps
         /\ forall y : string, In y deps <-> y <> file /\ reachable fwd file y).
Proof.
  cbv zeta. unfold DependencyGraphBuilder.getTransitiveDependencies,
              DependencyGraphBuilder.getDirectDependencies.
  split; [|split; [|split]].
  - apply TraverseFacts.start_not_in_result.
  - intros Hd dep Hdep Hne. now apply TraverseFacts.direct_in_result.
  - apply TraverseFacts.result_within_one_more_hop.
  - intros universe Hcovers Hdeep. split.
    + eapply TraverseFacts.result_NoDup_when_deep; eassumption.
    + now apply DeepTraversal.getTransitive_exact with (universe := universe).
Qed.

(** X7 on the diamond: from [c], which imports [a] and [b], which import
    [f], the transitive dependencies with the default bound hold [f]. *)
Lemma transitive_dependencies_closure_witness :
  In "/p/src/f.ts"
     (DependencyGraphBuilder.getTransitiveDependencies
        (Demo.builder Demo.diamond) "/p/src/c.ts" DependencyGraphBuilder.defaultMaxDepth).
Proof.
  destruct (transitive_dependencies_closure
              (Demo.builder Demo.diamond) "/p/src/c.ts"
              DependencyGraphBuilder.defaultMaxDepth) as (_ & _ & _ & Hexact).
  destruct (Hexact (allFiles (edges (DependencyGraphBuilder.graph
                                       (Demo.builder Demo.diamond)))))
    as [_ Hiff].
  - apply ClosureFacts.coversGraph_allFiles.
  - vm_compute. discriminate.
  - apply Hiff. split; [discriminate|]. exists 2%nat. vm_compute. now left.
Defined.

(** ** Graph engine: statistics *)

Module StatsFacts.
Import GraphStore.




End StatsFacts.



(** ** Graph engine: the cache *)

Module CacheFacts.
Import DependencyGraphBuilder.

Lemma set_chain {V : Type} (entries : list (string * V)) :
  forall acc : JsMap.t V,
    uniqueKeys (acc ++ entries) ->
    fold_left (fun m kv => JsMap.set (fst kv) (snd kv) m) entries acc = acc ++ entries.
Proof.
  unfold uniqueKeys.
  induction entries as [|[k v] rest IH]; intros acc Hnd; simpl.
  - now rewrite app_nil_r.
  - assert (Hk : JsMap.get k acc = None).
    { apply WellFormed.get_None_keys. rewrite map_app in Hnd. simpl in Hnd.
      apply NoDup_remove_2 in Hnd. intros Hin. apply Hnd, in_or_app. now left. }
    rewrite WellFormed.set_absent by assumption.
    rewrite IH; rewrite <- app_assoc; [reflexivity | exact Hnd].
Qed.

Lemma map_ofList {V : Type} (m : JsMap.t V) : uniqueKeys m -> JsMap.ofList m = m.
Proof. intros Hm. unfold JsMap.ofList. now rewrite set_chain. Qed.

Lemma add_chain (xs : list string) :
  forall acc : JsSet.t,
    NoDup (acc ++ xs) -> fold_left (fun s x => JsSet.add x s) xs acc = acc ++ xs.
Proof.
  induction xs as [|x rest IH]; intros acc Hnd; cbn [fold_left].
  - now rewrite app_nil_r.
  - assert (Hx : JsSet.has x acc = false).
    { apply JsSetFacts.has_false. apply NoDup_remove_2 in Hnd.
      intros Hin. apply Hnd, in_or_app. now left. }
    replace (JsSet.add x acc) with (acc ++ [x])
      by (unfold JsSet.add; now rewrite Hx).
    rewrite IH; rewrite <- app_assoc; [reflexivity | exact Hnd].
Qed.

Lemma set_ofList (s : JsSet.t) : NoDup s -> JsSet.ofList s = s.
Proof. intros Hs. unfold JsSet.ofList. now rewrite add_chain. Qed.

Lemma sets_ofList (m : JsMap.t JsSet.t) :
  (forall k s, In (k, s) m -> NoDup s) ->
  map (fun kv => (fst kv, JsSet.ofList (snd kv))) m = m.
Proof.
  induction m as [|[k s] rest IH]; intros Hs; simpl; [reflexivity|].
  rewrite (set_ofList (Hs k s (or_introl eq_refl))).
  rewrite IH; [reflexivity|]. intros k' s' Hin. apply (Hs k' s'). now right.
Qed.

Lemma adjacency_round_trip (m : JsMap.t JsSet.t) :
  properAdjacency m ->
  JsMap.ofList (map (fun kv => (fst kv, JsSet.ofList (snd kv))) m) = m.
Proof.
  intros [Hk Hs]. rewrite sets_ofList by assumption. now apply map_ofList.
Qed.

End CacheFacts.

(** X9. The cache round trip. When the cache file holds what [saveCache]
    writes for a graph [g], [loadCache] leaves the builder with exactly [g]
    (same nodes, same edges, same iteration order) and reports the cache
    valid if and only if no file of the node table is missing or newer on
    disk than its node; the graph is replaced by [g] even when the cache is
    reported stale. A missing or unreadable cache file, or one with another
    version tag, is reported invalid and leaves the builder untouched. *)
Theorem cache_round_trip (H : Host) (b : DependencyGraphBuilder.t) :
  (forall g : DependencyGraph,
      properGraph g ->
      readCache H (GraphStore.cacheFileOf H b) = Some (GraphStore.cacheDataOf g) ->
      snd (DependencyGraphBuilder.loadCache H b) = DependencyGraphBuilder.withGraph b g
      /\ (fst (DependencyGraphBuilder.loadCache H b) = true <-> nothingNewer H g))
  /\ (readCache H (GraphStore.cacheFileOf H b) = None ->
      DependencyGraphBuilder.loadCache H b = (false, b))
  /\ (forall snapshot : CacheSnapshot,
         readCache H (GraphStore.cacheFileOf H b) = Some snapshot ->
         snap_version snapshot <> 1%Z ->
         DependencyGraphBuilder.loadCache H b = (false, b)).
Proof.
  unfold GraphStore.cacheFileOf, DependencyGraphBuilder.loadCache.
  split; [|split].
  - intros g (Hn & He & Hr) Hread. rewrite Hread. simpl.
    rewrite (CacheFacts.map_ofList Hn), (CacheFacts.adjacency_round_trip He),
      (CacheFacts.adjacency_round_trip Hr).
    split; [now destruct g|].
    rewrite forallb_forall. unfold nothingNewer. split.
    + intros Hall file node Hin. specialize (Hall (file, node) Hin). simpl in Hall.
      destruct (mtimeMs H file) as [mtime|]; [|discriminate].
      exists mtime. split; [reflexivity | now apply Qle_bool_iff].
    + intros Hall [file node] Hin. simpl.
      destruct (Hall file node Hin) as (mtime & -> & Hle). now apply Qle_bool_iff.
  - intros ->. reflexivity.
  - intros snapshot -> Hv.
    assert ((snap_version snapshot =? 1)%Z = false) as -> by now apply Z.eqb_neq.
    reflexivity.
Qed.

(** X9 on the service project: a cache file holding the built graph, with
    every file as old as its node, loads as that graph and is valid. *)
Lemma cache_round_trip_witness :
  let g := DependencyGraphBuilder.graph (Demo.builder Demo.service) in
  let H := DemoMore.withCache (Demo.host Demo.service) (GraphStore.cacheDataOf g) 0 in
  let fresh := Ripple.graphBuilder (Ripple.create "/p" Demo.config) in
  DependencyGraphBuilder.graph (snd (DependencyGraphBuilder.loadCache H fresh)) = g.
Proof.
  cbv zeta.
  destruct (cache_round_trip
              (DemoMore.withCache
                 (Demo.host Demo.service)
                 (GraphStore.cacheDataOf
                    (DependencyGraphBuilder.graph (Demo.builder Demo.service))) 0)
              (Ripple.graphBuilder (Ripple.create "/p" Demo.config))) as (Hload & _).
  destruct (Hload (DependencyGraphBuilder.graph (Demo.builder Demo.service))) as [-> _].
  - split; [|apply (RemoveFacts.buildEdges_proper (Demo.host Demo.service) "/p")].
    vm_compute. repeat constructor; simpl; intuition discriminate.
  - reflexivity.
  - reflexivity.
Defined.

(** ** Graph engine: symbol usages *)

Module UsageFacts.
Import DependencyGraphBuilder.

Lemma resolvesTo_true (H : Host) (root : string) (imp : ImportInfo) (from target : string) :
  GraphStore.resolvesTo H root imp from target = true
  <-> resolveImport H root (imp_source imp) from = Some target.
Proof.
  unfold GraphStore.resolvesTo.
  destruct (resolveImport H root (imp_source imp) from) as [r|]; [|split; discriminate].
  rewrite String.eqb_eq. split; [now intros -> | now intros [= ->]].
Qed.

(** The usages reported for one candidate file. *)
Lemma usages_of_candidate (H : Host) (b : t) (symbolName definedInFile A : string)
      (loc : FileLocation) :
  In loc (match getNode b A with
          | None => []
          | Some depNode =>
              flat_map
                (fun imp =>
                   if GraphStore.resolvesTo H (rootDir b) imp A definedInFile then
                     map (fun _ => imp_location imp)
                         (filter (GraphStore.namesSymbol symbolName) (imp_specifiers imp))
                   else [])
                (imports depNode)
          end)
  <-> exists imp : ImportInfo,
      usageAt H b symbolName definedInFile A imp /\ loc = imp_location imp.
Proof.
  unfold usageAt. destruct (getNode b A) as [nodeA|].
  - rewrite in_flat_map. split.
    + intros (imp & Himp & Hloc).
      destruct (GraphStore.resolvesTo H (rootDir b) imp A definedInFile) eqn:Hres;
        [|destruct Hloc].
      apply resolvesTo_true in Hres. apply in_map_iff in Hloc.
      destruct Hloc as (spec & <- & Hspec). apply filter_In in Hspec.
      exists imp. split; [|reflexivity].
      exists nodeA. repeat split; try assumption. now exists spec.
    + intros (imp & (nodeA' & [= <-] & Himp & Hres & spec & Hspec & Hname) & ->).
      exists imp. split; [assumption|].
      apply resolvesTo_true in Hres. rewrite Hres.
      apply in_map_iff. exists spec. split; [reflexivity|].
      apply filter_In. now split.
  - split; [intros [] | intros (imp & (nodeA & Hn & _) & _); discriminate].
Qed.

End UsageFacts.

(** X10. [findSymbolUsages] reports import statements only: a location is
    in its result if and only if the defining file has a node and the
    location is that of an import statement, in the defining file itself or
    in one of its transitive dependents (default bound), that resolves to the
    defining file and has a specifier naming the symbol. After [build], an
    import statement in any file of the graph other than the defining file
    that resolves to it and names the symbol is reported, because such a file
    is a direct dependent. *)
Theorem findSymbolUsages_reports_resolved_imports
  (H : Host) (b : DependencyGraphBuilder.t) (symbolName definedInFile : string) :
  (forall loc : FileLocation,
      In loc (GraphStore.findSymbolUsages H b symbolName definedInFile)
      <-> DependencyGraphBuilder.getNode b definedInFile <> None
          /\ exists (A : string) (imp : ImportInfo),
              (A = definedInFile
               \/ In A (DependencyGraphBuilder.getTransitiveDependents
                          b definedInFile DependencyGraphBuilder.defaultMaxDepth))
              /\ usageAt H b symbolName definedInFile A imp
              /\ loc = imp_location imp)
  /\ (forall (A : string) (imp : ImportInfo),
         let built := DependencyGraphBuilder.build H b in
         definedInFile <> "" ->
         DependencyGraphBuilder.getNode built definedInFile <> None ->
         usageAt H built symbolName definedInFile A imp ->
         In (imp_location imp)
            (GraphStore.findSymbolUsages H built symbolName definedInFile)).
Proof.
  assert (Hchar : forall (b0 : DependencyGraphBuilder.t) (loc : FileLocation),
             In loc (GraphStore.findSymbolUsages H b0 symbolName definedInFile)
             <-> DependencyGraphBuilder.getNode b0 definedInFile <> None
                 /\ exists (A : string) (imp : ImportInfo),
                     (A = definedInFile
                      \/ In A (DependencyGraphBuilder.getTransitiveDependents
                                 b0 definedInFile DependencyGraphBuilder.defaultMaxDepth))
                     /\ usageAt H b0 symbolName definedInFile A imp
                     /\ loc = imp_location imp).
  { intros b0 loc. unfold GraphStore.findSymbolUsages.
    destruct (DependencyGraphBuilder.getNode b0 definedInFile) as [nodeF|] eqn:HF.
    - rewrite in_flat_map. split.
      + intros (A & HA & Hloc). split; [discriminate|].
        apply UsageFacts.usages_of_candidate in Hloc.
        destruct Hloc as (imp & Huse & ->).
        exists A, imp. repeat split; try assumption.
        destruct HA as [<-|HA]; [now left | now right].
      + intros (_ & A & imp & HA & Huse & ->).
        exists A. split.
        * destruct HA as [->|HA]; [now left | now right].
        * apply UsageFacts.usages_of_candidate. now exists imp.
    - split; [intros [] | intros [Hn _]; congruence]. }
  split; [apply Hchar|].
  intros A imp built Hne HF Huse. apply Hchar. split; [assumption|].
  exists A, imp. split; [|split; [assumption | reflexivity]].
  destruct (String.eqb_spec A definedInFile) as [->|HA]; [now left|]. right.
  unfold DependencyGraphBuilder.getTransitiveDependents.
  apply TraverseFacts.direct_in_result;
    [unfold DependencyGraphBuilder.defaultMaxDepth; lia | | assumption].
  destruct Huse as (nodeA & HnodeA & Himp & Hres & _).
  subst built. unfold DependencyGraphBuilder.build in *.
  set (b1 := fold_left
               (fun acc file => DependencyGraphBuilder.storeNode H file acc (fun x => x))
               (DependencyGraphBuilder.discoverFiles H b) b) in *.
  apply (proj2 (EdgeFacts.rebuilt_edges H b1 A definedInFile eq_refl)).
  exists nodeA, imp. repeat split; try assumption.
  - apply WellFormed.get_In. exact HnodeA.
  - unfold JsMap.has. unfold DependencyGraphBuilder.getNode in HF.
    destruct (JsMap.get definedInFile _); [reflexivity | congruence].
Qed.

(** X10 on the service project: the import of [getUser] in [users.ts] is a
    usage of [getUser] of [user.ts]. *)
Lemma findSymbolUsages_reports_resolved_imports_witness :
  In (mkLoc "/p/src/users.ts" 1 1)
     (GraphStore.findSymbolUsages
        (Demo.host Demo.service)
        (DependencyGraphBuilder.build
           (Demo.host Demo.service) (Ripple.graphBuilder (Ripple.create "/p" Demo.config)))
        "getUser" "/p/src/user.ts").
Proof.
  refine (proj2 (findSymbolUsages_reports_resolved_imports
                   (Demo.host Demo.service)
                   (Ripple.graphBuilder (Ripple.create "/p" Demo.config))
                   "getUser" "/p/src/user.ts")
                "/p/src/users.ts"
                (Demo.importOf "/p/src/users.ts" 1 "./user" ["getUser"]) _ _ _).
  - discriminate.
  - vm_compute. discriminate.
  - eexists. split; [vm_compute; reflexivity|].
    split; [left; reflexivity|]. split; [vm_compute; reflexivity|].
    eexists. split; [left; reflexivity | reflexivity].
Defined.

(** ** Graph engine: the node table *)

Module NodeTable.
Import DependencyGraphBuilder.

Lemma removeEdgesForFile_nodes (file : string) (g : DependencyGraph) :
  nodes (removeEdgesForFile file g) = nodes g.
Proof.
  unfold removeEdgesForFile.
  destruct (JsMap.get file (edges g)); simpl;
    match goal with
    | |- context [JsMap.get file ?m] => destruct (JsMap.get file m)
    end; reflexivity.
Qed.

Section WithHost.
Variable H : Host.

Lemma build_loop_keeps (files : list string) (f : string) :
  ~ In f files \/ parseNode H f = None ->
  forall b : t,
    getNode (fold_left (fun acc file => storeNode H file acc (fun x => x)) files b) f
    = getNode b f.
Proof.
  intros Hf. induction files as [|file rest IH]; intros b; simpl; [reflexivity|].
  rewrite IH.
  - unfold storeNode, getNode.
    destruct (parseNode H file) as [node|] eqn:Hp; [|reflexivity]. simpl.
    apply JsMapFacts.get_set_other. intros ->.
    destruct Hf as [Hf|Hf]; [apply Hf; now left | congruence].
  - destruct Hf as [Hf|Hf]; [left; intros Hin; apply Hf; now right | now right].
Qed.

Lemma build_loop_unique (files : list string) :
  forall b : t,
    uniqueKeys (nodes (graph b)) ->
    uniqueKeys
      (nodes (graph (fold_left (fun acc file => storeNode H file acc (fun x => x)) files b))).
Proof.
  induction files as [|file rest IH]; intros b Hu; simpl; [assumption|].
  apply IH. unfold storeNode. destruct (parseNode H file); [|assumption]. simpl.
  now apply WellFormed.uniqueKeys_set.
Qed.

(** One round of the loop of [updateIncremental]. *)
Lemma update_step (file : string) (b : t) :
  uniqueKeys (nodes (graph b)) ->
  let b' := storeNode H file (withGraph b (removeEdgesForFile file (graph b)))
                      (dropNode file) in
  uniqueKeys (nodes (graph b'))
  /\ forall f : string,
      getNode b' f = if String.eqb f file then parseNode H file else getNode b f.
Proof.
  intros Hu. cbv zeta. unfold storeNode, getNode.
  destruct (parseNode H file) as [node|] eqn:Hp; simpl;
    rewrite removeEdgesForFile_nodes.
  - split; [now apply WellFormed.uniqueKeys_set|].
    intros f. destruct (String.eqb_spec f file) as [->|Hne].
    + apply JsMapFacts.get_set_same.
    + now apply JsMapFacts.get_set_other.
  - split; [now apply WellFormed.uniqueKeys_delete|].
    intros f. now apply WellFormed.get_delete.
Qed.

Lemma update_loop (changed : list string) :
  forall b : t,
    uniqueKeys (nodes (graph b)) ->
    let b1 :=
      fold_left
        (fun acc file =>
           storeNode H file (withGraph acc (removeEdgesForFile file (graph acc)))
                     (dropNode file))
        changed b in
    uniqueKeys (nodes (graph b1))
    /\ (forall f : string, In f changed -> getNode b1 f = parseNode H f)
    /\ (forall f : string, ~ In f changed -> getNode b1 f = getNode b f).
Proof.
  induction changed as [|file rest IH]; intros b Hu; simpl.
  - repeat split; [assumption | intros f []].
  - destruct (@update_step file b Hu) as [Hu' Hget]. cbv zeta in Hu', Hget.
    destruct (IH _ Hu') as (Hu1 & Hin & Hout). cbv zeta in Hu1, Hin, Hout.
    split; [exact Hu1|]. split.
    + intros f Hf.
      destruct (DeepTraversal.In_dec_string f rest) as [Hr|Hr]; [now apply Hin|].
      destruct Hf as [<-|Hf]; [|contradiction].
      rewrite (Hout _ Hr), Hget. now rewrite String.eqb_refl.
    + intros f Hf. rewrite Hout by (intros Hr; apply Hf; now right).
      rewrite Hget. destruct (String.eqb_spec f file) as [->|Hne]; [|reflexivity].
      exfalso. apply Hf. now left.
Qed.


End WithHost.
End NodeTable.

(** X11. The node table after a rebuild. [build] stores what each
    discovered file parses to and removes nothing: the node of a file that
    is no longer discovered, or that no longer parses, stays as it was.
    [updateIncremental] leaves a changed file without a node exactly when
    parsing it throws, which is when the file is gone, and every other file
    with the node it had. *)
Theorem node_table_after_rebuild
  (H : Host) (b : DependencyGraphBuilder.t) (changedFiles : list string) (file : string) :
  uniqueKeys (nodes (DependencyGraphBuilder.graph b)) ->
  let built := DependencyGraphBuilder.build H b in
  let updated := DependencyGraphBuilder.updateIncremental H changedFiles b in
  (forall node : GraphNode,
      In file (DependencyGraphBuilder.discoverFiles H b) ->
      parseNode H file = Some node ->
      DependencyGraphBuilder.getNode built file = Some node)
  /\ (~ In file (DependencyGraphBuilder.discoverFiles H b) \/ parseNode H file = None ->
      DependencyGraphBuilder.getNode built file = DependencyGraphBuilder.getNode b file)
  /\ (In file changedFiles ->
      (DependencyGraphBuilder.getNode updated file = None <-> parseNode H file = None))
  /\ (~ In file changedFiles ->
      DependencyGraphBuilder.getNode updated file = DependencyGraphBuilder.getNode b file)
  /\ uniqueKeys (nodes (DependencyGraphBuilder.graph built))
  /\ uniqueKeys (nodes (DependencyGraphBuilder.graph updated)).
Proof.
  intros Hu built updated.
  destruct (@NodeTable.update_loop H changedFiles b Hu) as (Hu1 & Hin & Hout).
  cbv zeta in Hu1, Hin, Hout.
  assert (Hupd : forall f, DependencyGraphBuilder.getNode updated f
                           = DependencyGraphBuilder.getNode
                               (fold_left
                                  (fun acc file0 =>
                                     DependencyGraphBuilder.storeNode
                                       H file0
                                       (DependencyGraphBuilder.withGraph
                                          acc
                                          (DependencyGraphBuilder.removeEdgesForFile
                                             file0 (DependencyGraphBuilder.graph acc)))
                                       (DependencyGraphBuilder.dropNode file0))
                                  changedFiles b) f).
  { intros f. unfold updated, DependencyGraphBuilder.updateIncremental,
              DependencyGraphBuilder.getNode.
    simpl. now rewrite EdgeFacts.buildEdges_nodes. }
  assert (Hbuilt : forall f, DependencyGraphBuilder.getNode built f
                             = DependencyGraphBuilder.getNode
                                 (fold_left
                                    (fun acc file0 =>
                                       DependencyGraphBuilder.storeNode H file0 acc (fun x => x))
                                    (DependencyGraphBuilder.discoverFiles H b) b) f).
  { intros f. unfold built, DependencyGraphBuilder.build, DependencyGraphBuilder.getNode.
    simpl. now rewrite EdgeFacts.buildEdges_nodes. }
  split; [|split; [|split; [|split; [|split]]]].
  - intros node Hdisc Hp.
    exact (proj1 (@RebuildFacts.build_stores H b file Hdisc node Hp)).
  - intros Hf. rewrite Hbuilt. now apply NodeTable.build_loop_keeps.
  - intros Hf. rewrite Hupd. now rewrite (Hin file Hf).
  - intros Hf. rewrite Hupd. now apply Hout.
  - unfold built, DependencyGraphBuilder.build. simpl.
    rewrite EdgeFacts.buildEdges_nodes. now apply NodeTable.build_loop_unique.
  - unfold updated, DependencyGraphBuilder.updateIncremental. simpl.
    rewrite EdgeFacts.buildEdges_nodes. exact Hu1.
Qed.

(** X11 on the diamond, after [f.ts] was deleted from disk: updating the
    graph for [f.ts] leaves it without a node. *)
Lemma node_table_after_rebuild_witness :
  DependencyGraphBuilder.getNode
    (DependencyGraphBuilder.updateIncremental
       (Demo.host Demo.selfImport) ["/p/src/f.ts"] (Demo.builder Demo.diamond))
    "/p/src/f.ts" = None.
Proof.
  refine (proj2 (proj1 (proj2 (proj2 (@node_table_after_rebuild
                                        (Demo.host Demo.selfImport)
                                        (Demo.builder Demo.diamond)
                                        ["/p/src/f.ts"] "/p/src/f.ts" _))) _) _).
  - vm_compute. repeat constructor; simpl; intuition discriminate.
  - now left.
  - vm_compute. reflexivity.
Defined.

(** ** Test mapper *)

Module SetOfList.

Lemma In_fold_add (xs : list string) :
  forall (acc : JsSet.t) (y : string),
    In y (fold_left (fun s x => JsSet.add x s) xs acc) <-> In y acc \/ In y xs.
Proof.
  induction xs as [|x rest IH]; intros acc y; simpl; [tauto|].
  rewrite IH, JsSetFacts.In_add. split; intros Hy; intuition (subst; auto).
Qed.

Lemma NoDup_fold_add (xs : list string) :
  forall acc : JsSet.t, NoDup acc -> NoDup (fold_left (fun s x => JsSet.add x s) xs acc).
Proof.
  induction xs as [|x rest IH]; intros acc Hacc; simpl; [assumption|].
  apply IH. now apply JsSetFacts.NoDup_add.
Qed.

Lemma In_ofList (xs : list string) (y : string) : In y (JsSet.ofList xs) <-> In y xs.
Proof. unfold JsSet.ofList. rewrite In_fold_add. simpl. tauto. Qed.

Lemma NoDup_ofList (xs : list string) : NoDup (JsSet.ofList xs).
Proof. apply NoDup_fold_add. constructor. Qed.

Lemma length_ofList (xs : list string) : (List.length (JsSet.ofList xs) <= List.length xs)%nat.
Proof.
  apply NoDup_incl_length; [apply NoDup_ofList|].
  intros y. apply In_ofList.
Qed.

End SetOfList.

Module MapperFacts.
Import TestMapper.

Section WithHost.
Variable H : Host.
Variable m : t.

Lemma In_convention (source file : string) :
  In file (findByNamingConvention H m source)
  <-> isTestFile m file = true /\ conventionCandidate H source file.
Proof.
  unfold findByNamingConvention, conventionCandidate, isTestFile. split.
  - intros Hin. apply in_flat_map in Hin. destruct Hin as (pattern & Hpat & Hin).
    apply in_flat_map in Hin. destruct Hin as (ext & Hext & Hin).
    apply filter_In in Hin. destruct Hin as [Hcand Hknown]. split; [exact Hknown|].
    simpl in Hpat.
    destruct Hpat as [<-|[<-|[<-|[<-|[]]]]];
      [exists ".test" | exists ".spec" | exists "-test" | exists "_test"];
      exists ext;
      (destruct Hcand as [<-|[<-|[<-|[]]]];
       [exists [] | exists ["__tests__"] | exists ["tests"]];
       simpl; tauto).
  - intros (Hknown & suffix & ext & sub & Hs & He & Hsub & ->).
    apply in_flat_map. exists (path_name H source +++ suffix). split.
    { simpl in Hs. simpl. destruct Hs as [<-|[<-|[<-|[<-|[]]]]]; tauto. }
    apply in_flat_map. exists ext. split; [exact He|].
    apply filter_In. split; [|exact Hknown].
    simpl in Hsub. destruct Hsub as [<-|[<-|[<-|[]]]]; simpl; tauto.
Qed.

Lemma In_importAnalysis (b : DependencyGraphBuilder.t) (source file : string) :
  In file (findByImportAnalysis m b source)
  <-> isTestFile m file = true
      /\ In file (DependencyGraphBuilder.getDirectDependents b source).
Proof. unfold findByImportAnalysis, isTestFile. rewrite filter_In. tauto. Qed.

Lemma In_colocated (source file : string) :
  In file (findColocatedTests H m source)
  <-> isTestFile m file = true /\ colocatedMatch H source file.
Proof.
  unfold findColocatedTests, colocatedMatch, isTestFile.
  rewrite filter_In, andb_true_iff, String.eqb_eq, JsSetFacts.has_In. tauto.
Qed.

End WithHost.
End MapperFacts.

(** X12. [getTestsForFile] reports a file as a test of [source] if and only
    if it is a known test file and one of the three strategies finds it: it
    is a path the naming convention tries, it is a direct dependent of
    [source] in the graph, or it is colocated under the sibling [__tests__]
    directory with a matching base name. The list has no duplicates, the
    mapping names the source file it was asked for, and a mapper that knows
    no test file reports none. *)
Theorem getTestsForFile_reports_known_matching_tests
  (H : Host) (m : TestMapper.t) (b : DependencyGraphBuilder.t) (source : string) :
  let mapping := TestMapper.getTestsForFile H m b source in
  sourceFile mapping = source
  /\ NoDup (testFiles mapping)
  /\ (forall file : string,
         In file (testFiles mapping)
         <-> TestMapper.isTestFile m file = true
             /\ (conventionCandidate H source file
                 \/ In file (DependencyGraphBuilder.getDirectDependents b source)
                 \/ colocatedMatch H source file))
  /\ (TestMapper.knownTests m = [] -> testFiles mapping = []).
Proof.
  cbv zeta. unfold TestMapper.getTestsForFile. cbv zeta. cbn [sourceFile testFiles].
  assert (Hchar : forall file : string,
             In file (JsSet.ofList
                        (TestMapper.findByNamingConvention H m source
                         ++ TestMapper.findByImportAnalysis m b source
                         ++ TestMapper.findColocatedTests H m source))
             <-> TestMapper.isTestFile m file = true
                 /\ (conventionCandidate H source file
                     \/ In file (DependencyGraphBuilder.getDirectDependents b source)
                     \/ colocatedMatch H source file)).
  { intros file. rewrite SetOfList.In_ofList, !in_app_iff.
    rewrite MapperFacts.In_convention, MapperFacts.In_importAnalysis,
      MapperFacts.In_colocated. tauto. }
  split; [reflexivity|]. split; [apply SetOfList.NoDup_ofList|]. split; [exact Hchar|].
  intros Hempty.
  remember (JsSet.ofList
              (TestMapper.findByNamingConvention H m source
               ++ TestMapper.findByImportAnalysis m b source
               ++ TestMapper.findColocatedTests H m source)) as found eqn:Hfound.
  destruct found as [|file rest]; [reflexivity|]. exfalso.
  assert (Hin : TestMapper.isTestFile m file = true).
  { apply (Hchar file). now left. }
  unfold TestMapper.isTestFile in Hin. rewrite Hempty in Hin. discriminate.
Qed.

(** X13. [initialize] replaces the set of known test files by what the
    test patterns match now: a file is a test file afterwards if and only if
    [glob] returns it for one of the configured patterns, whatever was known
    before. The set has no duplicates, coverage data loaded earlier is kept
    when no coverage file is found, and initialising twice changes nothing
    more. *)
Theorem initialize_rediscovers_test_files (H : Host) (m : TestMapper.t) :
  let m' := TestMapper.initialize H m in
  (forall file : string,
      TestMapper.isTestFile m' file = true
      <-> exists pattern : string,
          In pattern (testPatterns (TestMapper.config m))
          /\ In file (glob H pattern (TestMapper.rootDir m) ["node_modules/**"]))
  /\ NoDup (TestMapper.knownTests m')
  /\ (readCoverage H (TestMapper.rootDir m) = None ->
      TestMapper.coverageData m' = TestMapper.coverageData m)
  /\ TestMapper.initialize H m' = m'.
Proof.
  cbv zeta. split; [|split; [|split]].
  - intros file. unfold TestMapper.isTestFile, TestMapper.initialize.
    cbn [TestMapper.knownTests]. rewrite JsSetFacts.has_In.
    unfold TestMapper.discoverTestFiles.
    generalize (testPatterns (TestMapper.config m)) as patterns.
    assert (Hgen : forall (patterns : list string) (acc : JsSet.t),
               In file
                  (fold_left
                     (fun acc0 pattern =>
                        fold_left (fun acc' f => JsSet.add f acc')
                                  (glob H pattern (TestMapper.rootDir m) ["node_modules/**"])
                                  acc0)
                     patterns acc)
               <-> In file acc
                   \/ exists pattern : string,
                       In pattern patterns
                       /\ In file (glob H pattern (TestMapper.rootDir m)
                                        ["node_modules/**"])).
    { induction patterns as [|p rest IH]; intros acc; simpl.
      - split; [tauto | intros [?|(p & [] & _)]; assumption].
      - rewrite IH, SetOfList.In_fold_add. split.
        + intros [[?|?]|(p' & Hp' & Hin)]; [now left | right; exists p; auto |].
          right. exists p'. auto.
        + intros [?|(p' & [<-|Hp'] & Hin)]; [auto | auto |].
          right. exists p'. auto. }
    intros patterns. rewrite Hgen. simpl. tauto.
  - unfold TestMapper.initialize. cbn [TestMapper.knownTests].
    unfold TestMapper.discoverTestFiles.
    apply TraverseFacts.fold_left_invariant; [|constructor].
    intros acc pattern _ Hacc. now apply SetOfList.NoDup_fold_add.
  - intros Hnone. unfold TestMapper.initialize. cbn [TestMapper.coverageData].
    now rewrite Hnone.
  - unfold TestMapper.initialize at 1. unfold TestMapper.initialize at 1.
    unfold TestMapper.discoverTestFiles.
    cbn [TestMapper.rootDir TestMapper.config TestMapper.coverageData TestMapper.knownTests].
    unfold TestMapper.initialize, TestMapper.discoverTestFiles.
    cbn [TestMapper.rootDir TestMapper.config TestMapper.coverageData TestMapper.knownTests].
    destruct (readCoverage H (TestMapper.rootDir m)); reflexivity.
Qed.

(** X12 on the project with [foo.ts] and [foo.test.ts]: the test file next
    to the source is reported, by the naming convention. *)
Lemma getTestsForFile_reports_known_matching_tests_witness :
  In "/p/src/foo.test.ts"
     (testFiles (TestMapper.getTestsForFile
                   (Demo.host Demo.tested) (Ripple.testMapper (Demo.ripple Demo.tested))
                   (Demo.builder Demo.tested) "/p/src/foo.ts")).
Proof.
  apply (proj1 (proj2 (proj2 (getTestsForFile_reports_known_matching_tests
                                (Demo.host Demo.tested)
                                (Ripple.testMapper (Demo.ripple Demo.tested))
                                (Demo.builder Demo.tested) "/p/src/foo.ts")))).
  split; [reflexivity|]. left.
  exists ".test", ".ts", []. simpl. repeat split; auto.
Defined.

Module LineFacts.
Import TestMapper LineCoverage.

Section WithHost.
Variable H : Host.
Variable m : t.
Variable filePath : string.

Lemma In_linesFrom (count : nat) :
  forall line x : Z,
    In x (linesFrom count line) <-> (line <= x < line + Z.of_nat count)%Z.
Proof.
  induction count as [|count IH]; intros line x.
  - simpl. lia.
  - cbn [linesFrom In]. rewrite IH. lia.
Qed.

Lemma linesFrom_sorted (count : nat) :
  forall line : Z, StronglySorted Z.lt (linesFrom count line).
Proof.
  induction count as [|count IH]; intros line; cbn [linesFrom]; constructor.
  - apply IH.
  - apply Forall_forall. intros x Hx. apply In_linesFrom in Hx. lia.
Qed.

Lemma filter_sorted (keep : Z -> bool) (l : list Z) :
  StronglySorted Z.lt l -> StronglySorted Z.lt (filter keep l).
Proof.
  induction 1 as [|x rest Hs IH Hall]; simpl; [constructor|].
  destruct (keep x); [|assumption]. constructor; [assumption|].
  apply Forall_forall. intros y Hy. apply filter_In in Hy.
  rewrite Forall_forall in Hall. now apply Hall.
Qed.

(** The loop leaves the lines it has not reached yet, filtered, after the
    ones already collected. *)
Lemma uncoveredFrom_filter (fuel : nat) :
  forall (line endLine : Z) (uncovered : list Z),
    (Z.to_nat (endLine - line + 1) <= fuel)%nat ->
    uncoveredFrom H fuel m filePath line endLine uncovered
    = uncovered
      ++ filter (fun l => negb (isLineCovered H m filePath l))
                (linesFrom (Z.to_nat (endLine - line + 1)) line).
Proof.
  induction fuel as [|fuel IH]; intros line endLine uncovered Hfuel.
  - assert (Hz : Z.to_nat (endLine - line + 1) = 0%nat) by lia.
    rewrite Hz. simpl. now rewrite app_nil_r.
  - cbn [uncoveredFrom]. destruct (Z.leb_spec line endLine) as [Hle|Hgt].
    + rewrite IH by lia.
      replace (Z.to_nat (endLine - line + 1)) with (S (Z.to_nat (endLine - (line + 1) + 1)))
        by lia.
      cbn [linesFrom filter].
      destruct (isLineCovered H m filePath line); cbn [negb]; [reflexivity|].
      now rewrite <- app_assoc.
    + assert (Hz : Z.to_nat (endLine - line + 1) = 0%nat) by lia.
      rewrite Hz. simpl. now rewrite app_nil_r.
Qed.

End WithHost.
End LineFacts.

(** X14. [getUncoveredLinesInRange] returns, in ascending order and without
    repetition, exactly the lines of the range that [isLineCovered] rejects;
    it is empty for an empty range, and the whole range when no coverage
    data is loaded. A line counts as covered only when the coverage entry of
    the file, found under its path as given, relative to the root or
    resolved, holds a positive hit count under the line's decimal number, so
    a covered line means the file has coverage information with at least one
    covered line. *)
Theorem uncovered_lines_are_the_rejected_lines_of_the_range
  (H : Host) (m : TestMapper.t) (filePath : string) (startLine endLine : Z) :
  let uncovered := LineCoverage.getUncoveredLinesInRange H m filePath startLine endLine in
  uncovered
  = filter (fun line => negb (LineCoverage.isLineCovered H m filePath line))
           (linesBetween startLine endLine)
  /\ (forall line : Z,
         In line uncovered
         <-> (startLine <= line <= endLine)%Z
             /\ LineCoverage.isLineCovered H m filePath line = false)
  /\ StronglySorted Z.lt uncovered
  /\ ((endLine < startLine)%Z -> uncovered = [])
  /\ (TestMapper.coverageData m = None -> uncovered = linesBetween startLine endLine)
  /\ (forall line : Z,
         LineCoverage.isLineCovered H m filePath line = true ->
         exists info : CoverageInfo,
           TestMapper.getCoverageForFile H m filePath = Some info
           /\ (0 < covered (cov_lines info))%nat).
Proof.
  cbv zeta.
  assert (Heq : LineCoverage.getUncoveredLinesInRange H m filePath startLine endLine
                = filter (fun line => negb (LineCoverage.isLineCovered H m filePath line))
                         (linesBetween startLine endLine)).
  { unfold LineCoverage.getUncoveredLinesInRange.
    now rewrite LineFacts.uncoveredFrom_filter by lia. }
  rewrite Heq. split; [reflexivity|]. split; [|split; [|split; [|split]]].
  - intros line. rewrite filter_In, negb_true_iff. unfold linesBetween.
    rewrite LineFacts.In_linesFrom. split; intros [Hr Hc]; (split; [lia | exact Hc]).
  - apply LineFacts.filter_sorted, LineFacts.linesFrom_sorted.
  - intros Hlt. unfold linesBetween.
    replace (Z.to_nat (endLine - startLine + 1)) with 0%nat by lia. reflexivity.
  - intros Hnone.
    assert (Hall : forall line, LineCoverage.isLineCovered H m filePath line = false).
    { intros line. unfold LineCoverage.isLineCovered. now rewrite Hnone. }
    clear Heq. generalize (linesBetween startLine endLine) as range.
    induction range as [|x rest IH]; simpl; [reflexivity|].
    rewrite Hall. simpl. now rewrite IH.
  - intros line. unfold LineCoverage.isLineCovered, TestMapper.getCoverageForFile.
    destruct (TestMapper.coverageData m) as [data|]; [|discriminate]. cbv zeta.
    destruct (find _ _) as [p|]; [|discriminate].
    destruct (JsMap.get p data) as [fileData|]; [|discriminate]. cbn [option_map].
    destruct (JsMap.get (Js.showZ line) (raw_lines fileData)) as [hits|] eqn:Hline;
      [|discriminate].
    intros Hpos. eexists. split; [reflexivity|].
    unfold TestMapper.calculateCoverageInfo. cbn [cov_lines covered].
    unfold TestMapper.countHit.
    apply WellFormed.get_In in Hline.
    assert (Hin : In hits (filter (fun v => (v >? 0)%Z) (map snd (raw_lines fileData)))).
    { apply filter_In. split; [|exact Hpos].
      apply in_map_iff. now exists (Js.showZ line, hits). }
    assert (Hlen : forall (l : list Z) (x : Z), In x l -> (0 < List.length l)%nat).
    { intros [|y l] x Hx; [destruct Hx | simpl; lia]. }
    exact (Hlen _ hits Hin).
Qed.

(** ** Risk scorer: the five factors *)

Module FactorFacts.
Import RiskScorer.
Local Open Scope Q_scope.

Ltac divs :=
  unfold Qdiv;
  repeat match goal with
         | |- context [/ (?n # ?d)] =>
             let r := eval compute in (/ (n # d)) in change (/ (n # d)) with r
         end.

Lemma num_nonneg (n : nat) : 0 <= num n.
Proof. unfold num. change 0 with (inject_Z 0). rewrite <- Zle_Qle. lia. Qed.

Lemma num_le (n k : nat) : (n <= k)%nat -> num n <= num k.
Proof. intros Hle. unfold num. rewrite <- Zle_Qle. lia. Qed.

Lemma num_lt (n k : nat) : (n < k)%nat -> num n + 1 <= num k.
Proof.
  intros Hlt. unfold num. change 1 with (inject_Z 1).
  rewrite <- inject_Z_plus, <- Zle_Qle. lia.
Qed.

(** An expression of the scorer grows with its operand: rounding, adding
    to a constant, multiplying or dividing by a positive constant and
    [Math.min] all keep the order. *)
Ltac grows :=
  unfold Qminus, Qdiv;
  repeat first
    [ apply DoubleFacts.round_mono
    | apply Qplus_le_r
    | apply Qplus_le_l
    | apply Q.min_le_compat_l
    | apply Qmult_le_compat_r; [|discriminate] ];
  try assumption.

(** The four brackets of the caller-count factor grow with the number of
    callers. *)
Lemma upTo5_grows (x y : Q) :
  x <= y ->
  Double.round (2 + Double.round (Double.round (x / 5) * 2))
  <= Double.round (2 + Double.round (Double.round (y / 5) * 2)).
Proof. intros Hxy. grows. Qed.

Lemma upTo15_grows (x y : Q) :
  x <= y ->
  Double.round (4 + Double.round (Double.round (Double.round (x - 5) / 10) * 2))
  <= Double.round (4 + Double.round (Double.round (Double.round (y - 5) / 10) * 2)).
Proof. intros Hxy. grows. Qed.

Lemma upTo30_grows (x y : Q) :
  x <= y ->
  Double.round (6 + Double.round (Double.round (Double.round (x - 15) / 15) * 2))
  <= Double.round (6 + Double.round (Double.round (Double.round (y - 15) / 15) * 2)).
Proof. intros Hxy. grows. Qed.

Lemma above30_grows (x y : Q) :
  x <= y ->
  Double.round (8 + Qmin 2 (Double.round (Double.round (x - 30) / 50)))
  <= Double.round (8 + Qmin 2 (Double.round (Double.round (y - 30) / 50))).
Proof. intros Hxy. grows. Qed.

Section WithScorer.
Variable self : t.

(** The caller-count factor, bracket by bracket. *)
Lemma caller_value_cases (input : RiskInput) :
  let n := callersOf input in
  let v := value (calculateCallerFactor self input) in
  (n = 0%nat /\ v = 0)
  \/ ((1 <= n <= 5)%nat
      /\ v = Double.round (2 + Double.round (Double.round (num n / 5) * 2)))
  \/ ((6 <= n <= 15)%nat
      /\ v = Double.round
               (4 + Double.round (Double.round (Double.round (num n - 5) / 10) * 2)))
  \/ ((16 <= n <= 30)%nat
      /\ v = Double.round
               (6 + Double.round (Double.round (Double.round (num n - 15) / 15) * 2)))
  \/ ((31 <= n)%nat
      /\ v = Double.round
               (8 + Qmin 2 (Double.round (Double.round (num n - 30) / 50)))).
Proof.
  cbv zeta. unfold calculateCallerFactor, callersOf. cbn [value].
  set (n := (List.length (directCallers input) + List.length (transitiveCallers input))%nat).
  destruct (Nat.eqb_spec n 0) as [Hz|Hz]; [now left|]. right.
  destruct (Nat.leb_spec n 5); [left; split; [lia | reflexivity]|]. right.
  destruct (Nat.leb_spec n 15); [left; split; [lia | reflexivity]|]. right.
  destruct (Nat.leb_spec n 30); [left; split; [lia | reflexivity]|]. right.
  split; [lia | reflexivity].
Qed.

(** Each bracket sits above the one before it. *)
Lemma caller_value_band (input : RiskInput) :
  let n := callersOf input in
  let v := value (calculateCallerFactor self input) in
  (n = 0%nat /\ v == 0)
  \/ ((1 <= n <= 5)%nat /\ 2 < v <= 4)
  \/ ((6 <= n <= 15)%nat /\ 4 < v <= 6)
  \/ ((16 <= n <= 30)%nat /\ 6 < v <= 8)
  \/ ((31 <= n)%nat /\ 8 < v <= 10).
Proof.
  cbv zeta.
  destruct (caller_value_cases input) as [[Hn Hv]|[[Hn Hv]|[[Hn Hv]|[[Hn Hv]|[Hn Hv]]]]];
    cbv zeta in Hn, Hv; rewrite Hv.
  - left. split; [exact Hn | reflexivity].
  - right. left. split; [exact Hn|].
    pose proof (upTo5_grows (@num_le 1 _ (proj1 Hn))) as Hlo.
    pose proof (upTo5_grows (@num_le _ 5 (proj2 Hn))) as Hhi.
    split.
    + eapply Qlt_le_trans; [|exact Hlo]. vm_compute. reflexivity.
    + eapply Qle_trans; [exact Hhi|]. vm_compute. discriminate.
  - do 2 right. left. split; [exact Hn|].
    pose proof (upTo15_grows (@num_le 6 _ (proj1 Hn))) as Hlo.
    pose proof (upTo15_grows (@num_le _ 15 (proj2 Hn))) as Hhi.
    split.
    + eapply Qlt_le_trans; [|exact Hlo]. vm_compute. reflexivity.
    + eapply Qle_trans; [exact Hhi|]. vm_compute. discriminate.
  - do 3 right. left. split; [exact Hn|].
    pose proof (upTo30_grows (@num_le 16 _ (proj1 Hn))) as Hlo.
    pose proof (upTo30_grows (@num_le _ 30 (proj2 Hn))) as Hhi.
    split.
    + eapply Qlt_le_trans; [|exact Hlo]. vm_compute. reflexivity.
    + eapply Qle_trans; [exact Hhi|]. vm_compute. discriminate.
  - do 4 right. split; [exact Hn|].
    pose proof (above30_grows (@num_le 31 _ Hn)) as Hlo.
    split.
    + eapply Qlt_le_trans; [|exact Hlo]. vm_compute. reflexivity.
    + apply Qle_trans with (Double.round (8 + 2)); [|vm_compute; discriminate].
      apply DoubleFacts.round_mono, Qplus_le_r, Q.le_min_l.
Qed.

Lemma caller_value_monotone (input input' : RiskInput) :
  (callersOf input <= callersOf input')%nat ->
  value (calculateCallerFactor self input) <= value (calculateCallerFactor self input').
Proof.
  intros Hle. pose proof (num_le Hle) as Hq.
  destruct (caller_value_cases input) as [[Hn Hv]|[[Hn Hv]|[[Hn Hv]|[[Hn Hv]|[Hn Hv]]]]];
    destruct (caller_value_band input) as [[Bn Bv]|[[Bn Bv]|[[Bn Bv]|[[Bn Bv]|[Bn Bv]]]]];
    cbv zeta in Hn, Hv, Bn, Bv; try (exfalso; lia);
    destruct (caller_value_cases input')
      as [[Hn' Hv']|[[Hn' Hv']|[[Hn' Hv']|[[Hn' Hv']|[Hn' Hv']]]]];
    destruct (caller_value_band input')
      as [[Bn' Bv']|[[Bn' Bv']|[[Bn' Bv']|[[Bn' Bv']|[Bn' Bv']]]]];
    cbv zeta in Hn', Hv', Bn', Bv'; try (exfalso; lia);
    try lra;
    rewrite Hv, Hv'.
  - now apply upTo5_grows.
  - now apply upTo15_grows.
  - now apply upTo30_grows.
  - now apply above30_grows.
Qed.

Lemma transitive_value_cases (input : RiskInput) :
  let n := List.length (transitiveCallers input) in
  let v := value (calculateTransitiveFactor self input) in
  (n = 0%nat /\ v = 0) \/ ((1 <= n <= 5)%nat /\ v = 2) \/ ((6 <= n <= 15)%nat /\ v = 4)
  \/ ((16 <= n <= 30)%nat /\ v = 6) \/ ((31 <= n)%nat /\ v = 8).
Proof.
  cbv zeta. unfold calculateTransitiveFactor. cbn [value].
  set (n := List.length (transitiveCallers input)).
  destruct (Nat.eqb_spec n 0) as [Hz|Hz]; [now left|]. right.
  destruct (Nat.leb_spec n 5); [left; split; [lia | reflexivity]|]. right.
  destruct (Nat.leb_spec n 15); [left; split; [lia | reflexivity]|]. right.
  destruct (Nat.leb_spec n 30); [left; split; [lia | reflexivity]|]. right.
  split; [lia | reflexivity].
Qed.

Lemma transitive_value_monotone (input input' : RiskInput) :
  (List.length (transitiveCallers input) <= List.length (transitiveCallers input'))%nat ->
  value (calculateTransitiveFactor self input)
  <= value (calculateTransitiveFactor self input').
Proof.
  intros Hle.
  destruct (transitive_value_cases input)
    as [[Hn Hv]|[[Hn Hv]|[[Hn Hv]|[[Hn Hv]|[Hn Hv]]]]];
    destruct (transitive_value_cases input')
      as [[Hn' Hv']|[[Hn' Hv']|[[Hn' Hv']|[[Hn' Hv']|[Hn' Hv']]]]];
    cbv zeta in Hn, Hv, Hn', Hv'; rewrite Hv, Hv'; try (exfalso; lia); discriminate.
Qed.

Lemma caller_value_range (input : RiskInput) :
  0 <= value (calculateCallerFactor self input) <= 10.
Proof.
  destruct (caller_value_band input) as [[Bn Bv]|[[Bn Bv]|[[Bn Bv]|[[Bn Bv]|[Bn Bv]]]]];
    cbv zeta in Bn, Bv; lra.
Qed.

Lemma transitive_value_range (input : RiskInput) :
  0 <= value (calculateTransitiveFactor self input) <= 10.
Proof.
  destruct (transitive_value_cases input)
    as [[Hn Hv]|[[Hn Hv]|[[Hn Hv]|[[Hn Hv]|[Hn Hv]]]]];
    cbv zeta in Hv; rewrite Hv; lra.
Qed.

Lemma critical_value_range (H : Host) (input : RiskInput) :
  0 <= value (calculateCriticalPathFactor H self input) <= 10.
Proof.
  unfold calculateCriticalPathFactor. cbn [value].
  set (n := List.length (filter caller_isCriticalPath
                                (directCallers input ++ transitiveCallers input))).
  pose proof (num_nonneg (Nat.min 5 n)) as H0.
  pose proof (@num_le (Nat.min 5 n) 5 (Nat.le_min_l 5 n)) as H5.
  change (num 5) with 5 in H5.
  destruct (isInCriticalPath H self (filePath input)); destruct (0 <? n)%nat; lra.
Qed.

Lemma untested_value_range (input : RiskInput) :
  (List.length (untestedCallers input) <= callersOf input)%nat ->
  0 <= value (calculateUntestedFactor self input) <= 10.
Proof.
  unfold callersOf. intros Hle. unfold calculateUntestedFactor.
  set (n := (List.length (directCallers input) + List.length (transitiveCallers input))%nat)
    in *.
  destruct (Nat.eqb_spec n 0) as [Hz|Hz]; cbn [value]; [lra|].
  pose proof (num_nonneg (List.length (untestedCallers input))) as Hu0.
  pose proof (num_le Hle) as Hun.
  assert (Hn : 0 < num n).
  { pose proof (@num_lt 0 n ltac:(lia)) as Hp. change (num 0) with 0 in Hp. lra. }
  assert (Hr0 : 0 <= num (List.length (untestedCallers input)) / num n).
  { apply Qle_shift_div_l; [exact Hn | lra]. }
  assert (Hr1 : num (List.length (untestedCallers input)) / num n <= 1).
  { apply Qle_shift_div_r; [exact Hn | lra]. }
  assert (Hratio : 0 <= Double.round (num (List.length (untestedCallers input)) / num n)
                   <= 1)
    by (apply DoubleFacts.round_between; [now split | reflexivity | now vm_compute]).
  set (ratio := Double.round _) in *. clearbody ratio.
  apply DoubleFacts.round_between; [lra | reflexivity | now vm_compute].
Qed.

Lemma coverage_value_range (input : RiskInput) :
  (forall t : TestMapping, In t (affectedTests input) -> coverageInRange t) ->
  0 <= value (calculateTestCoverageFactor self input) <= 10.
Proof.
  intros Hcov. unfold calculateTestCoverageFactor.
  destruct (find _ (affectedTests input)) as [own|] eqn:Hfind; cbn [value]; [|lra].
  apply find_some in Hfind. destruct Hfind as [Hin _].
  destruct (List.length (testFiles own) =? 0)%nat; cbn [value]; [lra|].
  destruct (coverage own) as [cov|] eqn:Hc; cbn [value]; [|lra].
  destruct (Hcov own Hin cov Hc) as [Hl Hb].
  assert (Hsum : 0 <= Double.round (percentage (cov_lines cov)
                                    + percentage (cov_branches cov)) <= 200)
    by (apply DoubleFacts.round_between; [lra | reflexivity | now vm_compute]).
  set (sum := Double.round (_ + _)) in *. clearbody sum.
  assert (Havg : 0 <= Double.round (sum / 2) <= 100)
    by (apply DoubleFacts.round_between; [divs; lra | reflexivity | now vm_compute]).
  set (avgCoverage := Double.round (sum / 2)) in *. clearbody avgCoverage.
  assert (Htenth : 0 <= Double.round (avgCoverage / 10) <= 10)
    by (apply DoubleFacts.round_between; [divs; lra | reflexivity | now vm_compute]).
  set (tenth := Double.round (avgCoverage / 10)) in *. clearbody tenth.
  apply DoubleFacts.round_between; [lra | reflexivity | now vm_compute].
Qed.

Lemma weight_untested (input : RiskInput) :
  weight (calculateUntestedFactor self input) = untestedRatio (weights self).
Proof. unfold calculateUntestedFactor. now destruct (_ =? 0)%nat. Qed.

Lemma weight_coverage (input : RiskInput) :
  weight (calculateTestCoverageFactor self input) = testCoverage (weights self).
Proof.
  unfold calculateTestCoverageFactor.
  destruct (find _ _) as [own|]; [|reflexivity].
  destruct (_ =? 0)%nat; [reflexivity|]. now destruct (coverage own).
Qed.

Lemma geq_comp (x y threshold : Q) : x == y -> geq x threshold = geq y threshold.
Proof.
  intros Hxy. unfold geq.
  destruct (Qle_bool threshold x) eqn:Hx; destruct (Qle_bool threshold y) eqn:Hy;
    try reflexivity.
  - apply Qle_bool_iff in Hx. rewrite Hxy in Hx. apply Qle_bool_iff in Hx. congruence.
  - apply Qle_bool_iff in Hy. rewrite <- Hxy in Hy. apply Qle_bool_iff in Hy. congruence.
Qed.

Lemma determineRiskLevel_comp (x y : Q) :
  x == y -> determineRiskLevel self x = determineRiskLevel self y.
Proof.
  intros Hxy. unfold determineRiskLevel.
  now rewrite !(geq_comp _ Hxy).
Qed.

Lemma factors_in_range (H : Host) (input : RiskInput) :
  plausibleInput input ->
  forall f : RiskFactor, In f (collectFactors H self input) -> 0 <= value f <= 10.
Proof.
  intros [Hu Hc] f Hf. unfold collectFactors in Hf. simpl in Hf.
  destruct Hf as [<-|[<-|[<-|[<-|[<-|[]]]]]].
  - apply caller_value_range.
  - now apply untested_value_range.
  - apply critical_value_range.
  - now apply coverage_value_range.
  - apply transitive_value_range.
Qed.

(** One term of the weighted sum. *)
Lemma term_range (v w : Q) :
  0 <= v <= 10 -> 0 <= w ->
  0 <= Double.round (v * w) <= Double.round (10 * w).
Proof.
  intros [Hlo Hhi] Hw. split.
  - apply DoubleFacts.round_nonneg. now apply Qmult_le_0_compat.
  - apply DoubleFacts.round_mono. now apply Qmult_le_compat_r.
Qed.

(** One step of the sum. *)
Lemma step_range (sum sum' term term' : Q) :
  0 <= sum <= sum' -> 0 <= term <= term' ->
  0 <= Double.round (sum + term) <= Double.round (sum' + term').
Proof.
  intros [Hs Hs'] [Ht Ht']. split.
  - apply DoubleFacts.round_nonneg. lra.
  - apply DoubleFacts.round_mono. lra.
Qed.

(** With the default weights the sum of five factors between 0 and 10 is
    at most the sum of five factors 10, which the doubles add up to
    exactly 10. *)
Lemma default_sum_in_range (H : Host) (input : RiskInput) :
  weights self = DEFAULT_WEIGHTS ->
  plausibleInput input ->
  0 <= weightedSum (collectFactors H self input) <= 10.
Proof.
  intros Hw Hp.
  pose proof (@factors_in_range H input Hp) as Hr.
  unfold collectFactors in *.
  pose proof (Hr _ (or_introl eq_refl)) as R1.
  pose proof (Hr _ (or_intror (or_introl eq_refl))) as R2.
  pose proof (Hr _ (or_intror (or_intror (or_introl eq_refl)))) as R3.
  pose proof (Hr _ (or_intror (or_intror (or_intror (or_introl eq_refl))))) as R4.
  pose proof (Hr _ (or_intror (or_intror (or_intror (or_intror (or_introl eq_refl)))))) as R5.
  unfold weightedSum. cbn [fold_left].
  rewrite weight_untested, weight_coverage.
  change (weight (calculateCallerFactor self input)) with (callerCount (weights self)).
  change (weight (calculateCriticalPathFactor H self input))
    with (criticalPath (weights self)).
  change (weight (calculateTransitiveFactor self input))
    with (transitiveDepth (weights self)).
  rewrite Hw.
  unfold DEFAULT_WEIGHTS.
  cbn [callerCount untestedRatio criticalPath testCoverage transitiveDepth].
  assert (W25 : 0 <= Double.round (25 # 100)) by (vm_compute; discriminate).
  assert (W30 : 0 <= Double.round (30 # 100)) by (vm_compute; discriminate).
  assert (W15 : 0 <= Double.round (15 # 100)) by (vm_compute; discriminate).
  assert (W05 : 0 <= Double.round (5 # 100)) by (vm_compute; discriminate).
  pose proof (step_range (conj (Qle_refl 0) (Qle_refl 0)) (term_range R1 W25)) as S1.
  pose proof (step_range S1 (term_range R2 W30)) as S2.
  pose proof (step_range S2 (term_range R3 W25)) as S3.
  pose proof (step_range S3 (term_range R4 W15)) as S4.
  pose proof (step_range S4 (term_range R5 W05)) as S5.
  split; [exact (proj1 S5)|].
  eapply Qle_trans; [exact (proj2 S5)|]. vm_compute. discriminate.
Qed.

Lemma normalize_id (x : Q) : 0 <= x <= 10 -> normalize x == x.
Proof.
  intros [Hlo Hhi]. unfold normalize.
  rewrite (Q.max_r 0 x Hlo). now apply Q.min_r.
Qed.

(** The value that [calculateRisk] returns depends on the clamped sum
    only up to equality of rationals. *)
Lemma tenth_comp (x y : Q) :
  x == y ->
  Double.round (inject_Z (Math_round (Double.round (x * 10))) / 10)
  = Double.round (inject_Z (Math_round (Double.round (y * 10))) / 10).
Proof.
  intros Hxy.
  assert (Hk : Math_round (Double.round (x * 10)) = Math_round (Double.round (y * 10))).
  { unfold Math_round. apply Qfloor_comp.
    assert (Hr : Double.round (x * 10) == Double.round (y * 10))
      by (apply DoubleFacts.round_comp; now rewrite Hxy).
    now rewrite Hr. }
  now rewrite Hk.
Qed.


End WithScorer.
End FactorFacts.

(** X15. On a risk input whose untested callers are no more than its
    callers and whose coverage percentages lie between 0 and 100, each of
    the five factors has a value between 0 and 10. With the default weights
    the weighted sum, added up in doubles as the code does, then lies
    between 0 and 10 too, so the clamp of [calculateRisk] never acts: the
    level is the level of that sum, and the value is the double nearest to
    [Math.round(sum * 10) / 10]. *)
Theorem factors_in_range_and_clamp_idle
  (H : Host) (self : RiskScorer.t) (input : RiskScorer.RiskInput) :
  plausibleInput input ->
  let fs := RiskScorer.collectFactors H self input in
  let r := RiskScorer.calculateRisk H self input in
  (forall f : RiskFactor, In f fs -> (0 <= value f <= 10)%Q)
  /\ (RiskScorer.weights self = RiskScorer.DEFAULT_WEIGHTS ->
      (0 <= RiskScorer.weightedSum fs <= 10)%Q
      /\ (RiskScorer.normalize (RiskScorer.weightedSum fs) == RiskScorer.weightedSum fs)%Q
      /\ level r = RiskScorer.determineRiskLevel self (RiskScorer.weightedSum fs)
      /\ score_value r
         = Double.round
             (inject_Z (Math_round (Double.round (RiskScorer.weightedSum fs * 10))) / 10)).
Proof.
  intros Hp fs r. split; [now apply FactorFacts.factors_in_range|].
  intros Hw.
  pose proof (@FactorFacts.default_sum_in_range self H input Hw Hp) as Hrange.
  pose proof (@FactorFacts.normalize_id _ Hrange) as Hid.
  fold fs in Hrange, Hid.
  split; [exact Hrange|]. split; [exact Hid|]. split.
  - unfold r, RiskScorer.calculateRisk. cbn [level]. fold fs.
    now apply FactorFacts.determineRiskLevel_comp.
  - unfold r, RiskScorer.calculateRisk. cbn [score_value]. fold fs.
    now apply FactorFacts.tenth_comp.
Qed.

(** X15 on an input with one transitive caller, untested, and a target
    with a test file but no coverage data, under the default weights: the
    five products 0.6, 3, 0, 0.45 and 0.1 add up in doubles to
    4.1499999999999995, so the value is 4.1 and, with the low threshold at
    4.15, the level is Low. *)
Lemma factors_in_range_and_clamp_idle_witness :
  let input :=
    RiskScorer.mkInput [] (Demo.callersAt "/p/src/b.ts" false 1)
                       (Demo.callersAt "/p/src/b.ts" false 1)
                       [mkMapping "/p/src/f.ts" ["/p/src/f.test.ts"] None] "/p/src/f.ts" in
  let self :=
    RiskScorer.mkScorer
      (mkConfig [] [] [] [] (mkThresholds (Double.round (415 # 100)) 5 7) false ".ripple")
      RiskScorer.DEFAULT_WEIGHTS in
  let r := RiskScorer.calculateRisk (Demo.host Demo.diamond) self input in
  (RiskScorer.weightedSum (factors r) == 4672484613396889 # 2 ^ 50)%Q
  /\ (RiskScorer.weightedSum (factors r) < 415 # 100)%Q
  /\ level r = Low
  /\ (score_value r == Double.round (41 # 10))%Q.
Proof.
  cbv zeta.
  set (input := RiskScorer.mkInput _ _ _ _ _).
  set (self := RiskScorer.mkScorer _ _).
  assert (Hp : plausibleInput input).
  { split.
    - vm_compute. lia.
    - intros t [<-|[]] cov Hcov. discriminate Hcov. }
  destruct (proj2 (@factors_in_range_and_clamp_idle
                     (Demo.host Demo.diamond) self input Hp) eq_refl)
    as (_ & _ & Hlevel & Hvalue).
  split; [vm_compute; reflexivity|].
  split; [vm_compute; reflexivity|].
  split.
  - rewrite Hlevel. vm_compute. reflexivity.
  - rewrite Hvalue. vm_compute. reflexivity.
Defined.

(** X16. More callers never lower the caller-count factor, and more
    transitive callers never lower the transitive-impact factor; the
    caller-count factor is 0 for no caller and above 2 as soon as there is
    one. *)
Theorem caller_factors_grow_with_callers
  (self : RiskScorer.t) (input input' : RiskScorer.RiskInput) :
  (callersOf input <= callersOf input')%nat ->
  (List.length (RiskScorer.transitiveCallers input)
   <= List.length (RiskScorer.transitiveCallers input'))%nat ->
  (value (RiskScorer.calculateCallerFactor self input)
   <= value (RiskScorer.calculateCallerFactor self input'))%Q
  /\ (value (RiskScorer.calculateTransitiveFactor self input)
      <= value (RiskScorer.calculateTransitiveFactor self input'))%Q
  /\ (callersOf input = 0%nat ->
      (value (RiskScorer.calculateCallerFactor self input) == 0)%Q)
  /\ ((0 < callersOf input)%nat ->
      (2 < value (RiskScorer.calculateCallerFactor self input))%Q).
Proof.
  intros Hall Htrans. split; [|split; [|split]].
  - now apply FactorFacts.caller_value_monotone.
  - now apply FactorFacts.transitive_value_monotone.
  - intros Hz.
    destruct (FactorFacts.caller_value_band self input)
      as [[Bn Bv]|[[Bn Bv]|[[Bn Bv]|[[Bn Bv]|[Bn Bv]]]]];
      cbv zeta in Bn, Bv; try (exfalso; lia). exact Bv.
  - intros Hpos.
    destruct (FactorFacts.caller_value_band self input)
      as [[Bn Bv]|[[Bn Bv]|[[Bn Bv]|[[Bn Bv]|[Bn Bv]]]]];
      cbv zeta in Bn, Bv; try (exfalso; lia); lra.
Qed.

(** X16 on the inputs [atHigh] (ten callers) and [nearHigh] (eleven). *)
Lemma caller_factors_grow_with_callers_witness :
  (value (RiskScorer.calculateCallerFactor Demo.scorer Demo.atHigh)
   <= value (RiskScorer.calculateCallerFactor Demo.scorer Demo.nearHigh))%Q.
Proof.
  refine (proj1 (@caller_factors_grow_with_callers
                   Demo.scorer Demo.atHigh Demo.nearHigh _ _)).
  - vm_compute. lia.
  - vm_compute. lia.
Defined.

(** ** Risk scorer: mitigations *)

Module AdviceFacts.
Import RiskScorer RiskAdvice.

Lemma name_untested (self : t) (input : RiskInput) :
  name (calculateUntestedFactor self input) = "Untested Callers".
Proof. unfold calculateUntestedFactor. now destruct (_ =? 0)%nat. Qed.

Lemma name_coverage (self : t) (input : RiskInput) :
  name (calculateTestCoverageFactor self input) = "Test Coverage".
Proof.
  unfold calculateTestCoverageFactor.
  destruct (find _ _) as [own|]; [|reflexivity].
  destruct (_ =? 0)%nat; [reflexivity|]. now destruct (coverage own).
Qed.

(** Every suggestion there is, in the order of the [switch]. *)
Lemma mitigations_known (factorName s : string) :
  In s (mitigationsFor factorName) ->
  In s (mitigationsFor "Caller Count" ++ mitigationsFor "Untested Callers"
        ++ mitigationsFor "Critical Path" ++ mitigationsFor "Test Coverage"
        ++ mitigationsFor "Transitive Impact").
Proof.
  unfold mitigationsFor at 1.
  repeat match goal with
         | |- context [String.eqb factorName ?lit] =>
             destruct (String.eqb_spec factorName lit) as [->|_];
             [intros Hs; rewrite !in_app_iff; tauto|]
         end.
  intros [].
Qed.

End AdviceFacts.

(** X17. [suggestMitigations] returns no suggestion twice and at most ten;
    a suggestion is returned if and only if it belongs to the name of some
    factor whose value is at least 6. For a score that [calculateRisk]
    produced, whose five factors have five different names, nothing is
    removed as a duplicate: the result is two suggestions for each factor
    with a value of at least 6, in the order of the factors. *)
Theorem suggestMitigations_two_per_high_factor
  (H : Host) (self : RiskScorer.t) (input : RiskScorer.RiskInput) (score : RiskScore) :
  NoDup (RiskAdvice.suggestMitigations score)
  /\ (List.length (RiskAdvice.suggestMitigations score) <= 10)%nat
  /\ (forall s : string,
         In s (RiskAdvice.suggestMitigations score)
         <-> exists factor : RiskFactor,
             In factor (factors score)
             /\ (6 <= value factor)%Q
             /\ In s (RiskAdvice.mitigationsFor (name factor)))
  /\ (let r := RiskScorer.calculateRisk H self input in
      RiskAdvice.suggestMitigations r = flat_map RiskAdvice.pushedFor (factors r)
      /\ List.length (RiskAdvice.suggestMitigations r)
         = (2 * List.length (filter (fun f => RiskScorer.geq (value f) 6) (factors r)))%nat).
Proof.
  assert (Hchar : forall s : string,
             In s (RiskAdvice.suggestMitigations score)
             <-> exists factor : RiskFactor,
                 In factor (factors score)
                 /\ (6 <= value factor)%Q
                 /\ In s (RiskAdvice.mitigationsFor (name factor))).
  { intros s. unfold RiskAdvice.suggestMitigations.
    rewrite SetOfList.In_ofList, in_flat_map. unfold RiskAdvice.pushedFor. split.
    - intros (factor & Hf & Hs). exists factor. split; [exact Hf|].
      destruct (RiskScorer.geq (value factor) 6) eqn:Hg; [|destruct Hs].
      split; [now apply ScoreFacts.geq_true | exact Hs].
    - intros (factor & Hf & Hv & Hs). exists factor. split; [exact Hf|].
      apply ScoreFacts.geq_true in Hv. now rewrite Hv. }
  split; [apply SetOfList.NoDup_ofList|]. split; [|split; [exact Hchar|]].
  - change 10%nat
      with (List.length
              (RiskAdvice.mitigationsFor "Caller Count"
               ++ RiskAdvice.mitigationsFor "Untested Callers"
               ++ RiskAdvice.mitigationsFor "Critical Path"
               ++ RiskAdvice.mitigationsFor "Test Coverage"
               ++ RiskAdvice.mitigationsFor "Transitive Impact")).
    apply NoDup_incl_length; [apply SetOfList.NoDup_ofList|].
    intros s Hs. apply Hchar in Hs. destruct Hs as (factor & _ & _ & Hs).
    exact (AdviceFacts.mitigations_known _ _ Hs).
  - cbv zeta. unfold RiskAdvice.suggestMitigations, RiskScorer.calculateRisk.
    cbn [factors]. unfold RiskScorer.collectFactors. cbn [flat_map filter].
    unfold RiskAdvice.pushedFor.
    rewrite AdviceFacts.name_untested, AdviceFacts.name_coverage.
    change (name (RiskScorer.calculateCallerFactor self input)) with "Caller Count".
    change (name (RiskScorer.calculateCriticalPathFactor H self input))
      with "Critical Path".
    change (name (RiskScorer.calculateTransitiveFactor self input))
      with "Transitive Impact".
    destruct (RiskScorer.geq (value (RiskScorer.calculateCallerFactor self input)) 6);
      destruct (RiskScorer.geq (value (RiskScorer.calculateUntestedFactor self input)) 6);
      destruct (RiskScorer.geq
                  (value (RiskScorer.calculateCriticalPathFactor H self input)) 6);
      destruct (RiskScorer.geq
                  (value (RiskScorer.calculateTestCoverageFactor self input)) 6);
      destruct (RiskScorer.geq
                  (value (RiskScorer.calculateTransitiveFactor self input)) 6);
      split; reflexivity.
Qed.

(** ** Impact calculator *)

Module ImpactFacts.
Import ImpactCalculator.

Section WithHost.
Variable H : Host.
Variable self : t.
Variable b : DependencyGraphBuilder.t.
Variable m : TestMapper.t.

(** Both analyses end in [finish], on test mappings the mapper produced. *)
Lemma analysis_shape (file : string) (r : ImpactAnalysis) :
  analysisOf H self b m file r ->
  exists (tgt : Symbol) (direct transitive : list Caller) (tests : list TestMapping),
    r = finish H self b m tgt direct transitive tests file
    /\ forall t : TestMapping,
        In t tests -> exists f : string, t = TestMapper.getTestsForFile H m b f.
Proof.
  intros [(options & Hr)|(symbolName & options & Hr)].
  - unfold analyzeFileImpact in Hr.
    destruct (DependencyGraphBuilder.getNode b file) as [node|]; [|discriminate].
    injection Hr as <-. do 4 eexists. split; [reflexivity|].
    intros t [<-|Ht]; [now exists file|].
    apply filter_In in Ht. destruct Ht as [Ht _].
    apply in_map_iff in Ht. destruct Ht as (f & <- & _). now exists f.
  - unfold analyzeSymbolImpact in Hr.
    destruct (DependencyGraphBuilder.getNode b file) as [node|]; [|discriminate].
    destruct (find _ (symbols node)) as [sym|]; [|discriminate].
    injection Hr as <-. do 4 eexists. split; [reflexivity|].
    intros t [<-|[]]. now exists file.
Qed.



Lemma In_pathsToCallers (paths : list string) (source : string)
      (symbolName : option string) (c : Caller) :
  In c (pathsToCallers H self b m paths source symbolName) ->
  exists depPath : string, In depPath paths /\ callerFrom b depPath c.
Proof.
  unfold pathsToCallers. rewrite in_flat_map. intros (depPath & Hpath & Hin).
  exists depPath. split; [exact Hpath|].
  destruct (DependencyGraphBuilder.getNode b depPath) as [node|] eqn:Hnode;
    [|destruct Hin].
  apply in_flat_map in Hin. destruct Hin as (imp & Himp & Hc).
  destruct (matchesSourceFile H _ source); [|destruct Hc].
  destruct Hc as [<-|[]]. exists node, imp. repeat split; assumption.
Qed.

Lemma includes_In (p : string) (xs : list string) : includes p xs = true <-> In p xs.
Proof. apply JsSetFacts.has_In. Qed.

End WithHost.
End ImpactFacts.

(** X18. The summary of an analysis accounts for its callers. The total is
    the number of direct plus transitive callers; the untested callers are
    exactly the callers whose file has no test file, so the tested count,
    total minus untested, is never negative; the critical-path count and the
    number of affected files never exceed the total, and no file is affected
    exactly when there is no caller; the recommendation is the one of the
    level of the score. *)
Theorem summary_accounts_for_the_callers
  (H : Host) (self : ImpactCalculator.t) (b : DependencyGraphBuilder.t) (m : TestMapper.t)
  (file : string) (r : ImpactAnalysis) :
  analysisOf H self b m file r ->
  let s := summary r in
  let callers := directCallers r ++ transitiveCallers r in
  totalCallers s = List.length callers
  /\ sum_untestedCallers s = List.length (untestedCallers r)
  /\ (forall c : Caller,
         In c (untestedCallers r)
         <-> In c callers
             /\ testFiles (TestMapper.getTestsForFile H m b (loc_filePath (location c)))
                = [])
  /\ (testedCallers s = Z.of_nat (totalCallers s) - Z.of_nat (sum_untestedCallers s))%Z
  /\ (0 <= testedCallers s)%Z
  /\ criticalPathCallers s = List.length (filter caller_isCriticalPath callers)
  /\ (criticalPathCallers s <= totalCallers s)%nat
  /\ (filesAffected s <= totalCallers s)%nat
  /\ (filesAffected s = 0%nat <-> totalCallers s = 0%nat)
  /\ recommendation s = ImpactCalculator.recommendationFor (level (riskScore r)).
Proof.
  intros Hr. destruct (ImpactFacts.analysis_shape Hr)
    as (tgt & direct & transitive & tests & -> & _).
  cbv zeta. unfold ImpactCalculator.finish, ImpactCalculator.generateSummary.
  cbn [summary directCallers transitiveCallers untestedCallers riskScore
       totalCallers sum_untestedCallers testedCallers criticalPathCallers
       filesAffected recommendation].
  rewrite <- map_app, <- length_app.
  set (callers := direct ++ transitive).
  assert (Hfilter : (List.length (filter (ImpactCalculator.isUntested H b m) callers)
                     <= List.length callers)%nat) by apply filter_length_le.
  split; [reflexivity|]. split; [reflexivity|]. split.
  { intros c. rewrite filter_In. unfold ImpactCalculator.isUntested.
    rewrite Nat.eqb_eq, length_zero_iff_nil. tauto. }
  split; [reflexivity|]. split; [lia|]. split; [reflexivity|].
  split; [apply filter_length_le|]. split.
  { etransitivity; [apply SetOfList.length_ofList|]. now rewrite length_map. }
  split; [|reflexivity].
  split.
  - intros Hz. apply length_zero_iff_nil in Hz.
    destruct callers as [|c rest]; [reflexivity|]. exfalso.
    assert (Hin : In (loc_filePath (location c))
                     (JsSet.ofList (map (fun c0 => loc_filePath (location c0)) (c :: rest)))).
    { apply SetOfList.In_ofList. now left. }
    rewrite Hz in Hin. destruct Hin.
  - intros Hz. apply length_zero_iff_nil in Hz. now rewrite Hz.
Qed.

(** X18 on the service project: the analysis of [user.ts] has a summary
    whose total is the number of its callers. *)
Lemma summary_accounts_for_the_callers_witness :
  exists r : ImpactAnalysis,
    ImpactCalculator.analyzeFileImpact
      (Demo.host Demo.service) (Ripple.impactCalculator (Demo.ripple Demo.service))
      (Demo.builder Demo.service) (Ripple.testMapper (Demo.ripple Demo.service))
      "/p/src/user.ts" noOptions = Ok r
    /\ totalCallers (summary r)
       = List.length (directCallers r ++ transitiveCallers r).
Proof.
  eexists. split.
  - vm_compute. reflexivity.
  - apply (@summary_accounts_for_the_callers
             (Demo.host Demo.service) (Ripple.impactCalculator (Demo.ripple Demo.service))
             (Demo.builder Demo.service) (Ripple.testMapper (Demo.ripple Demo.service))
             "/p/src/user.ts").
    left. exists noOptions. vm_compute. reflexivity.
Defined.



(** X20. Where the callers of a file analysis come from. Every direct
    caller is made from an import statement of a direct dependent of the
    file, and every transitive caller from one of a file that
    [getTransitiveDependents] returns within the depth bound and that is not
    a direct dependent; with [includeTransitive] switched off there is no
    transitive caller, and a file without direct dependents has no direct
    caller. *)
Theorem file_analysis_callers_come_from_dependents
  (H : Host) (self : ImpactCalculator.t) (b : DependencyGraphBuilder.t) (m : TestMapper.t)
  (file : string) (options : ImpactOptions) (r : ImpactAnalysis) :
  ImpactCalculator.analyzeFileImpact H self b m file options = Ok r ->
  (forall c : Caller,
      In c (directCallers r) ->
      exists depPath : string,
        In depPath (DependencyGraphBuilder.getDirectDependents b file)
        /\ callerFrom b depPath c)
  /\ (forall c : Caller,
         In c (transitiveCallers r) ->
         exists depPath : string,
           In depPath (DependencyGraphBuilder.getTransitiveDependents
                         b file (ImpactCalculator.optMaxDepth options))
           /\ ~ In depPath (DependencyGraphBuilder.getDirectDependents b file)
           /\ callerFrom b depPath c)
  /\ (includeTransitive options = Some false -> transitiveCallers r = [])
  /\ (DependencyGraphBuilder.getDirectDependents b file = [] -> directCallers r = []).
Proof.
  unfold ImpactCalculator.analyzeFileImpact.
  destruct (DependencyGraphBuilder.getNode b file) as [node|]; [|discriminate].
  intros [= <-]. unfold ImpactCalculator.finish. cbn [directCallers transitiveCallers].
  split; [|split; [|split]].
  - intros c Hc. now apply ImpactFacts.In_pathsToCallers in Hc.
  - intros c Hc.
    destruct (ImpactCalculator.optIncludeTransitive options); [|destruct Hc].
    apply ImpactFacts.In_pathsToCallers in Hc. destruct Hc as (depPath & Hpath & Hfrom).
    apply filter_In in Hpath. destruct Hpath as [Hpath Hnot].
    exists depPath. split; [exact Hpath|]. split; [|exact Hfrom].
    intros Hdirect. apply ImpactFacts.includes_In in Hdirect.
    rewrite Hdirect in Hnot. discriminate.
  - intros Hoff. unfold ImpactCalculator.optIncludeTransitive. now rewrite Hoff.
  - intros Hnone. now rewrite Hnone.
Qed.

(** X20 on the diamond: the analysis of [f.ts] has no transitive caller
    when transitive callers are switched off. *)
Lemma file_analysis_callers_come_from_dependents_witness :
  exists r : ImpactAnalysis,
    ImpactCalculator.analyzeFileImpact
      (Demo.host Demo.diamond) (Ripple.impactCalculator (Demo.ripple Demo.diamond))
      (Demo.builder Demo.diamond) (Ripple.testMapper (Demo.ripple Demo.diamond))
      "/p/src/f.ts" (mkOptions (Some false) None) = Ok r
    /\ transitiveCallers r = [].
Proof.
  eexists. split.
  - vm_compute. reflexivity.
  - refine (proj1 (proj2 (proj2 (@file_analysis_callers_come_from_dependents
                                   (Demo.host Demo.diamond)
                                   (Ripple.impactCalculator (Demo.ripple Demo.diamond))
                                   (Demo.builder Demo.diamond)
                                   (Ripple.testMapper (Demo.ripple Demo.diamond))
                                   "/p/src/f.ts" (mkOptions (Some false) None) _ _))) _).
    + vm_compute. reflexivity.
    + reflexivity.
Defined.

(** X21. The outcomes of a symbol analysis and of a rename analysis. With a
    node for the file, the symbol analysis fails with the missing-symbol
    message exactly when no symbol of the node has that name, and otherwise
    succeeds on the first symbol of that name. The rename analysis fails
    with the same message as the symbol analysis run with default options
    and succeeds with the same impact; its rename locations are the location
    of the definition followed by one location for each direct and each
    transitive caller, one more than the total of the summary; and the new
    name plays no part in the result. *)
Theorem symbol_and_rename_outcomes
  (H : Host) (self : ImpactCalculator.t) (b : DependencyGraphBuilder.t) (m : TestMapper.t)
  (symbolName newName file : string) (options : ImpactOptions) (node : GraphNode) :
  DependencyGraphBuilder.getNode b file = Some node ->
  let named := find (fun s => String.eqb (sym_name s) symbolName) (symbols node) in
  let analysed := ImpactCalculator.analyzeSymbolImpact H self b m symbolName file options in
  let renamed := ImpactCalculator.analyzeRenameImpact H self b m symbolName newName file in
  (named = None -> analysed = Throw (SymbolNotFound symbolName file)
                   /\ renamed = Throw (SymbolNotFound symbolName file))
  /\ (forall sym : Symbol,
         named = Some sym -> exists r : ImpactAnalysis, analysed = Ok r /\ target r = sym)
  /\ (forall e : string,
         renamed = Throw e
         <-> ImpactCalculator.analyzeSymbolImpact H self b m symbolName file noOptions
             = Throw e)
  /\ (forall (impact : ImpactAnalysis) (locations : list FileLocation),
         renamed = Ok (impact, locations) ->
         ImpactCalculator.analyzeSymbolImpact H self b m symbolName file noOptions
         = Ok impact
         /\ locations
            = sym_location (target impact)
              :: map location (directCallers impact ++ transitiveCallers impact)
         /\ List.length locations = S (totalCallers (summary impact)))
  /\ (forall otherName : string,
         ImpactCalculator.analyzeRenameImpact H self b m symbolName otherName file
         = renamed).
Proof.
  intros Hnode. cbv zeta. split; [|split; [|split; [|split]]].
  - intros Hnone.
    unfold ImpactCalculator.analyzeRenameImpact, ImpactCalculator.analyzeSymbolImpact.
    now rewrite Hnode, Hnone.
  - intros sym Hsym. unfold ImpactCalculator.analyzeSymbolImpact.
    rewrite Hnode, Hsym. eexists. split; reflexivity.
  - intros e. unfold ImpactCalculator.analyzeRenameImpact.
    destruct (ImpactCalculator.analyzeSymbolImpact H self b m symbolName file noOptions);
      split; congruence.
  - intros impact locations. unfold ImpactCalculator.analyzeRenameImpact.
    destruct (ImpactCalculator.analyzeSymbolImpact H self b m symbolName file noOptions)
      as [r|e] eqn:Hr; [|discriminate].
    intros [= <- <-]. split; [reflexivity|]. split; [reflexivity|].
    assert (Hof : analysisOf H self b m file r).
    { right. now exists symbolName, noOptions. }
    destruct (ImpactFacts.analysis_shape Hof) as (tgt & direct & transitive & tests & -> & _).
    unfold ImpactCalculator.finish, ImpactCalculator.generateSummary.
    cbn [target directCallers transitiveCallers summary totalCallers app List.length].
    now rewrite length_map, length_app.
  - intros otherName. reflexivity.
Qed.

(** X21 on the service project: renaming [getUser] of [user.ts] reports the
    definition and the import in [users.ts] that names it. *)
Lemma symbol_and_rename_outcomes_witness :
  exists (impact : ImpactAnalysis) (locations : list FileLocation),
    ImpactCalculator.analyzeRenameImpact
      (Demo.host Demo.service) (Ripple.impactCalculator (Demo.ripple Demo.service))
      (Demo.builder Demo.service) (Ripple.testMapper (Demo.ripple Demo.service))
      "getUser" "fetchUser" "/p/src/user.ts" = Ok (impact, locations)
    /\ List.length locations = S (totalCallers (summary impact)).
Proof.
  do 2 eexists. split.
  - vm_compute. reflexivity.
  - refine (proj2 (proj2 (proj1 (proj2 (proj2 (proj2
             (@symbol_and_rename_outcomes
                (Demo.host Demo.service) (Ripple.impactCalculator (Demo.ripple Demo.service))
                (Demo.builder Demo.service) (Ripple.testMapper (Demo.ripple Demo.service))
                "getUser" "fetchUser" "/p/src/user.ts" noOptions _ _)))) _ _ _))).
    + vm_compute. reflexivity.
    + vm_compute. reflexivity.
Defined.

(** ** The facade *)

(** X22. Every analysis and query of the facade refuses to run before
    [initialize]: on a freshly created facade each of them throws the
    not-initialised error, whatever its arguments. After [initialize], with
    or without the cache, the facade is initialised, its test mapper has
    rediscovered the test files, and the queries answer from the graph for
    the path resolved against the root; [updateGraph] leaves the facade
    initialised. *)
Theorem facade_requires_initialize
  (H : Host) (root : string) (cfg : RippleConfig) (useCache : bool)
  (file symbolName newName : string) (options : ImpactOptions)
  (changedFiles : list string) :
  let fresh := Ripple.create root cfg in
  let r := Ripple.initialize H useCache fresh in
  let p := path_resolve H [root; file] in
  (Ripple.analyzeFile H fresh file options = Throw Ripple.notInitialized
   /\ Ripple.analyzeSymbol H fresh symbolName file options = Throw Ripple.notInitialized
   /\ Ripple.analyzeRename H fresh symbolName newName file = Throw Ripple.notInitialized
   /\ Ripple.quickRiskCheck H fresh file = Throw Ripple.notInitialized
   /\ Ripple.updateGraph H changedFiles fresh = Throw Ripple.notInitialized
   /\ Ripple.getDependents H fresh file = Throw Ripple.notInitialized
   /\ Ripple.getDependencies H fresh file = Throw Ripple.notInitialized
   /\ Ripple.isTestFile H fresh file = Throw Ripple.notInitialized)
  /\ Ripple.initialized r = true
  /\ Ripple.testMapper r = TestMapper.initialize H (Ripple.testMapper fresh)
  /\ Ripple.getDependents H r file
     = Ok (DependencyGraphBuilder.getDirectDependents (Ripple.graphBuilder r) p)
  /\ Ripple.getDependencies H r file
     = Ok (DependencyGraphBuilder.getDirectDependencies (Ripple.graphBuilder r) p)
  /\ Ripple.isTestFile H r file = Ok (TestMapper.isTestFile (Ripple.testMapper r) p)
  /\ Ripple.analyzeFile H r file options
     = ImpactCalculator.analyzeFileImpact
         H (Ripple.impactCalculator r) (Ripple.graphBuilder r) (Ripple.testMapper r)
         p options
  /\ exists r' : Ripple.t,
      Ripple.updateGraph H changedFiles r = Ok r'
      /\ Ripple.initialized r' = true
      /\ Ripple.graphBuilder r'
         = DependencyGraphBuilder.updateIncremental
             H (map (fun f => path_resolve H [root; f]) changedFiles)
             (Ripple.graphBuilder r).
Proof.
  cbv zeta.
  assert (Hinit : Ripple.initialized (Ripple.initialize H useCache (Ripple.create root cfg))
                  = true).
  { unfold Ripple.initialize. now destruct (fst _). }
  assert (Hroot : Ripple.rootDir (Ripple.initialize H useCache (Ripple.create root cfg))
                  = root).
  { unfold Ripple.initialize. now destruct (fst _). }
  split; [repeat split|].
  split; [exact Hinit|]. split.
  { unfold Ripple.initialize. now destruct (fst _). }
  unfold Ripple.getDependents, Ripple.getDependencies, Ripple.isTestFile,
    Ripple.analyzeFile, Ripple.updateGraph, Ripple.withPath.
  rewrite Hinit, Hroot. repeat split.
  eexists. split; [reflexivity|]. split; reflexivity.
Qed.

Module CacheStart.
Import DependencyGraphBuilder.

Lemma loadCache_keeps_settings (H : Host) (b : t) :
  rootDir (snd (loadCache H b)) = rootDir b /\ config (snd (loadCache H b)) = config b.
Proof.
  unfold loadCache. destruct (readCache H _) as [snapshot|]; [|now split].
  destruct (negb _); now split.
Qed.

Lemma discoverFiles_loadCache (H : Host) (b : t) :
  discoverFiles H (snd (loadCache H b)) = discoverFiles H b.
Proof.
  destruct (loadCache_keeps_settings H b) as [Hr Hc].
  unfold discoverFiles. now rewrite Hr, Hc.
Qed.

Lemma build_keeps_node (H : Host) (b : t) (file : string) :
  ~ In file (discoverFiles H b) \/ parseNode H file = None ->
  getNode (build H b) file = getNode b file.
Proof.
  intros Hf. unfold build, getNode. simpl. rewrite EdgeFacts.buildEdges_nodes.
  now apply NodeTable.build_loop_keeps.
Qed.

End CacheStart.

(** X23. [initialize] and the cache. Without the cache (switched off in
    the call or in the configuration) the graph is the one [build] makes
    from the builder as it was. With a cache that [loadCache] accepts the
    graph is the loaded one and nothing is rebuilt. With a cache file that
    has the right version but is stale, the graph is built on top of the
    loaded one: a node of the cache file whose file is no longer discovered,
    or no longer parses, is still in the graph after [initialize]. *)
Theorem initialize_builds_on_a_stale_cache
  (H : Host) (r : Ripple.t) (useCache : bool) :
  let b := Ripple.graphBuilder r in
  let r' := Ripple.initialize H useCache r in
  (useCache && cacheEnabled (Ripple.config r) = false ->
   Ripple.graphBuilder r' = DependencyGraphBuilder.build H b)
  /\ (useCache && cacheEnabled (Ripple.config r) = true ->
      fst (DependencyGraphBuilder.loadCache H b) = true ->
      Ripple.graphBuilder r' = snd (DependencyGraphBuilder.loadCache H b))
  /\ (useCache && cacheEnabled (Ripple.config r) = true ->
      fst (DependencyGraphBuilder.loadCache H b) = false ->
      forall (snapshot : CacheSnapshot) (file : string) (node : GraphNode),
        readCache H (GraphStore.cacheFileOf H b) = Some snapshot ->
        snap_version snapshot = 1%Z ->
        JsMap.get file (JsMap.ofList (snap_nodes snapshot)) = Some node ->
        ~ In file (DependencyGraphBuilder.discoverFiles H b) \/ parseNode H file = None ->
        DependencyGraphBuilder.getNode (Ripple.graphBuilder r') file = Some node).
Proof.
  cbv zeta. unfold Ripple.initialize. split; [|split].
  - intros Hoff. rewrite Hoff. reflexivity.
  - intros Hon Hvalid. rewrite Hon, Hvalid. reflexivity.
  - intros Hon Hstale snapshot file node Hread Hversion Hnode Hfile.
    rewrite Hon, Hstale. cbn [Ripple.ready Ripple.graphBuilder].
    rewrite CacheStart.build_keeps_node
      by (now rewrite CacheStart.discoverFiles_loadCache).
    unfold DependencyGraphBuilder.loadCache, GraphStore.cacheFileOf in *.
    rewrite Hread in *. rewrite Hversion in *. cbn [Z.eqb Pos.eqb negb] in *.
    exact Hnode.
Qed.

(** X23 on the diamond with a stale cache file that still lists [gone.ts]:
    after [initialize], [gone.ts] has a node although it is not on disk. *)
Lemma initialize_builds_on_a_stale_cache_witness :
  DependencyGraphBuilder.getNode
    (Ripple.graphBuilder
       (Ripple.initialize
          (DemoMore.withCache (Demo.host Demo.diamond) DemoMore.staleSnapshot 1) true
          (Ripple.create "/p" DemoMore.cachingConfig)))
    "/p/src/gone.ts"
  = Some (Demo.plainFile "gone" []).
Proof.
  refine (proj2 (proj2 (@initialize_builds_on_a_stale_cache
                          (DemoMore.withCache (Demo.host Demo.diamond)
                                              DemoMore.staleSnapshot 1)
                          (Ripple.create "/p" DemoMore.cachingConfig) true))
                _ _ DemoMore.staleSnapshot "/p/src/gone.ts" _ _ _ _ _).
  - reflexivity.
  - vm_compute. reflexivity.
  - reflexivity.
  - reflexivity.
  - vm_compute. reflexivity.
  - right. vm_compute. reflexivity.
Defined.

(** ** Claude Code hooks *)

Module HookFacts.
Import ClaudeCodeHooks.

Lemma isRiskAcceptable_rank (self : t) (l : RiskLevel) :
  isRiskAcceptable self l = (levelRank l <=? levelRank (riskThreshold (config self)))%nat.
Proof.
  unfold isRiskAcceptable. destruct l; destruct (riskThreshold (config self)); reflexivity.
Qed.

End HookFacts.

(** X24. [preEditHook] never throws and blocks only on request. Switched
    off, or with automatic analysis off, it lets the edit proceed without
    analysis or warning. When the analysis throws, as it does for a file
    without a node or before the facade is initialised, the edit still
    proceeds, with the error message as the only warning. When the analysis
    succeeds it is returned and cached under the path as given; confirmation
    is required exactly when [needsConfirmation] says so, and then there is a
    warning; there are at most three warnings; and the edit is stopped if
    and only if [blockOnHighRisk] is set and the level is above the
    configured threshold. *)
Theorem preEditHook_blocks_only_on_request
  (H : Host) (self : ClaudeCodeHooks.t) (filePath : string) :
  let cfg := ClaudeCodeHooks.config self in
  let out := ClaudeCodeHooks.preEditHook H self filePath in
  let analysed := Ripple.analyzeFile H (ClaudeCodeHooks.ripple self) filePath noOptions in
  (enabled cfg = false \/ autoAnalyze cfg = false -> out = (mkPreEdit true None [] false, self))
  /\ (enabled cfg = true -> autoAnalyze cfg = true ->
      forall message : string,
        analysed = Throw message ->
        out = (mkPreEdit true None ["Analysis failed: " +++ message] false, self))
  /\ (enabled cfg = true -> autoAnalyze cfg = true ->
      forall analysis : ImpactAnalysis,
        analysed = Ok analysis ->
        pre_analysis (fst out) = Some analysis
        /\ JsMap.get filePath (ClaudeCodeHooks.analysisCache (snd out)) = Some analysis
        /\ requiresConfirmation (fst out) = ClaudeCodeHooks.needsConfirmation analysis
        /\ (requiresConfirmation (fst out) = true -> warnings (fst out) <> [])
        /\ (List.length (warnings (fst out)) <= 3)%nat
        /\ (proceed (fst out) = false
            <-> blockOnHighRisk cfg = true
                /\ (levelRank (riskThreshold cfg)
                    < levelRank (level (riskScore analysis)))%nat))
  /\ (blockOnHighRisk cfg = false -> proceed (fst out) = true)
  /\ (enabled cfg = true -> autoAnalyze cfg = true ->
      Ripple.initialized (ClaudeCodeHooks.ripple self) = false ->
      out = (mkPreEdit true None ["Analysis failed: " +++ Ripple.notInitialized] false,
             self)).
Proof.
  cbv zeta. unfold ClaudeCodeHooks.preEditHook.
  split; [|split; [|split; [|split]]].
  - intros [Hoff|Hoff]; rewrite Hoff; simpl; [reflexivity|].
    now rewrite orb_true_r.
  - intros He Ha message Hthrow. now rewrite He, Ha, Hthrow.
  - intros He Ha analysis Hok. rewrite He, Ha, Hok.
    cbn [negb orb fst snd pre_analysis requiresConfirmation warnings proceed
         ClaudeCodeHooks.analysisCache].
    split; [reflexivity|]. split; [apply JsMapFacts.get_set_same|].
    split; [reflexivity|]. split; [|split].
    + destruct (RiskLevel_eqb (level (riskScore analysis)) Critical
                || RiskLevel_eqb (level (riskScore analysis)) High);
        [discriminate|].
      destruct (0 <? criticalPathCallers (summary analysis))%nat; [|discriminate].
      intros _. destruct (0 <? List.length (untestedCallers analysis))%nat; discriminate.
    + destruct (RiskLevel_eqb (level (riskScore analysis)) Critical
                || RiskLevel_eqb (level (riskScore analysis)) High);
        destruct (0 <? List.length (untestedCallers analysis))%nat;
        destruct (0 <? criticalPathCallers (summary analysis))%nat; simpl; lia.
    + rewrite HookFacts.isRiskAcceptable_rank.
      destruct (blockOnHighRisk (ClaudeCodeHooks.config self)); cbn [negb orb].
      * rewrite Nat.leb_gt. tauto.
      * split; [discriminate | intros [Hb _]; discriminate].
  - intros Hb.
    destruct (negb (enabled (ClaudeCodeHooks.config self))
              || negb (autoAnalyze (ClaudeCodeHooks.config self))); [reflexivity|].
    destruct (Ripple.analyzeFile H (ClaudeCodeHooks.ripple self) filePath noOptions);
      [|reflexivity].
    cbn [fst proceed]. now rewrite Hb.
  - intros He Ha Hinit. rewrite He, Ha. cbn [negb orb].
    unfold Ripple.analyzeFile, Ripple.withPath. now rewrite Hinit.
Qed.

(** X25. The two decisions about an edit do not agree. On an analysis of
    critical level, [shouldProceedWithEdit] says not to proceed, yet
    [preEditHook] with the default hook configuration lets the edit proceed
    and only requires confirmation. [shouldProceedWithEdit] refuses exactly
    the critical analyses and the high ones with more than five untested
    callers; whenever it refuses, [needsConfirmation] holds; whenever it
    agrees, its reason is the recommendation of the summary. *)
Theorem edit_decisions
  (H : Host) (self : ClaudeCodeHooks.t) (filePath : string) (analysis : ImpactAnalysis) :
  let decision := ClaudeCodeHooks.shouldProceedWithEdit analysis in
  (decision_proceed decision = false
   <-> level (riskScore analysis) = Critical
       \/ (level (riskScore analysis) = High
           /\ (5 < sum_untestedCallers (summary analysis))%nat))
  /\ (decision_proceed decision = false ->
      ClaudeCodeHooks.needsConfirmation analysis = true)
  /\ (decision_proceed decision = true -> reason decision = recommendation (summary analysis))
  /\ (ClaudeCodeHooks.config self = DEFAULT_HOOK_CONFIG ->
      Ripple.analyzeFile H (ClaudeCodeHooks.ripple self) filePath noOptions = Ok analysis ->
      level (riskScore analysis) = Critical ->
      decision_proceed decision = false
      /\ proceed (fst (ClaudeCodeHooks.preEditHook H self filePath)) = true
      /\ requiresConfirmation (fst (ClaudeCodeHooks.preEditHook H self filePath)) = true).
Proof.
  cbv zeta. unfold ClaudeCodeHooks.shouldProceedWithEdit, ClaudeCodeHooks.needsConfirmation.
  split; [|split; [|split]].
  - destruct (level (riskScore analysis)); cbn [RiskLevel_eqb andb];
      try (split; [discriminate | intros [Hc|[Hc _]]; discriminate]).
    + destruct (Nat.ltb_spec 5 (sum_untestedCallers (summary analysis)));
        cbn [decision_proceed]; split; try discriminate; try tauto.
      intros [Hc|[_ Hlt]]; [discriminate | lia].
    + split; [now left | reflexivity].
  - destruct (level (riskScore analysis)); cbn [RiskLevel_eqb andb orb];
      try discriminate; try reflexivity.
  - destruct (level (riskScore analysis)); cbn [RiskLevel_eqb andb];
      try reflexivity; try discriminate.
    destruct (5 <? sum_untestedCallers (summary analysis))%nat; cbn; [discriminate|].
    reflexivity.
  - intros Hcfg Hok Hcrit. unfold ClaudeCodeHooks.preEditHook.
    rewrite Hcfg, Hok, Hcrit. cbn. repeat split; reflexivity.
Qed.



(** ** Graph engine: resolving an import *)

Module ResolveFacts.
Import DependencyGraphBuilder.

Lemma length_app_string (a b : string) :
  String.length (a +++ b) = (String.length a + String.length b)%nat.
Proof. induction a as [|c a IH]; simpl; [reflexivity | now rewrite IH]. Qed.

Lemma substring_all (s : string) : substring 0 (String.length s) s = s.
Proof. induction s as [|c s IH]; simpl; [reflexivity | now rewrite IH]. Qed.

Lemma substring_tail (a b : string) :
  substring (String.length a) (String.length b) (a +++ b) = b.
Proof. induction a as [|c a IH]; simpl; [apply substring_all | exact IH]. Qed.

Lemma substring_head (a b : string) : substring 0 (String.length a) (a +++ b) = a.
Proof.
  induction a as [|c a IH]; simpl; [now destruct b | now rewrite IH].
Qed.

Lemma endsWith_append (a b : string) : Js.endsWith b (a +++ b) = true.
Proof.
  unfold Js.endsWith. rewrite length_app_string.
  replace (String.length a + String.length b - String.length b)%nat
    with (String.length a) by lia.
  rewrite substring_tail, String.eqb_refl, andb_true_r.
  apply Nat.leb_le. lia.
Qed.

Lemma dropRight_append (a b : string) : Js.dropRight (String.length b) (a +++ b) = a.
Proof.
  unfold Js.dropRight. rewrite length_app_string.
  replace (String.length a + String.length b - String.length b)%nat
    with (String.length a) by lia.
  apply substring_head.
Qed.

Lemma startsWith_append (p a b : string) :
  Js.startsWith p a = true -> Js.startsWith p (a +++ b) = true.
Proof.
  unfold Js.startsWith. revert a.
  induction p as [|c p IH]; intros a; [intros _; now destruct (a +++ b)|].
  destruct a as [|c' a]; simpl; [discriminate|].
  destruct (Ascii.ascii_dec c c'); [apply IH | discriminate].
Qed.

Lemma find_exists (ok : string -> bool) (xs : list string) :
  (exists x : string, In x xs /\ ok x = true) -> exists p : string, find ok xs = Some p.
Proof.
  intros (x & Hx & Hok). destruct (find ok xs) as [p|] eqn:Hfind; [now exists p|].
  exfalso. pose proof (find_none _ _ Hfind x Hx) as Hno. congruence.
Qed.

End ResolveFacts.

(** X27. What [resolveImport] returns. Every path it returns exists on
    disk. A relative import that finds a file beside the importer resolves
    the same with a [.js] suffix added, the way ESM imports are written. A
    relative import that finds no file beside the importer is looked up
    under [<root>/src] like a bare import, where a directory is accepted as
    well; and an import for which neither probe finds anything resolves to
    nothing. *)
Theorem resolveImport_probes (H : Host) (root importSource fromFile : string) :
  let resolve := DependencyGraphBuilder.resolveImport H root in
  let srcPath := path_resolve H [root; "src"; importSource] in
  let underSrc :=
    map (fun ext => srcPath +++ ext) DependencyGraphBuilder.possibleExtensions
    ++ map (fun ext => path_resolve H [srcPath; "index" +++ ext])
           DependencyGraphBuilder.possibleExtensions in
  (forall p : string, resolve importSource fromFile = Some p -> fs_exists H p = true)
  /\ (Js.startsWith "." importSource = true ->
      Js.endsWith ".js" importSource = false ->
      Js.endsWith ".jsx" importSource = false ->
      foundBeside H importSource fromFile ->
      resolve (importSource +++ ".js") fromFile = resolve importSource fromFile)
  /\ (Js.startsWith "." importSource = false
      \/ Js.endsWith ".js" importSource = false
         /\ Js.endsWith ".jsx" importSource = false
         /\ ~ foundBeside H importSource fromFile ->
      resolve importSource fromFile = find (fs_exists H) underSrc)
  /\ (Js.startsWith "." importSource = false ->
      (forall p : string, In p underSrc -> fs_exists H p = false) ->
      resolve importSource fromFile = None).
Proof.
  cbv zeta.
  set (srcProbe := fun source : string =>
         match
           DependencyGraphBuilder.firstThat
             (fs_exists H)
             (map (fun ext => path_resolve H [root; "src"; source] +++ ext)
                  DependencyGraphBuilder.possibleExtensions)
         with
         | Some p => Some p
         | None =>
             DependencyGraphBuilder.firstThat
               (fs_exists H)
               (map (fun ext => path_resolve H [path_resolve H [root; "src"; source];
                                                "index" +++ ext])
                    DependencyGraphBuilder.possibleExtensions)
         end).
  assert (Hsrc : forall source : string,
             srcProbe source
             = find (fs_exists H)
                    (map (fun ext => path_resolve H [root; "src"; source] +++ ext)
                         DependencyGraphBuilder.possibleExtensions
                     ++ map (fun ext => path_resolve H [path_resolve H [root; "src"; source];
                                                        "index" +++ ext])
                            DependencyGraphBuilder.possibleExtensions)).
  { intros source. unfold srcProbe, DependencyGraphBuilder.firstThat.
    generalize (map (fun ext => path_resolve H [root; "src"; source] +++ ext)
                    DependencyGraphBuilder.possibleExtensions) as first.
    generalize (map (fun ext => path_resolve H [path_resolve H [root; "src"; source];
                                               "index" +++ ext])
                    DependencyGraphBuilder.possibleExtensions) as second.
    intros second first. induction first as [|x rest IH]; cbn [find app];
      [now destruct (find (fs_exists H) second)|].
    destruct (fs_exists H x); [reflexivity | exact IH]. }
  split; [|split; [|split]].
  - intros p. unfold DependencyGraphBuilder.resolveImport.
    destruct (Js.startsWith "." importSource).
    + unfold DependencyGraphBuilder.firstThat at 1.
      destruct (find _ (flat_map _ _)) as [q|] eqn:Hrel.
      * intros [= <-]. apply find_some in Hrel. destruct Hrel as [_ Hok].
        now apply andb_true_iff in Hok.
      * fold (srcProbe importSource). rewrite Hsrc. intros Hfind.
        apply find_some in Hfind. tauto.
    + fold (srcProbe importSource). rewrite Hsrc. intros Hfind.
      apply find_some in Hfind. tauto.
  - intros Hdot Hjs Hjsx (basePath & ext & Hbase & Hext & Hex & Hfile).
    unfold DependencyGraphBuilder.resolveImport.
    rewrite (ResolveFacts.startsWith_append _ _ ".js" Hdot), Hdot.
    rewrite ResolveFacts.endsWith_append, Hjs, Hjsx.
    change 3%nat with (String.length ".js"). rewrite ResolveFacts.dropRight_append.
    unfold DependencyGraphBuilder.firstThat at 1 4.
    destruct (@ResolveFacts.find_exists
                (fun p => fs_exists H p && fs_isFile H p)
                (flat_map
                   (fun basePath0 =>
                      map (fun ext0 => path_resolve H [path_dirname H fromFile;
                                                       basePath0 +++ ext0])
                          DependencyGraphBuilder.possibleExtensions)
                   [importSource; importSource +++ "/index"])) as (p & Hp).
    { exists (path_resolve H [path_dirname H fromFile; basePath +++ ext]). split.
      - apply in_flat_map. exists basePath. split; [exact Hbase|].
        apply in_map_iff. now exists ext.
      - now rewrite Hex, Hfile. }
    now rewrite Hp.
  - intros Hcase. unfold DependencyGraphBuilder.resolveImport.
    fold (srcProbe importSource). rewrite <- Hsrc.
    destruct Hcase as [Hbare|(Hjs & Hjsx & Hnone)]; [now rewrite Hbare|].
    destruct (Js.startsWith "." importSource); [|reflexivity].
    rewrite Hjs, Hjsx. unfold DependencyGraphBuilder.firstThat at 1.
    destruct (find _ (flat_map _ _)) as [q|] eqn:Hrel; [|reflexivity].
    exfalso. apply Hnone. apply find_some in Hrel. destruct Hrel as [Hin Hok].
    apply in_flat_map in Hin. destruct Hin as (basePath & Hbase & Hin).
    apply in_map_iff in Hin. destruct Hin as (ext & <- & Hext).
    apply andb_true_iff in Hok. exists basePath, ext. tauto.
  - intros Hbare Hnone. unfold DependencyGraphBuilder.resolveImport.
    rewrite Hbare. fold (srcProbe importSource). rewrite Hsrc.
    destruct (find _ _) as [p|] eqn:Hfind; [|reflexivity].
    apply find_some in Hfind. destruct Hfind as [Hin Hex].
    rewrite (Hnone p Hin) in Hex. discriminate.
Qed.

(** X27 on the service project: [users.ts] may write its import of
    [user.ts] as [./user.js]. *)
Lemma resolveImport_probes_witness :
  DependencyGraphBuilder.resolveImport
    (Demo.host Demo.service) "/p" ("./user" +++ ".js") "/p/src/users.ts"
  = DependencyGraphBuilder.resolveImport
      (Demo.host Demo.service) "/p" "./user" "/p/src/users.ts".
Proof.
  refine (proj1 (proj2 (resolveImport_probes
                          (Demo.host Demo.service) "/p" "./user" "/p/src/users.ts"))
                _ _ _ _).
  - reflexivity.
  - reflexivity.
  - reflexivity.
  - exists "./user", ".ts". split; [now left|]. split; [now left|].
    split; vm_compute; reflexivity.
Defined.

(** ** Parser: the context snippet *)

Module SnippetFacts.
Import Parser.

Lemma splitLines_nonempty (s : string) : splitLines s <> [].
Proof.
  induction s as [|c rest IH]; simpl; [discriminate|].
  destruct (Ascii.eqb c "010"); [discriminate|].
  destruct (splitLines rest); discriminate.
Qed.

Lemma splitLines_single (s : string) :
  forall l : string, In l (splitLines s) -> singleLine l.
Proof.
  unfold singleLine. induction s as [|c rest IH]; simpl.
  - intros l [<-|[]]. reflexivity.
  - destruct (Ascii.eqb c "010") eqn:Hc.
    + intros l [<-|Hl]; [reflexivity | now apply IH].
    + destruct (splitLines rest) as [|first others] eqn:Hrest.
      * intros l [<-|[]]. simpl. now rewrite Hc.
      * intros l [<-|Hl]; [|apply IH; now right].
        simpl. rewrite Hc. rewrite (IH first (or_introl eq_refl)). reflexivity.
Qed.

(** A line, a line break, and more text split into the line and the lines
    of the text. *)
Lemma splitLines_cons (l rest : string) :
  singleLine l -> splitLines (l +++ newline +++ rest) = l :: splitLines rest.
Proof.
  unfold singleLine. induction l as [|c l IH]; intros Hs.
  - reflexivity.
  - cbn [String.append splitLines] in *.
    destruct (Ascii.eqb c "010"); [discriminate|].
    destruct (splitLines l) as [|first others] eqn:Hl.
    + exfalso. now apply (splitLines_nonempty l).
    + injection Hs as Hfirst Hothers. subst first others.
      rewrite IH by reflexivity. reflexivity.
Qed.

Lemma splitLines_concat (ls : list string) :
  ls <> [] -> (forall l, In l ls -> singleLine l) ->
  splitLines (String.concat newline ls) = ls.
Proof.
  induction ls as [|l rest IH]; [congruence|]. intros _ Hsingle.
  destruct rest as [|l' rest'].
  - simpl. apply Hsingle. now left.
  - change (String.concat newline (l :: l' :: rest'))
      with (l +++ newline +++ String.concat newline (l' :: rest')).
    rewrite splitLines_cons by (apply Hsingle; now left).
    rewrite IH; [reflexivity | discriminate |].
    intros x Hx. apply Hsingle. now right.
Qed.

Lemma In_slice {A : Type} (start stop : Z) (xs : list A) (x : A) :
  In x (slice start stop xs) -> In x xs.
Proof.
  unfold slice. intros Hx.
  set (from := Z.to_nat (if (start <? 0)%Z
                         then Z.max 0 (Z.of_nat (List.length xs) + start)
                         else Z.min start (Z.of_nat (List.length xs)))) in *.
  rewrite <- (firstn_skipn from xs). apply in_or_app. right.
  match type of Hx with
  | In x (firstn ?k ?rest) => rewrite <- (firstn_skipn k rest); apply in_or_app; now left
  end.
Qed.

(** A slice between two indices of the array. *)
Lemma slice_within {A : Type} (start stop : Z) (xs : list A) :
  (0 <= start <= stop)%Z -> (stop <= Z.of_nat (List.length xs))%Z ->
  List.length (slice start stop xs) = Z.to_nat (stop - start)
  /\ forall i : nat,
      (i < Z.to_nat (stop - start))%nat ->
      nth_error (slice start stop xs) i = nth_error xs (Z.to_nat start + i).
Proof.
  intros Hs He. unfold slice.
  destruct (Z.ltb_spec start 0) as [Hneg|_]; [lia|].
  destruct (Z.ltb_spec stop 0) as [Hneg|_]; [lia|].
  rewrite (Z.min_l start) by lia. rewrite (Z.min_l stop) by lia. split.
  - rewrite length_firstn, length_skipn. lia.
  - intros i Hi. rewrite nth_error_firstn, nth_error_skipn.
    destruct (Nat.ltb_spec i (Z.to_nat (stop - start))); [reflexivity | lia].
Qed.

Lemma slice_empty {A : Type} (start stop : Z) (xs : list A) :
  (0 <= stop <= start)%Z -> slice start stop xs = [].
Proof.
  intros Hs. unfold slice.
  destruct (Z.ltb_spec start 0) as [Hneg|_]; [lia|].
  destruct (Z.ltb_spec stop 0) as [Hneg|_]; [lia|].
  replace (Z.to_nat (Z.min stop (Z.of_nat (List.length xs))
                     - Z.min start (Z.of_nat (List.length xs)))) with 0%nat by lia.
  reflexivity.
Qed.

End SnippetFacts.

(** X28. The context snippet of a line. For a file that cannot be read the
    snippet is empty. For a readable file with [n] lines, a non-negative
    number of context lines and a line number between 1 and [n], the snippet
    consists of the lines from [max(1, line - context)] to
    [min(n, line + context)] of the file, joined by line breaks: the line
    itself is among them, at its offset from the first, and there are at
    most [2 * context + 1] of them. A line number beyond [n + context]
    gives the empty snippet. *)
Theorem context_snippet_is_the_window_around_the_line
  (readFile : string -> option string) (filePath content : string)
  (line contextLines : Z) :
  let snippet := Parser.getContextSnippet readFile filePath line contextLines in
  let lines := Parser.splitLines content in
  let n := Z.of_nat (List.length lines) in
  let first := Z.max 1 (line - contextLines) in
  let last := Z.min n (line + contextLines) in
  (readFile filePath = None -> snippet = "")
  /\ (readFile filePath = Some content ->
      (0 <= contextLines)%Z ->
      (1 <= line <= n)%Z ->
      let window := Parser.splitLines snippet in
      Z.of_nat (List.length window) = (last - first + 1)%Z
      /\ (Z.of_nat (List.length window) <= 2 * contextLines + 1)%Z
      /\ (forall k : Z,
             (first <= k <= last)%Z ->
             nth_error window (Z.to_nat (k - first)) = nth_error lines (Z.to_nat (k - 1)))
      /\ nth_error window (Z.to_nat (line - first)) = nth_error lines (Z.to_nat (line - 1)))
  /\ (readFile filePath = Some content ->
      (0 <= contextLines)%Z ->
      (n + contextLines < line)%Z ->
      snippet = "").
Proof.
  cbv zeta. unfold Parser.getContextSnippet. split; [|split].
  - intros Hnone. now rewrite Hnone.
  - intros Hsome Hctx Hline. rewrite Hsome. cbv zeta.
    set (lines := Parser.splitLines content) in *.
    set (n := Z.of_nat (List.length lines)) in *.
    set (start := Z.max 0 (line - contextLines - 1)).
    set (stop := Z.min n (line + contextLines)).
    assert (Hstart : Z.max 1 (line - contextLines) = (start + 1)%Z) by (unfold start; lia).
    rewrite Hstart.
    assert (Hrange : (0 <= start <= stop)%Z) by (unfold start, stop; lia).
    assert (Hstop : (stop <= Z.of_nat (List.length lines))%Z) by (unfold stop, n; lia).
    destruct (SnippetFacts.slice_within lines Hrange Hstop) as [Hlen Hnth].
    assert (Hwindow : Parser.splitLines
                        (String.concat Parser.newline (Parser.slice start stop lines))
                      = Parser.slice start stop lines).
    { apply SnippetFacts.splitLines_concat.
      - intros Hnil. rewrite Hnil in Hlen. simpl in Hlen. unfold start, stop in Hlen. lia.
      - intros l Hl. apply SnippetFacts.In_slice in Hl.
        now apply (SnippetFacts.splitLines_single content). }
    rewrite Hwindow, Hlen.
    assert (Hwin : forall k : Z,
               (start + 1 <= k <= stop)%Z ->
               nth_error (Parser.slice start stop lines) (Z.to_nat (k - (start + 1)))
               = nth_error lines (Z.to_nat (k - 1))).
    { intros k Hk. rewrite Hnth by lia. f_equal. lia. }
    split; [lia|]. split; [unfold start, stop; lia|]. split; [exact Hwin|].
    apply Hwin. unfold start, stop. lia.
  - intros Hsome Hctx Hfar. rewrite Hsome. cbv zeta.
    rewrite SnippetFacts.slice_empty; [reflexivity|]. lia.
Qed.

(** X28 on a file of four lines: with one line of context, the snippet of
    line 2 is the first three lines. *)
Lemma context_snippet_is_the_window_around_the_line_witness :
  Z.of_nat
    (List.length
       (Parser.splitLines
          (Parser.getContextSnippet
             (fun _ => Some ("a" +++ Parser.newline +++ "b" +++ Parser.newline +++ "c"
                             +++ Parser.newline +++ "d"))
             "/p/src/f.ts" 2 1)))
  = 3%Z.
Proof.
  refine (proj1 (proj1 (proj2 (@context_snippet_is_the_window_around_the_line
                                 (fun _ => Some ("a" +++ Parser.newline +++ "b"
                                                 +++ Parser.newline +++ "c"
                                                 +++ Parser.newline +++ "d"))
                                 "/p/src/f.ts"
                                 ("a" +++ Parser.newline +++ "b" +++ Parser.newline +++ "c"
                                  +++ Parser.newline +++ "d")
                                 2 1)) _ _ _)).
  - reflexivity.
  - lia.
  - vm_compute. split; discriminate.
Defined.

(** ** Critical paths *)

(** X29. The critical-path factor of an analysis agrees with its summary.
    The third factor of the score is the critical-path factor, and its value
    is 5 if the scorer finds the target file on a critical path, plus the
    number of critical-path callers of the summary, capped at 5. The scorer
    matches the patterns against the path as given; the calculator, which
    flags the callers, also tries the path relative to the root, so with the
    same patterns every file the scorer finds critical is critical for the
    calculator as well. *)
Theorem critical_path_factor_agrees_with_summary
  (H : Host) (self : ImpactCalculator.t) (b : DependencyGraphBuilder.t) (m : TestMapper.t)
  (file : string) (r : ImpactAnalysis) :
  analysisOf H self b m file r ->
  let scorer := ImpactCalculator.riskScorer self in
  (exists factor : RiskFactor,
      nth_error (factors (riskScore r)) 2 = Some factor
      /\ name factor = "Critical Path"
      /\ (value factor
          == (if RiskScorer.isInCriticalPath H scorer file then 5 else 0)
             + num (Nat.min 5 (criticalPathCallers (summary r))))%Q)
  /\ (criticalPathPatterns (RiskScorer.config scorer)
      = criticalPathPatterns (ImpactCalculator.config self) ->
      forall path : string,
        RiskScorer.isInCriticalPath H scorer path = true ->
        ImpactCalculator.isCriticalPath H self path = true).
Proof.
  intros Hr. destruct (ImpactFacts.analysis_shape Hr)
    as (tgt & direct & transitive & tests & -> & _).
  cbv zeta. split.
  - unfold ImpactCalculator.finish. cbn [riskScore summary].
    unfold RiskScorer.calculateRisk. cbn [factors].
    unfold RiskScorer.collectFactors. cbn [nth_error].
    eexists. split; [reflexivity|]. split; [reflexivity|].
    unfold RiskScorer.calculateCriticalPathFactor, ImpactCalculator.generateSummary.
    cbn [value criticalPathCallers RiskScorer.directCallers RiskScorer.transitiveCallers
         RiskScorer.filePath].
    set (n := List.length (filter caller_isCriticalPath (direct ++ transitive))).
    destruct (RiskScorer.isInCriticalPath H (ImpactCalculator.riskScorer self) file);
      destruct (Nat.ltb_spec 0 n) as [Hpos|Hzero]; try reflexivity.
    + replace n with 0%nat by lia. reflexivity.
    + replace n with 0%nat by lia. reflexivity.
  - intros Hsame path. unfold RiskScorer.isInCriticalPath, ImpactCalculator.isCriticalPath.
    rewrite Hsame, !existsb_exists. intros (pattern & Hin & Hmatch).
    exists pattern. split; [exact Hin|]. now rewrite Hmatch, orb_true_r.
Qed.

(** X29 on the service project: the critical-path factor of the analysis of
    [user.ts] is the third factor of its score. *)
Lemma critical_path_factor_agrees_with_summary_witness :
  exists (r : ImpactAnalysis) (factor : RiskFactor),
    ImpactCalculator.analyzeFileImpact
      (Demo.host Demo.service) (Ripple.impactCalculator (Demo.ripple Demo.service))
      (Demo.builder Demo.service) (Ripple.testMapper (Demo.ripple Demo.service))
      "/p/src/user.ts" noOptions = Ok r
    /\ nth_error (factors (riskScore r)) 2 = Some factor
    /\ name factor = "Critical Path".
Proof.
  eexists.
  destruct (proj1 (@critical_path_factor_agrees_with_summary
                     (Demo.host Demo.service)
                     (Ripple.impactCalculator (Demo.ripple Demo.service))
                     (Demo.builder Demo.service)
                     (Ripple.testMapper (Demo.ripple Demo.service))
                     "/p/src/user.ts" _
                     (or_introl (ex_intro _ noOptions eq_refl))))
    as (factor & Hnth & Hname & _).
  exists factor. split; [reflexivity|]. split; [exact Hnth | exact Hname].
Defined.
